(** * Bibliographic query code: query translation and paginated retrieval

    A shallow embedding of [src/build_query.py] and [src/wos_query.py].

    - Python [str] values are lists of characters; a character is a code
      point below 256 ([ascii]).
    - A [pandas.DataFrame] built from a list of row dictionaries is the list
      of its rows; [pd.concat(..., ignore_index=True)] is list concatenation.
    - Calls that leave the process ([requests.get], [time.sleep]) are
      threaded through an explicit world and an explicit sleep log.
    - A Python [float] is a binary64 number ([PrimFloat.float]); a delay is
      a [float], as the signatures document it.
    - A Python exception that leaves a function is a constructor of the
      function's result type. *)

From Stdlib Require Import ZArith QArith List Lia Bool Ascii String.
From Stdlib Require Import PrimFloat SpecFloat FloatOps.
Import ListNotations.

Local Open Scope Z_scope.

(** ** Python floats *)

Module PyFloat.

(** [float(n)] for an integer, as [float.__mul__] converts an [int]
    operand: the nearest binary64 number, ties to even; an integer too large
    for the format raises [OverflowError] ([None]). *)
Definition float_of_int (n : Z) : option float :=
  match binary_normalize prec emax n 0 false with
  | S754_infinity _ => None
  | f => Some (SF2Prim f)
  end.

(** [x * n] for a float [x] and an integer [n]. *)
Definition mul_int (x : float) (n : Z) : option float :=
  match float_of_int n with
  | Some y => Some (PrimFloat.mul x y)
  | None => None
  end.

(** [2 ** a] for a negative integer [a] is the float [2.0 ** a]: the power
    of two itself, or what it rounds to below the normal range. *)
Definition pow2_float (a : Z) : float :=
  SF2Prim (binary_normalize prec emax 1 a false).

(** [x * (2 ** a)]: for [a >= 0] the power is an integer, converted for the
    product; otherwise it is a float already. *)
Definition mul_pow2 (x : float) (a : Z) : option float :=
  if 0 <=? a then mul_int x (2 ^ a) else Some (PrimFloat.mul x (pow2_float a)).

End PyFloat.

(** ** [time.sleep] *)

(** The durations CPython hands on to the platform ([pytime.c]): the
    seconds are multiplied by [1e9] as a double and must fit a signed 64-bit
    count of nanoseconds that is not negative. NaN, a negative number, an
    infinity and anything from [2^63] nanoseconds on (about 9.2e9 seconds)
    raise [ValueError] or [OverflowError] on every platform. *)
Definition in_sleep_range (secs : float) : bool :=
  PrimFloat.leb 0 secs && PrimFloat.ltb (PrimFloat.mul secs 1e9) 0x1p63.

(** What the platform's own sleep does with a duration it is handed is not
    in the code: [clock_nanosleep] refuses ([OSError]) a deadline past the
    range of the kernel's clock, which on Linux is reached about 9.2e9
    seconds after boot. [os_takes] says which durations the platform takes;
    it is a parameter of the model. *)
Class Platform := { os_takes : float -> bool }.

(** A Linux machine on which the durations below 9e9 seconds are taken,
    as they are for the first seven years after boot. *)
Definition linux : Platform := {| os_takes := fun secs => PrimFloat.ltb secs 9e9 |}.

(** [time.sleep(secs)] returns. *)
Definition sleepable {P : Platform} (secs : float) : bool :=
  in_sleep_range secs && os_takes secs.

(** [time.sleep(secs)]: [None] when it raises; otherwise it blocks, which
    we record by appending the duration to the log. *)
Definition time_sleep {P : Platform} (secs : float) (log : list float)
  : option (list float) :=
  if sleepable secs then Some (log ++ [secs]) else None.

(** ** [execute_query_paginated] *)

Module Paginated.
Section Loop.

(** One row of a result frame. *)
Variable record : Type.

Definition DataFrame := list record.

(** What a call of [query_wos] does, seen from its caller. *)
Inductive fetched :=
| Raises                              (* an exception reaches the caller *)
| Returns (df : option DataFrame).    (* [None] or a frame *)

(** The outside world and the page fetch
    [query_wos(api, query, count=page_size, first_record=first_record)]. *)
Variable World : Type.
Context {P : Platform}.
Variable query_wos : World -> Z -> Z -> fetched * World.

Variable delay : float.
Variable max_records : Z.
Variable retries : Z.

Definition page_size : Z := 100.

(** The local variables of the function, the world and the sleep log. *)
Record locals := mkLocals {
  all_dfs : list DataFrame;
  first_record : Z;
  attempts : Z;
  world : World;
  slept : list float
}.

Inductive flow :=
| Continue (s : locals)     (* next iteration of the [while] *)
| Break (s : locals)        (* [break] *)
| Propagate (s : locals).   (* an exception leaves the function *)

(** [delay * (2 ** attempts)]; [None] when the product raises. *)
Definition sleep_time (a : Z) : option float := PyFloat.mul_pow2 delay a.

(** The [except Exception] block. An exception raised inside it, by the
    product or by [time.sleep], leaves the function. *)
Definition handler (s : locals) : flow :=
  let a := attempts s + 1 in
  let s1 := mkLocals (all_dfs s) (first_record s) a (world s) (slept s) in
  if a >=? retries then Break s1
  else
    match sleep_time a with
    | None => Propagate s1
    | Some t =>
        match time_sleep t (slept s1) with
        | Some log => Continue (mkLocals (all_dfs s1) (first_record s1) a (world s1) log)
        | None => Propagate s1
        end
    end.

(** The [try] block followed, when it raises, by the handler. *)
Definition body (s : locals) : flow :=
  match query_wos (world s) page_size (first_record s) with
  | (Raises, w) =>
      handler (mkLocals (all_dfs s) (first_record s) (attempts s) w (slept s))
  | (Returns None, w) =>
      Break (mkLocals (all_dfs s) (first_record s) (attempts s) w (slept s))
  | (Returns (Some df), w) =>
      match df with
      | [] => Break (mkLocals (all_dfs s) (first_record s) (attempts s) w (slept s))
      | _ :: _ =>
          let dfs := all_dfs s ++ [df] in
          if Z.of_nat (List.length df) <? page_size
          then Break (mkLocals dfs (first_record s) (attempts s) w (slept s))
          else
            let fr := first_record s + page_size in
            match time_sleep delay (slept s) with
            | Some log => Continue (mkLocals dfs fr 0 w log)
            | None => handler (mkLocals dfs fr (attempts s) w (slept s))
            end
      end
  end.

Inductive exit :=
| Finished (s : locals)
| Raised (s : locals).

(** The [while first_record <= max_records] loop; [None] is "out of fuel". *)
Fixpoint while_loop (fuel : nat) (s : locals) : option exit :=
  match fuel with
  | O => None
  | S fuel' =>
      if first_record s <=? max_records then
        match body s with
        | Continue s' => while_loop fuel' s'
        | Break s' => Some (Finished s')
        | Propagate s' => Some (Raised s')
        end
      else Some (Finished s)
  end.

(** Iterations still possible from [s]: pages left times the tries each
    page may take. *)
Definition iterations_left (fr a : Z) : Z :=
  let pages := Z.max 0 ((max_records - fr) / page_size + 1) in
  let tries := Z.max 0 retries in
  pages * (tries + 1) + Z.max 0 (tries - a).

Definition measure (s : locals) : Z :=
  iterations_left (first_record s) (attempts s).

Definition initial (w : World) : locals := mkLocals [] 1 0 w [].

Definition enough_fuel : nat := S (Z.to_nat (iterations_left 1 0)).

Inductive outcome :=
| Return (result : option DataFrame) (w : World) (log : list float)
| Exception (w : World) (log : list float).

(** The statements after the loop. *)
Definition conclude (s : locals) : outcome :=
  match all_dfs s with
  | [] => Return None (world s) (slept s)
  | _ :: _ => Return (Some (List.concat (all_dfs s))) (world s) (slept s)
  end.

Definition execute_query_paginated (w : World) : option outcome :=
  match while_loop enough_fuel (initial w) with
  | Some (Finished s) => Some (conclude s)
  | Some (Raised s) => Some (Exception (world s) (slept s))
  | None => None
  end.

(** A scripted stand-in for [query_wos]: every call takes the next scripted
    outcome and notes the [first_record] it was asked for; when the script
    is exhausted it answers [None] ("no more results"). *)
Definition Mock : Type := list fetched * list Z.

Definition mock_query_wos (w : Mock) (count fr : Z) : fetched * Mock :=
  match fst w with
  | [] => (Returns None, ([], snd w ++ [fr]))
  | f :: script => (f, (script, snd w ++ [fr]))
  end.

(** What the function returns for the frames it has appended. *)
Definition concat_or_none (dfs : list DataFrame) : option DataFrame :=
  match dfs with
  | [] => None
  | _ :: _ => Some (List.concat dfs)
  end.

(** The [first_record] values of [n] consecutive page requests. *)
Definition starts_from (fr : Z) (n : nat) : list Z :=
  map (fun i => fr + page_size * Z.of_nat i) (seq 0 n).

Definition page_starts (n : nat) : list Z := starts_from 1 n.

(** A page with at least [page_size] rows, and a script of such pages. *)
Definition full (df : DataFrame) : Prop :=
  page_size <= Z.of_nat (List.length df).

Definition pages (dfs : list DataFrame) : list fetched :=
  map (fun df => Returns (Some df)) dfs.

(** A block of a script: [fst b] fetches that raise, then one that returns
    the page [snd b]. *)
Definition block : Type := nat * DataFrame.

Definition block_script (b : block) : list fetched :=
  repeat Raises (fst b) ++ [Returns (Some (snd b))].

Definition blocks_script (bs : list block) : list fetched :=
  flat_map block_script bs.

(** The sleep after failure number [a] in a row is one [time.sleep]
    takes. *)
Definition backoff_ok (a : Z) : bool :=
  match sleep_time a with
  | Some t => sleepable t
  | None => false
  end.

(** Every sleep the function can ask for is one [time.sleep] takes: the
    delay between pages and the sleeps after failures 1 to [retries - 1] in
    a row. *)
Definition sleeps_accepted : bool :=
  sleepable delay
  && forallb backoff_ok (map Z.of_nat (seq 1 (Z.to_nat retries - 1))).

(** The sleeps of [k] failures in a row, the counter starting at [a]. *)
Definition backoffs (a : Z) (k : nat) : list float :=
  flat_map (fun j => match sleep_time (a + Z.of_nat j) with
                     | Some t => [t]
                     | None => []
                     end) (seq 1 k).

Definition blocks_sleeps (bs : list block) : list float :=
  flat_map (fun b => backoffs 0 (fst b) ++ [delay]) bs.

(** The requests of a run of blocks: the page of a block is asked for once
    per failure and once more. *)
Fixpoint blocks_requests (fr : Z) (bs : list block) : list Z :=
  match bs with
  | [] => []
  | b :: bs' => repeat fr (S (fst b)) ++ blocks_requests (fr + page_size) bs'
  end.

(** A number of failures in a row that the loop gets over. *)
Definition survivable (k : nat) : Prop :=
  k = 0%nat \/ Z.of_nat k < retries.

End Loop.

Arguments Raises {record}.
Arguments Returns {record} df.
Arguments mkLocals {record World}.
Arguments all_dfs {record World}.
Arguments first_record {record World}.
Arguments attempts {record World}.
Arguments world {record World}.
Arguments slept {record World}.
Arguments Continue {record World}.
Arguments Break {record World}.
Arguments Propagate {record World}.
Arguments Finished {record World}.
Arguments Raised {record World}.
Arguments Return {record World}.
Arguments Exception {record World}.
Arguments handler {record World P}.
Arguments body {record World P}.
Arguments while_loop {record World P}.
Arguments measure {record World}.
Arguments initial {record World}.
Arguments conclude {record World}.
Arguments execute_query_paginated {record World P}.
Arguments mock_query_wos {record}.
Arguments concat_or_none {record}.
Arguments full {record}.
Arguments pages {record}.
Arguments block_script {record}.
Arguments blocks_script {record}.
Arguments blocks_sleeps {record}.
Arguments blocks_requests {record}.

End Paginated.

(** ** [query_wos] *)

Module QueryWos.

(** A decoded JSON body. An object is the list of its members. *)
#[warnings="-register-all"]
Inductive json :=
| JNull
| JBool (b : bool)
| JNum (n : Q)
| JStr (s : string)
| JList (items : list json)
| JDict (members : list (string * json)).

(** What [requests.get] does: it raises a [RequestException] (connection
    reset, timeout), or it returns a response with a status code and a body;
    the body is [None] when [response.json()] raises [JSONDecodeError]. *)
Inductive http :=
| ConnectionFails
| Response (status_code : Z) (body : option json).

(** [d.get(key, default)] on a dictionary. *)
Fixpoint dict_get (members : list (string * json)) (key : string) (default : json) : json :=
  match members with
  | [] => default
  | (k, v) :: members' => if String.eqb k key then v else dict_get members' key default
  end.

(** [v.get(key, default)] on any value: only a dictionary has the method,
    on anything else the attribute lookup raises [AttributeError]. *)
Definition get (v : json) (key : string) (default : json) : option json :=
  match v with
  | JDict members => Some (dict_get members key default)
  | _ => None
  end.

Section Query.

Variable record : Type.

(** The body of the [for record in records_data] loop, which builds one row
    from one [REC] entry; [None] when one of its lookups raises. *)
Variable extract_record : json -> option record.

Variable World : Type.
Context {P : Platform}.

(** [requests.get(url, headers=headers, params=params)] with the [count] and
    [firstRecord] parameters. *)
Variable requests_get : World -> Z -> Z -> http * World.

Definition fetched := Paginated.fetched record.

(** The rows of [records_data]; the first entry that raises ends the loop. *)
Fixpoint extract_all (records_data : list json) : option (list record) :=
  match records_data with
  | [] => Some []
  | r :: rest =>
      match extract_record r with
      | None => None
      | Some row =>
          match extract_all rest with
          | None => None
          | Some rows => Some (row :: rows)
          end
      end
  end.

(** The branch for status code 200, after the body has been decoded. *)
Definition on_success (data : json) : fetched :=
  match data with
  | JDict members =>
      match get (dict_get members "Data" (JDict [])) "Records" (JDict []) with
      | None => Paginated.Raises
      | Some records =>
          match get records "records" JNull with
          | None => Paginated.Raises
          | Some (JDict container) =>
              match dict_get container "REC" (JList []) with
              | JDict rec =>
                  match extract_all [JDict rec] with
                  | Some rows => Paginated.Returns (Some rows)
                  | None => Paginated.Raises
                  end
              | JList recs =>
                  match extract_all recs with
                  | Some rows => Paginated.Returns (Some rows)
                  | None => Paginated.Raises
                  end
              | _ => Paginated.Returns None
              end
          | Some _ => Paginated.Returns None
          end
      end
  | _ => Paginated.Returns None
  end.

(** [delay * (attempt + 1)], the sleep after a throttled answer; [None]
    when the product raises. *)
Definition throttle_time (delay : float) (attempt : Z) : option float :=
  PyFloat.mul_int delay (attempt + 1).

(** The sleep after a throttled attempt is one [time.sleep] takes; so are
    the sleeps after the first [k] attempts. *)
Definition throttle_ok (delay : float) (attempt : Z) : bool :=
  match throttle_time delay attempt with
  | Some t => sleepable t
  | None => false
  end.

Definition throttles_accepted (delay : float) (k : nat) : bool :=
  forallb (throttle_ok delay) (map Z.of_nat (seq 0 k)).

(** The sleeps after [k] throttled attempts in a row, from attempt [a]. *)
Definition throttle_sleeps (delay : float) (a : Z) (k : nat) : list float :=
  flat_map (fun j => match throttle_time delay (a + Z.of_nat j) with
                     | Some t => [t]
                     | None => []
                     end) (seq 0 k).

(** [for attempt in range(retries)]: [remaining] iterations are left and
    [attempt] is the loop variable. The world and the sleep log are
    returned with the result. An exception of the product or of
    [time.sleep] is no [RequestException] and leaves the function. *)
Fixpoint attempt_loop (delay : float) (count first_record : Z)
         (remaining : nat) (attempt : Z) (w : World) (log : list float)
  : fetched * World * list float :=
  match remaining with
  | O => (Paginated.Returns None, w, log)
  | S remaining' =>
      match requests_get w count first_record with
      | (ConnectionFails, w') => (Paginated.Returns None, w', log)
      | (Response status body, w') =>
          if status =? 200 then
            match body with
            | None => (Paginated.Returns None, w', log)
            | Some data => (on_success data, w', log)
            end
          else if status =? 429 then
            match throttle_time delay attempt with
            | None => (Paginated.Raises, w', log)
            | Some t =>
                match time_sleep t log with
                | Some log' =>
                    attempt_loop delay count first_record remaining' (attempt + 1) w' log'
                | None => (Paginated.Raises, w', log)
                end
            end
          else (Paginated.Returns None, w', log)
      end
  end.

Definition query_wos (count first_record retries : Z) (delay : float)
           (w : World) (log : list float) : fetched * World * list float :=
  attempt_loop delay count first_record (Z.to_nat retries) 0 w log.

(** The call made by [execute_query_paginated], with the defaults
    [retries=3] and [delay=1.0]; its world carries the sleep log. *)
Definition fetch_page (wl : World * list float) (count first_record : Z)
  : fetched * (World * list float) :=
  match query_wos count first_record 3 1%float (fst wl) (snd wl) with
  | (r, w, log) => (r, (w, log))
  end.

(** A decoded body without records that the 200 branch has a check for:
    it is not an object, or its [Data.Records.records] is not an object, or
    the [REC] of that object is neither an object nor a list. ([Data] and
    [Data.Records], when present, are objects: on anything else the chained
    [get] raises.) *)
Definition without_records (data : json) : bool :=
  match data with
  | JDict members =>
      match dict_get members "Data" (JDict []) with
      | JDict d =>
          match dict_get d "Records" (JDict []) with
          | JDict r =>
              match dict_get r "records" JNull with
              | JDict container =>
                  match dict_get container "REC" (JList []) with
                  | JDict _ | JList _ => false
                  | _ => true
                  end
              | _ => true
              end
          | _ => false
          end
      | _ => false
      end
  | _ => true
  end.

(** An answer that is neither a page nor a throttle and that the code
    checks for: a failed connection, a status other than 200 and 429, a body
    that is not JSON, or a decoded body without records. *)
Definition checked_failure (h : http) : bool :=
  match h with
  | ConnectionFails => true
  | Response status body =>
      if status =? 200 then
        match body with
        | None => true
        | Some data => without_records data
        end
      else negb (status =? 429)
  end.

(** A scripted [requests.get]: the next scripted answer, or a failed
    connection when the script is exhausted. *)
Definition scripted_get (w : list http) (count first_record : Z) : http * list http :=
  match w with
  | [] => (ConnectionFails, [])
  | h :: w' => (h, w')
  end.

End Query.

Arguments extract_all {record}.
Arguments on_success {record}.
Arguments attempt_loop {record} extract_record {World P}.
Arguments query_wos {record} extract_record {World P}.
Arguments fetch_page {record} extract_record {World P}.

End QueryWos.

(** ** Python strings *)

Module PyStr.

Definition str := list ascii.

(** A string literal. *)
Definition lit (s : string) : str := list_ascii_of_string s.

Definition code (c : ascii) : N := N_of_ascii c.

Definition in_range (lo hi : N) (c : ascii) : bool :=
  ((lo <=? code c) && (code c <=? hi))%N.

(** The characters [str.strip()] removes: the code points below 256 for
    which [str.isspace()] holds. *)
Definition is_space (c : ascii) : bool :=
  in_range 9 13 c || in_range 28 32 c
  || (code c =? 133)%N || (code c =? 160)%N.

(** [\d] of a [str] pattern: a decimal digit. *)
Definition is_digit (c : ascii) : bool := in_range 48 57 c.

(** [\w] of a [str] pattern: alphanumeric ([str.isalnum()]) or underscore. *)
Definition is_word (c : ascii) : bool :=
  is_digit c || in_range 65 90 c || in_range 97 122 c || (code c =? 95)%N
  || (code c =? 170)%N || (code c =? 178)%N || (code c =? 179)%N
  || (code c =? 181)%N || (code c =? 185)%N || (code c =? 186)%N
  || in_range 188 190 c || in_range 192 214 c || in_range 216 246 c
  || in_range 248 255 c.

Fixpoint lstrip (s : str) : str :=
  match s with
  | [] => []
  | c :: s' => if is_space c then lstrip s' else s
  end.

Definition rstrip (s : str) : str := rev (lstrip (rev s)).

(** [s.strip()] *)
Definition strip (s : str) : str := rstrip (lstrip s).

(** [p] is a prefix of [s]. *)
Fixpoint starts_with (p s : str) : bool :=
  match p, s with
  | [], _ => true
  | _ :: _, [] => false
  | a :: p', b :: s' => Ascii.eqb a b && starts_with p' s'
  end.

(** [sub in s] *)
Fixpoint contains (sub s : str) : bool :=
  starts_with sub s ||
  match s with
  | [] => false
  | _ :: s' => contains sub s'
  end.

(** [s.replace(old, new)] for a non-empty [old]: occurrences are taken from
    the left and do not overlap. [skip] counts the characters of the
    occurrence just replaced that are still to be passed over. *)
Fixpoint replace_from (old new : str) (skip : nat) (s : str) : str :=
  match s with
  | [] => []
  | c :: s' =>
      match skip with
      | S skip' => replace_from old new skip' s'
      | O =>
          if starts_with old s
          then new ++ replace_from old new (List.length old - 1) s'
          else c :: replace_from old new 0 s'
      end
  end.

Definition replace (old new s : str) : str := replace_from old new 0 s.

(** [sep.join(parts)] *)
Fixpoint join (sep : str) (parts : list str) : str :=
  match parts with
  | [] => []
  | [p] => p
  | p :: parts' => p ++ sep ++ join sep parts'
  end.

(** [s.lower()] on code points below 256. *)
Definition lower_char (c : ascii) : ascii :=
  if in_range 65 90 c || in_range 192 214 c || in_range 216 222 c
  then ascii_of_N (code c + 32)
  else c.

Definition lower (s : str) : str := map lower_char s.

(** [s == t] *)
Definition eqb (s t : str) : bool :=
  if list_eq_dec ascii_dec s t then true else false.

(** [str(n)] for an integer: decimal digits, with a minus sign when
    negative. *)
Definition digit_char (d : N) : ascii := ascii_of_N (48 + d).

Fixpoint decimal_from (fuel : nat) (n : N) (acc : str) : str :=
  match fuel with
  | O => acc
  | S fuel' =>
      let acc' := digit_char (n mod 10) :: acc in
      if (n <? 10)%N then acc' else decimal_from fuel' (n / 10) acc'
  end.

Definition decimal (n : N) : str := decimal_from (S (N.size_nat n)) n [].

Definition str_of_int (z : Z) : str :=
  if z <? 0 then "-"%char :: decimal (Z.to_N (- z)) else decimal (Z.to_N z).

(** A string of decimal digits; a string that begins with one. *)
Definition all_digits (s : str) : bool := forallb is_digit s.

Definition starts_digit (s : str) : bool :=
  match s with c :: _ => is_digit c | [] => false end.

(** No occurrence of [h] in [x ++ y] begins inside [x]. *)
Fixpoint no_start (h x y : str) : bool :=
  match x with
  | [] => true
  | _ :: x' => negb (starts_with h (x ++ y)) && no_start h x' y
  end.

(** The character [c] does not occur in [w]; every character of [x] is such
    a character; [y] is empty or begins with one. *)
Definition alien (w : str) (c : ascii) : bool := negb (existsb (Ascii.eqb c) w).

Definition all_alien (w x : str) : bool := forallb (alien w) x.


(** The character before the position reached by reading [w]. *)
Definition last_of (w : str) (p : option ascii) : option ascii :=
  fold_left (fun _ c => Some c) w p.

End PyStr.

(** ** Regular expressions ([re]) *)

Module Re.
Import PyStr.

(** The constructs the patterns of [build_query.py] use. *)
Inductive regex :=
| Empty                           (* the empty pattern *)
| Chr (c : ascii)                 (* a literal character *)
| Digit                           (* [\d] *)
| WordBoundary                    (* [\b] *)
| EndOfString                     (* [$] *)
| Seq (r1 r2 : regex)             (* [r1 r2] *)
| Alt (r1 r2 : regex)             (* [r1|r2] *)
| Opt (r : regex)                 (* [r?], greedy *)
| Plus (r : regex)                (* [r+], greedy *)
| Group (i : nat) (r : regex).    (* the [i]-th capturing parentheses *)

(** A literal string. *)
Fixpoint chars (s : str) : regex :=
  match s with
  | [] => Empty
  | c :: s' => Seq (Chr c) (chars s')
  end.

(** A position in the subject: the character before it, the text after it,
    and what the groups have captured so far. *)
Record cursor := mkCursor {
  prev : option ascii;
  rest : str;
  groups : list (nat * str)
}.

Definition advance (c : ascii) (s' : str) (st : cursor) : cursor :=
  mkCursor (Some c) s' (groups st).

Definition word_before (st : cursor) : bool :=
  match prev st with Some c => is_word c | None => false end.

Definition word_after (st : cursor) : bool :=
  match rest st with c :: _ => is_word c | [] => false end.

(** The text between two positions of the same subject. *)
Definition consumed (from to : cursor) : str :=
  firstn (List.length (rest from) - List.length (rest to)) (rest from).

Definition moved (from to : cursor) : bool :=
  (List.length (rest to) <? List.length (rest from))%nat.

Definition or_else {A : Type} (x y : option A) : option A :=
  match x with Some _ => x | None => y end.

(** One or more rounds of a sub-matcher [m], as many as possible first: after
    a round that moved, another round is tried before the continuation. A
    round that did not move ends the repetition. Every further round starts
    later in the subject, so [fuel] above its length is never used up. *)
Fixpoint repeated (m : (cursor -> option cursor) -> cursor -> option cursor)
         (k : cursor -> option cursor) (fuel : nat) (st : cursor) : option cursor :=
  match fuel with
  | O => None
  | S fuel' =>
      m (fun st' => or_else (if moved st st' then repeated m k fuel' st' else None) (k st'))
        st
  end.

(** The backtracking matcher: [matches r k st] tries [r] at [st] and hands
    every way of matching it, in the order of preference of [re], to the
    continuation [k], until [k] accepts one. *)
Fixpoint matches (r : regex) (k : cursor -> option cursor) (st : cursor)
  : option cursor :=
  match r with
  | Empty => k st
  | Chr c =>
      match rest st with
      | x :: s' => if Ascii.eqb x c then k (advance x s' st) else None
      | [] => None
      end
  | Digit =>
      match rest st with
      | x :: s' => if is_digit x then k (advance x s' st) else None
      | [] => None
      end
  | WordBoundary =>
      if xorb (word_before st) (word_after st) then k st else None
  | EndOfString =>
      match rest st with
      | [] => k st
      | [x] => if Ascii.eqb x "010"%char then k st else None
      | _ => None
      end
  | Seq r1 r2 => matches r1 (matches r2 k) st
  | Alt r1 r2 => or_else (matches r1 k st) (matches r2 k st)
  | Opt r1 => or_else (matches r1 k st) (k st)
  | Plus r1 => repeated (matches r1) k (S (List.length (rest st))) st
  | Group i r1 =>
      matches r1
        (fun st' => k (mkCursor (prev st') (rest st') ((i, consumed st st') :: groups st')))
        st
  end.

(** A match of [r] starting exactly at [st]. *)
Definition match_at (r : regex) (st : cursor) : option cursor :=
  matches r (fun st' => Some st') st.

(** [m.group(i)] *)
Fixpoint group (i : nat) (gs : list (nat * str)) : option str :=
  match gs with
  | [] => None
  | (j, text) :: gs' => if Nat.eqb i j then Some text else group i gs'
  end.

(** [re.search(r, s)]: the leftmost position with a match. *)
Fixpoint search_from (r : regex) (p : option ascii) (s : str) : option cursor :=
  match match_at r (mkCursor p s []) with
  | Some m => Some m
  | None =>
      match s with
      | [] => None
      | c :: s' => search_from r (Some c) s'
      end
  end.

Definition search (r : regex) (s : str) : option cursor := search_from r None s.

(** [re.sub(r, repl, s)] for a replacement without backslashes: every
    match, taken from the left and not overlapping, becomes [repl]. [skip]
    counts the characters of the last match still to be passed over. *)
Fixpoint sub_from (r : regex) (repl : str) (skip : nat) (p : option ascii) (s : str)
  : str :=
  match s with
  | [] =>
      match match_at r (mkCursor p [] []) with
      | Some _ => repl
      | None => []
      end
  | c :: s' =>
      match skip with
      | S skip' => sub_from r repl skip' (Some c) s'
      | O =>
          match match_at r (mkCursor p s []) with
          | Some m =>
              match (List.length s - List.length (rest m))%nat with
              | O => repl ++ c :: sub_from r repl 0 (Some c) s'
              | S n => repl ++ sub_from r repl n (Some c) s'
              end
          | None => c :: sub_from r repl 0 (Some c) s'
          end
      end
  end.

Definition sub (r : regex) (repl s : str) : str := sub_from r repl 0 None s.

End Re.

(** ** [build_query.py] *)

Module BuildQuery.
Import PyStr Re.

Definition quote : ascii := "034"%char.

(** The truth value of a string in a condition. *)
Definition truthy (s : str) : bool :=
  match s with [] => false | _ :: _ => true end.

Definition add_quotes (term : str) : str :=
  if contains (lit "*") term then term else quote :: term ++ [quote].

Definition format_terms (terms : list str) : list str := map add_quotes terms.

(** The truth value of a list argument, which is [None] when absent. *)
Definition present (terms : option (list str)) : bool :=
  match terms with
  | Some (_ :: _) => true
  | _ => false
  end.

Definition elements (terms : option (list str)) : list str :=
  match terms with
  | Some ts => ts
  | None => []
  end.

(** [f"({' OR '.join(format_terms(terms))})" if terms else ""] *)
Definition or_clause (terms : option (list str)) : str :=
  if present terms
  then lit "(" ++ join (lit " OR ") (format_terms (elements terms)) ++ lit ")"
  else [].

Definition build_search_query (where_ what : option (list str)) (when : option (Z * Z))
  : str :=
  let where_clause := or_clause where_ in
  let what_clause := or_clause what in
  let when_clause :=
    match when with
    | Some (start_year, end_year) =>
        lit "PUBYEAR AFT " ++ str_of_int start_year
          ++ lit " AND PUBYEAR BEF " ++ str_of_int end_year
    | None => []
    end in
  let query_clauses := [where_clause; what_clause] in
  let combined_query := join (lit " AND ") (filter truthy query_clauses) in
  strip combined_query ++ lit " " ++ when_clause.

(** [(AFT \d+|BEF \d+|=\d+)], as group [i] *)
Definition year_bound (i : nat) : regex :=
  Group i (Alt (Seq (chars (lit "AFT ")) (Plus Digit))
          (Alt (Seq (chars (lit "BEF ")) (Plus Digit))
               (Seq (chars (lit "=")) (Plus Digit)))).

(** [\bPUBYEAR (AFT \d+|BEF \d+|=\d+)( AND PUBYEAR (AFT \d+|BEF \d+|=\d+))?\b] *)
Definition year_clause_pattern : regex :=
  Seq WordBoundary
 (Seq (chars (lit "PUBYEAR "))
 (Seq (year_bound 1)
 (Seq (Opt (Group 2 (Seq (chars (lit " AND PUBYEAR ")) (year_bound 3))))
      WordBoundary))).

(** [PUBYEAR AFT (\d+) AND PUBYEAR BEF (\d+)] *)
Definition year_range_pattern : regex :=
  Seq (chars (lit "PUBYEAR AFT "))
 (Seq (Group 1 (Plus Digit))
 (Seq (chars (lit " AND PUBYEAR BEF "))
      (Group 2 (Plus Digit)))).

(** [( AND | OR )+$] *)
Definition trailing_operators : regex :=
  Seq (Plus (Group 1 (Alt (chars (lit " AND ")) (chars (lit " OR "))))) EndOfString.

Definition remove_year_clause (query : str) : str :=
  strip (sub year_clause_pattern [] query).

Definition clean_boolean_query (query : str) : str :=
  let query := strip query in
  sub trailing_operators [] query.

Definition extract_term_query (query : str) : str :=
  let term_query := remove_year_clause query in
  clean_boolean_query (lit "TS=(" ++ term_query ++ lit ")").

(** [match.groups()] of a match of a pattern with two groups. *)
Definition groups2 (m : cursor) : str * str :=
  (match group 1 (groups m) with Some t => t | None => [] end,
   match group 2 (groups m) with Some t => t | None => [] end).

Definition extract_year_query_wos (query : str) : option str :=
  match search year_range_pattern query with
  | Some m =>
      let (start_year, end_year) := groups2 m in
      Some (lit "PY=" ++ start_year ++ lit "-" ++ end_year)
  | None => None
  end.

Definition replace_years_with_scopus_format (query : str) : str :=
  match search year_range_pattern query with
  | Some m =>
      let (start_year, end_year) := groups2 m in
      let year_clause :=
        lit "AND PUBYEAR > " ++ start_year ++ lit " AND PUBYEAR < " ++ end_year in
      sub year_range_pattern year_clause query
  | None => query
  end.

(** The year clause of a neutral query and what Scopus gets in its place,
    for bounds given as text. *)
Definition year_clause (start_year end_year : str) : str :=
  lit "PUBYEAR AFT " ++ start_year ++ lit " AND PUBYEAR BEF " ++ end_year.

Definition scopus_clause (start_year end_year : str) : str :=
  lit "AND PUBYEAR > " ++ start_year ++ lit " AND PUBYEAR < " ++ end_year.

(** One or more decimal digits. *)
Definition is_year (s : str) : bool :=
  match s with [] => false | _ :: _ => all_digits s end.




(** A returned string, or the [ValueError] raised with its message. *)
Inductive result :=
| Ok (query : str)
| ValueError (message : str).

Definition unsupported (database : str) : str :=
  lit "La base de datos '" ++ database ++ lit "' no est" ++ ["225"%char]
    ++ lit " soportada. Usa 'google_scholar', 'wos' o 'scopus'.".

Definition convert_query_for_database (combined_query database : str) : result :=
  if eqb (lower database) (lit "google_scholar") then
    let scholar_query :=
      replace (lit " OR ") (lit " ") (replace (lit " AND ") (lit " ") combined_query) in
    let scholar_query := remove_year_clause scholar_query in
    Ok (strip scholar_query)
  else if eqb (lower database) (lit "wos") then
    let term_query := extract_term_query combined_query in
    let year_query := extract_year_query_wos combined_query in
    let term_query := if truthy term_query then clean_boolean_query term_query else [] in
    let year_query :=
      match year_query with
      | Some y => if truthy y then clean_boolean_query y else []
      | None => []
      end in
    let wos_query :=
      if truthy term_query && truthy year_query
      then term_query ++ lit " AND " ++ year_query
      else if truthy term_query then term_query
      else if truthy year_query then year_query
      else [] in
    Ok (clean_boolean_query wos_query)
  else if eqb (lower database) (lit "scopus") then
    let scopus_query := combined_query in
    Ok (replace_years_with_scopus_format scopus_query)
  else ValueError (unsupported database).

End BuildQuery.

(** ** The rows [query_wos] builds *)

Module WosRecord.
Import QueryWos.

Local Open Scope string_scope.

(** One row of the frame: the dictionary appended to [records]. [Title],
    [Year], [Source] and [DOI] hold whatever value the payload has there. *)
Record row := mkRow {
  Title : json;
  Authors : string;
  Year : json;
  Source : json;
  DOI : json;
  Abstract : string
}.

Definition NA : json := JStr "N/A".

Definition bind {A B : Type} (x : option A) (f : A -> option B) : option B :=
  match x with
  | Some a => f a
  | None => None
  end.

(** [for item in v]: a list gives its items, a dictionary its keys, a string
    its characters; anything else is not iterable ([TypeError]). *)
Definition iterate (v : json) : option (list json) :=
  match v with
  | JList items => Some items
  | JDict members => Some (map (fun m => JStr (fst m)) members)
  | JStr s => Some (map (fun c => JStr (String c EmptyString)) (list_ascii_of_string s))
  | _ => None
  end.

(** [v == s] for a string literal [s]. *)
Definition is_str (v : json) (s : string) : bool :=
  match v with
  | JStr t => String.eqb t s
  | _ => false
  end.

(** [item.get('type') == wanted] *)
Definition type_is (wanted : string) (item : list (string * json)) : option bool :=
  Some (is_str (dict_get item "type" JNull) wanted).

(** [item.get('type', '').lower() == 'doi']; only a string has [lower]. *)
Definition type_is_doi (item : list (string * json)) : option bool :=
  match dict_get item "type" (JStr "") with
  | JStr t => Some (PyStr.eqb (PyStr.lower (list_ascii_of_string t)) (PyStr.lit "doi"))
  | _ => None
  end.

(** [next((item.get(key) for item in items if cond(item)), default)]: the
    items are looked at one by one until one passes the test; an item that is
    reached and is not a dictionary raises. *)
Fixpoint next_match (cond : list (string * json) -> option bool) (key : string)
         (items : list json) (default : json) : option json :=
  match items with
  | [] => Some default
  | JDict item :: items' =>
      match cond item with
      | None => None
      | Some true => Some (dict_get item key JNull)
      | Some false => next_match cond key items' default
      end
  | _ :: _ => None
  end.

(** [[item.get(key, default) for item in items if isinstance(item, dict)]],
    as the strings [join] needs: a value that is not a string makes [join]
    raise [TypeError]. *)
Fixpoint collect (key default : string) (items : list json) : option (list string) :=
  match items with
  | [] => Some []
  | JDict item :: items' =>
      match dict_get item key (JStr default) with
      | JStr s => bind (collect key default items') (fun rest => Some (s :: rest))
      | _ => None
      end
  | _ :: items' => collect key default items'
  end.

(** The body of [for record in records_data]; [None] when it raises. *)
Definition extract_record (record : json) : option row :=
  bind (get record "static_data" (JDict [])) (fun static =>
  bind (get static "summary" (JDict [])) (fun static_data =>
  bind (get static_data "titles" (JDict [])) (fun titles =>
  bind (get titles "title" (JList [])) (fun titles_list =>
  bind (iterate titles_list) (fun title_items =>
  bind (next_match (type_is "item") "content" title_items NA) (fun title =>
  bind (get static_data "names" (JDict [])) (fun names =>
  bind (get names "name" (JList [])) (fun authors_list =>
  bind (iterate authors_list) (fun author_items =>
  bind (collect "full_name" "N/A" author_items) (fun author_names =>
  bind (get static_data "pub_info" (JDict [])) (fun pub_info =>
  bind (get pub_info "pubyear" NA) (fun pub_year =>
  bind (next_match (type_is "source") "content" title_items NA) (fun source_title =>
  bind (get static_data "identifiers" (JDict [])) (fun ids =>
  bind (get ids "identifier" (JList [])) (fun identifiers =>
  bind (iterate identifiers) (fun identifier_items =>
  bind (next_match type_is_doi "value" identifier_items NA) (fun doi =>
  bind (get static "fullrecord_metadata" (JDict [])) (fun metadata =>
  bind (get metadata "abstracts" (JDict [])) (fun abstracts =>
  bind (get abstracts "abstract" (JList [])) (fun abstract =>
  bind (iterate abstract) (fun abstract_items =>
  bind (collect "content" "" abstract_items) (fun contents =>
  Some (mkRow title (String.concat "; " author_names) pub_year source_title doi
          (String.concat " " contents)))))))))))))))))))))))).

(** A response body with the given entry under [Data.Records.records.REC]. *)
Definition body_with (rec : json) : json :=
  JDict [("Data", JDict [("Records", JDict [("records", JDict [("REC", rec)])])])].

End WosRecord.

(** ** [execute_query] *)

Module ExecuteQuery.
Import Paginated.

Section Attempts.

Variable record : Type.
Variable World : Type.
Context {P : Platform}.

(** [query_wos(api, query, count=100, first_record=1, retries=3, delay=1.0)] *)
Variable query_wos : World -> Z -> Z -> fetched record * World.

Variable retries : Z.
Variable delay : float.

(** [for attempt in range(retries)]: [remaining] iterations are left. *)
Fixpoint attempt_loop (remaining : nat) (attempt : Z) (w : World) (log : list float)
  : outcome record World :=
  match remaining with
  | O => Return None w log
  | S remaining' =>
      match query_wos w 100 1 with
      | (Returns result, w') => Return result w' log
      | (Raises, w') =>
          if attempt <? retries - 1 then
            match time_sleep delay log with
            | Some log' => attempt_loop remaining' (attempt + 1) w' log'
            | None => Exception w' log
            end
          else attempt_loop remaining' (attempt + 1) w' log
      end
  end.

Definition execute_query (w : World) : outcome record World :=
  attempt_loop (Z.to_nat retries) 0 w [].

End Attempts.

Arguments attempt_loop {record World P}.
Arguments execute_query {record World P}.

End ExecuteQuery.

(** ** [check_parentheses_balance] *)

Module Balance.
Import PyStr.

(** The loop over the characters, with the stack of open parentheses; the
    top of the stack is the head of the list. *)
Fixpoint scan (stack : list ascii) (query : str) : bool :=
  match query with
  | [] => match stack with [] => true | _ :: _ => false end
  | char :: query' =>
      if Ascii.eqb char "(" then scan (char :: stack) query'
      else if Ascii.eqb char ")" then
        match stack with
        | [] => false
        | _ :: stack' => scan stack' query'
        end
      else scan stack query'
  end.

Definition check_parentheses_balance (query : str) : bool := scan [] query.

(** The numbers of opening and of closing parentheses of a string. *)
Definition opens (s : str) : nat := count_occ ascii_dec s "("%char.

Definition closes (s : str) : nat := count_occ ascii_dec s ")"%char.

(** A string without parentheses. *)
Definition no_parentheses (s : str) : bool :=
  forallb (fun c => negb (Ascii.eqb c "(") && negb (Ascii.eqb c ")")) s.

End Balance.

(** ** Built queries *)

Module BuiltQuery.
Import PyStr BuildQuery.

(** The clauses of [build_search_query], joined: its [combined_query]. *)
Definition combined_clause (where_ what : option (list str)) : str :=
  join (lit " AND ") (filter truthy [or_clause where_; or_clause what]).

(** No term of the list holds the text [w]. *)
Definition free_of (w : str) (terms : option (list str)) : bool :=
  forallb (fun t => negb (contains w t)) (elements terms).

(** No term of the list holds a parenthesis. *)
Definition no_parentheses_in (terms : option (list str)) : bool :=
  forallb Balance.no_parentheses (elements terms).

End BuiltQuery.

(** ** What a run of [execute_query_paginated] leaves behind *)

Module PaginatedTrace.
Import Paginated.

Section Trace.

Variable record : Type.
Variable World : Type.

(** The frames the loop appends to [all_dfs]: those that are neither
    [None] nor empty. *)
Definition frames (script : list (fetched record)) : list (DataFrame record) :=
  flat_map (fun f => match f with
                     | Returns (Some ((_ :: _) as df)) => [df]
                     | _ => []
                     end) script.

(** Requests that start at [fr] and of which each one asks again for the
    page of the one before or for the page after it. *)
Fixpoint paced (fr : Z) (requests : list Z) : bool :=
  match requests with
  | [] => true
  | r :: rest => (r =? fr) && (paced r rest || paced (r + page_size) rest)
  end.

Definition flow_state (f : flow record World) : locals record World :=
  match f with Continue s | Break s | Propagate s => s end.

Definition exit_state (e : exit record World) : locals record World :=
  match e with Finished s | Raised s => s end.

Definition world_of (o : outcome record World) : World :=
  match o with Return _ w _ | Exception w _ => w end.

End Trace.

Arguments frames {record}.
Arguments flow_state {record World}.
Arguments exit_state {record World}.
Arguments world_of {record World}.

End PaginatedTrace.

(** ** [execute_query_paginated] over [query_wos] *)

Module Pipeline.
Import QueryWos.

(** The answers of the service to requests that each get a body. *)
Definition page_answers (datas : list json) : list http :=
  map (fun d => Response 200 (Some d)) datas.

End Pipeline.

(** * Properties *)

(** ** Sleeping *)

Lemma time_sleep_accepted {P : Platform} (secs : float) (log : list float) :
  sleepable secs = true -> time_sleep secs log = Some (log ++ [secs]).
Proof. intros H. unfold time_sleep. rewrite H. reflexivity. Qed.

Lemma time_sleep_refused {P : Platform} (secs : float) (log : list float) :
  sleepable secs = false -> time_sleep secs log = None.
Proof. intros H. unfold time_sleep. rewrite H. reflexivity. Qed.

Lemma delay_accepted {P : Platform} (delay : float) (retries : Z) :
  Paginated.sleeps_accepted delay retries = true -> sleepable delay = true.
Proof.
  unfold Paginated.sleeps_accepted. intros H. apply andb_prop in H. apply H.
Qed.

Lemma backoff_accepted {P : Platform} (delay : float) (retries a : Z) :
  Paginated.sleeps_accepted delay retries = true -> 1 <= a < retries ->
  exists t, Paginated.sleep_time delay a = Some t /\ sleepable t = true.
Proof.
  unfold Paginated.sleeps_accepted. intros H Ha.
  apply andb_prop in H. destruct H as [_ H]. rewrite forallb_forall in H.
  assert (Hin : In a (map Z.of_nat (seq 1 (Z.to_nat retries - 1)))).
  { apply in_map_iff. exists (Z.to_nat a). split; [lia|]. apply in_seq. lia. }
  specialize (H a Hin). unfold Paginated.backoff_ok in H.
  destruct (Paginated.sleep_time delay a) as [t|]; [eauto|discriminate].
Qed.

(** ** The pagination loop *)

Module PaginatedFacts.
Import Paginated.

Section Termination.

Context {P : Platform} {record World : Type}.
Variable query_wos : World -> Z -> Z -> fetched record * World.
Variables (delay : float) (max_records retries : Z).

Lemma handler_continue (s s' : locals record World) :
  handler delay retries s = Continue s' ->
  first_record s' = first_record s /\
  attempts s' = attempts s + 1 /\
  all_dfs s' = all_dfs s /\
  attempts s + 1 < retries.
Proof.
  unfold handler. cbn.
  destruct (attempts s + 1 >=? retries) eqn:E; [discriminate|].
  destruct (sleep_time _ _); [|discriminate].
  destruct (time_sleep _ _); [|discriminate].
  intros H. injection H as <-. cbn. repeat split. lia.
Qed.

Lemma measure_handler (s s' : locals record World) :
  handler delay retries s = Continue s' ->
  measure max_records retries s' < measure max_records retries s.
Proof.
  intros H. apply handler_continue in H. destruct H as (Hf & Ha & _ & Hr).
  unfold measure, iterations_left. rewrite Hf, Ha. lia.
Qed.

Lemma body_decreases (s s' : locals record World) :
  first_record s <= max_records ->
  body query_wos delay retries s = Continue s' ->
  measure max_records retries s' < measure max_records retries s.
Proof.
  intros Hfr. unfold body.
  destruct (query_wos _ _ _) as [[|[df|]] w]; [| |discriminate].
  - intros H. apply measure_handler in H. exact H.
  - destruct df as [|r df]; [discriminate|].
    destruct (_ <? _); [discriminate|].
    assert (Hpages : (max_records - (first_record s + page_size)) / page_size + 1
                     = (max_records - first_record s) / page_size).
    { unfold page_size.
      replace (max_records - (first_record s + 100))
        with ((max_records - first_record s) + (-1) * 100) by lia.
      rewrite Z.div_add by lia. lia. }
    assert (Hnn : 0 <= (max_records - first_record s) / page_size).
    { apply Z.div_pos; unfold page_size; lia. }
    destruct (time_sleep delay _).
    + intros H. injection H as <-. unfold measure, iterations_left. cbn.
      rewrite Hpages. nia.
    + intros H. apply handler_continue in H.
      destruct H as (Hf & Ha & _ & Hr). cbn in Hf, Ha, Hr.
      unfold measure, iterations_left. rewrite Hf, Ha, Hpages. nia.
Qed.

Lemma while_loop_terminates n : forall s : locals record World,
  measure max_records retries s < Z.of_nat n ->
  while_loop query_wos delay max_records retries n s <> None.
Proof.
  induction n as [|n IH]; intros s Hm.
  - unfold measure, iterations_left in Hm. nia.
  - cbn. destruct (first_record s <=? max_records) eqn:E; [|discriminate].
    destruct (body _ _ _ s) eqn:B; try discriminate.
    apply IH. apply Z.leb_le in E.
    pose proof (body_decreases _ _ E B). lia.
Qed.

Lemma while_loop_more_fuel n : forall m (s : locals record World) r,
  (n <= m)%nat ->
  while_loop query_wos delay max_records retries n s = Some r ->
  while_loop query_wos delay max_records retries m s = Some r.
Proof.
  induction n as [|n IH]; intros m s r Hle; [discriminate|].
  destruct m as [|m]; [lia|]. cbn.
  destruct (_ <=? _); [|auto].
  destruct (body _ _ _ s); auto.
  apply IH. lia.
Qed.

Lemma enough_fuel_enough w n r :
  while_loop query_wos delay max_records retries n (initial w) = Some r ->
  while_loop query_wos delay max_records retries
    (enough_fuel max_records retries) (initial w) = Some r.
Proof.
  intros H.
  set (e := enough_fuel max_records retries).
  destruct (while_loop query_wos delay max_records retries e (initial w)) as [r'|] eqn:E.
  - pose proof (while_loop_more_fuel _ (Nat.max n e) _ _ (Nat.le_max_l _ _) H) as H1.
    pose proof (while_loop_more_fuel _ (Nat.max n e) _ _ (Nat.le_max_r _ _) E) as H2.
    congruence.
  - exfalso. revert E. apply while_loop_terminates.
    subst e. unfold enough_fuel, measure. cbn.
    assert (0 <= iterations_left max_records retries 1 0)
      by (unfold iterations_left; nia).
    lia.
Qed.

(** The function always comes back: the fuel it is given is never used up. *)
Lemma execute_query_paginated_total w :
  exists o, execute_query_paginated query_wos delay max_records retries w = Some o.
Proof.
  unfold execute_query_paginated.
  destruct (while_loop _ _ _ _ _ _) as [[s|s]|] eqn:E; eauto.
  exfalso. revert E. apply while_loop_terminates.
  unfold enough_fuel, measure. cbn.
  assert (0 <= iterations_left max_records retries 1 0)
    by (unfold iterations_left; nia).
  lia.
Qed.

End Termination.

Section Mocked.

Context {P : Platform} {record : Type}.
Variables (delay : float) (max_records retries : Z).

(** [time.sleep(delay)] returns. *)
Hypothesis delay_sleepable : sleepable delay = true.

Lemma starts_from_1 n : starts_from 1 n = page_starts n.
Proof. reflexivity. Qed.

Lemma starts_from_cons fr n :
  starts_from fr (S n) = fr :: starts_from (fr + page_size) n.
Proof.
  unfold starts_from. cbn [seq map]. f_equal.
  - lia.
  - rewrite <- seq_shift, map_map. apply map_ext. intros i. lia.
Qed.

Lemma starts_from_snoc fr n :
  starts_from fr (S n) = starts_from fr n ++ [fr + page_size * Z.of_nat n].
Proof. unfold starts_from. rewrite seq_S, map_app. reflexivity. Qed.

(** [n] full pages in a row are all appended, each followed by one sleep of
    [delay], and the loop is then at [first_record + n * page_size]. *)
Lemma full_pages_run (fulls : list (DataFrame record)) :
  forall dfs fr a rest reqs log fuel,
    Forall full fulls ->
    fulls = [] \/ fr + page_size * (Z.of_nat (List.length fulls) - 1) <= max_records ->
    while_loop mock_query_wos delay max_records retries (List.length fulls + fuel)
      (mkLocals dfs fr a (pages fulls ++ rest, reqs) log)
    = while_loop mock_query_wos delay max_records retries fuel
        (mkLocals (dfs ++ fulls) (fr + page_size * Z.of_nat (List.length fulls))
           (match fulls with [] => a | _ :: _ => 0 end)
           (rest, reqs ++ starts_from fr (List.length fulls))
           (log ++ repeat delay (List.length fulls))).
Proof.
  induction fulls as [|df fulls IH]; intros dfs fr a rest reqs log fuel Hfull Hmax.
  - cbn. rewrite !app_nil_r. do 3 f_equal. unfold page_size. lia.
  - inversion Hfull as [|? ? Hdf Hfulls]; subst.
    destruct Hmax as [Hmax|Hmax]; [discriminate|].
    cbn [List.length] in Hmax.
    assert (Hfr : fr <= max_records) by (unfold page_size in *; lia).
    cbn [List.length Nat.add while_loop first_record].
    apply Z.leb_le in Hfr. rewrite Hfr.
    unfold body. cbn [world first_record mock_query_wos fst snd pages map app].
    unfold full in Hdf.
    destruct df as [|r df]; [cbn in Hdf; unfold page_size in Hdf; lia|].
    assert (Hlt : (Z.of_nat (List.length (r :: df)) <? page_size) = false)
      by (apply Z.ltb_ge; exact Hdf).
    rewrite Hlt. cbn [slept all_dfs attempts].
    rewrite (time_sleep_accepted _ _ delay_sleepable).
    fold (pages fulls). rewrite IH.
    + f_equal. rewrite starts_from_cons.
      rewrite <- !app_assoc. cbn [app repeat].
      f_equal.
      * unfold page_size. lia.
      * destruct fulls; reflexivity.
    + exact Hfulls.
    + destruct fulls as [|df' fulls']; [left; reflexivity|right].
      cbn [List.length] in *. unfold page_size in *. lia.
Qed.

(** C1, for a delay that [time.sleep] takes. With a scripted [query_wos]
    that never raises, the loop asks for
    pages at 1, 101, 201, ... (each full page moves [first_record] on by
    the page size), appends the pages in the order fetched, and stops
    exactly (c) when [first_record] has passed [max_records], (a) at a
    [None] or empty page, or (b) after a page shorter than the page size.
    Pages of 100, 100 and 37 rows give the 237 rows in fetch order after
    three requests, whatever the script holds after the short page. *)
Theorem C1_pagination_order_and_stop :
  forall (fulls : list (DataFrame record)) (rest : list (fetched record)),
    Forall full fulls ->
    fulls = [] \/ 1 + page_size * (Z.of_nat (List.length fulls) - 1) <= max_records ->
    let n := List.length fulls in
    let run := execute_query_paginated mock_query_wos delay max_records retries
                 (pages fulls ++ rest, []) in
    (max_records < 1 + page_size * Z.of_nat n ->
       run = Some (Return (concat_or_none fulls) (rest, page_starts n) (repeat delay n)))
    /\ (1 + page_size * Z.of_nat n <= max_records ->
        (rest = [] \/ exists more,
            rest = Returns None :: more \/ rest = Returns (Some []) :: more) ->
        run = Some (Return (concat_or_none fulls) (tl rest, page_starts (S n))
                      (repeat delay n)))
    /\ (1 + page_size * Z.of_nat n <= max_records ->
        forall (short : DataFrame record) more,
          short <> [] -> Z.of_nat (List.length short) < page_size ->
          rest = Returns (Some short) :: more ->
          run = Some (Return (Some (List.concat fulls ++ short)) (more, page_starts (S n))
                        (repeat delay n)))
    /\ (forall (p1 p2 p3 : DataFrame record) more,
          List.length p1 = 100%nat -> List.length p2 = 100%nat ->
          List.length p3 = 37%nat -> 201 <= max_records ->
          execute_query_paginated mock_query_wos delay max_records retries
            (pages [p1; p2; p3] ++ more, [])
          = Some (Return (Some (p1 ++ p2 ++ p3)) (more, [1; 101; 201]) [delay; delay])
          /\ List.length (p1 ++ p2 ++ p3) = 237%nat).
Proof.
  assert (Hgen : forall (fulls : list (DataFrame record)) rest,
    Forall full fulls ->
    fulls = [] \/ 1 + page_size * (Z.of_nat (List.length fulls) - 1) <= max_records ->
    forall fuel,
      while_loop mock_query_wos delay max_records retries (List.length fulls + fuel)
        (initial (pages fulls ++ rest, []))
      = while_loop mock_query_wos delay max_records retries fuel
          (mkLocals fulls (1 + page_size * Z.of_nat (List.length fulls))
             0 (rest, page_starts (List.length fulls))
             (repeat delay (List.length fulls)))).
  { intros fulls rest Hf Hm fuel. unfold initial.
    rewrite full_pages_run by assumption. cbn [app].
    destruct fulls; reflexivity. }
  assert (Ha : forall (fulls : list (DataFrame record)) rest,
    Forall full fulls ->
    fulls = [] \/ 1 + page_size * (Z.of_nat (List.length fulls) - 1) <= max_records ->
    max_records < 1 + page_size * Z.of_nat (List.length fulls) ->
    execute_query_paginated mock_query_wos delay max_records retries
      (pages fulls ++ rest, [])
    = Some (Return (concat_or_none fulls) (rest, page_starts (List.length fulls))
              (repeat delay (List.length fulls)))).
  { intros fulls rest Hf Hm Hc. unfold execute_query_paginated.
    rewrite (enough_fuel_enough _ _ _ _ _ (List.length fulls + 1)
               (Finished (mkLocals fulls (1 + page_size * Z.of_nat (List.length fulls))
                  0 (rest, page_starts (List.length fulls))
                  (repeat delay (List.length fulls))))).
    - unfold conclude, concat_or_none. cbn. destruct fulls; reflexivity.
    - rewrite Hgen by assumption. cbn [while_loop first_record].
      apply Z.leb_gt in Hc. rewrite Hc. reflexivity. }
  assert (Hb : forall (fulls : list (DataFrame record)) rest,
    Forall full fulls ->
    fulls = [] \/ 1 + page_size * (Z.of_nat (List.length fulls) - 1) <= max_records ->
    1 + page_size * Z.of_nat (List.length fulls) <= max_records ->
    forall f more dfs',
      rest = [] /\ f = Returns None /\ more = [] \/ rest = f :: more ->
      body mock_query_wos delay retries
        (mkLocals fulls (1 + page_size * Z.of_nat (List.length fulls))
           0 (f :: more, page_starts (List.length fulls))
           (repeat delay (List.length fulls)))
      = Break (mkLocals dfs' (1 + page_size * Z.of_nat (List.length fulls)) 0
                 (more, page_starts (S (List.length fulls)))
                 (repeat delay (List.length fulls))) ->
      execute_query_paginated mock_query_wos delay max_records retries
        (pages fulls ++ rest, [])
      = Some (Return (concat_or_none dfs') (more, page_starts (S (List.length fulls)))
                (repeat delay (List.length fulls)))).
  { intros fulls rest Hf Hm Hle f more dfs' Hrest Hbody.
    unfold execute_query_paginated.
    rewrite (enough_fuel_enough _ _ _ _ _ (List.length fulls + 1)
               (Finished (mkLocals dfs' (1 + page_size * Z.of_nat (List.length fulls)) 0
                 (more, page_starts (S (List.length fulls)))
                 (repeat delay (List.length fulls))))).
    - unfold conclude, concat_or_none. cbn. destruct dfs'; reflexivity.
    - rewrite Hgen by assumption. cbn [while_loop first_record].
      apply Z.leb_le in Hle. rewrite Hle.
      destruct Hrest as [(Hr & Hf' & Hmo) | Hr]; subst.
      + change (body mock_query_wos delay retries
                  (mkLocals fulls (1 + page_size * Z.of_nat (List.length fulls)) 0
                     ([], page_starts (List.length fulls))
                     (repeat delay (List.length fulls))))
          with (body mock_query_wos delay retries
                  (mkLocals fulls (1 + page_size * Z.of_nat (List.length fulls)) 0
                     ([Returns None], page_starts (List.length fulls))
                     (repeat delay (List.length fulls)))).
        rewrite Hbody. reflexivity.
      + rewrite Hbody. reflexivity. }
  intros fulls rest Hf Hm n run. subst n run.
  split; [|split; [|split]].
  - intros Hc. apply Ha; assumption.
  - intros Hle Hrest.
    destruct Hrest as [->|[more [->| ->]]]; cbn [tl].
    + apply (Hb fulls [] Hf Hm Hle (Returns None) [] fulls).
      * left. auto.
      * unfold body. cbn [world first_record mock_query_wos fst snd all_dfs attempts slept].
        unfold page_starts. rewrite starts_from_snoc. reflexivity.
    + apply (Hb fulls _ Hf Hm Hle (Returns None) more fulls).
      * right. reflexivity.
      * unfold body. cbn [world first_record mock_query_wos fst snd all_dfs attempts slept].
        unfold page_starts. rewrite starts_from_snoc. reflexivity.
    + apply (Hb fulls _ Hf Hm Hle (Returns (Some [])) more fulls).
      * right. reflexivity.
      * unfold body. cbn [world first_record mock_query_wos fst snd all_dfs attempts slept].
        unfold page_starts. rewrite starts_from_snoc. reflexivity.
  - intros Hle short more Hne Hshort ->.
    rewrite (Hb fulls _ Hf Hm Hle (Returns (Some short)) more (fulls ++ [short])).
    + unfold concat_or_none. rewrite concat_app. cbn. rewrite app_nil_r.
      destruct fulls; [destruct short; [congruence|reflexivity]|reflexivity].
    + right. reflexivity.
    + unfold body. cbn [world first_record mock_query_wos fst snd].
      destruct short as [|r short]; [congruence|].
      apply Z.ltb_lt in Hshort. rewrite Hshort.
      cbn [world first_record mock_query_wos fst snd all_dfs attempts slept].
      unfold page_starts. rewrite starts_from_snoc. reflexivity.
  - intros p1 p2 p3 more H1 H2 H3 Hmax. split.
    + assert (Hf2 : Forall full [p1; p2]).
      { repeat constructor; unfold full, page_size; lia. }
      assert (Hm2 : [p1; p2] = [] \/
                    1 + page_size * (Z.of_nat (List.length [p1; p2]) - 1) <= max_records).
      { right. cbn. unfold page_size. lia. }
      assert (Hle2 : 1 + page_size * Z.of_nat (List.length [p1; p2]) <= max_records).
      { cbn. unfold page_size. lia. }
      change (pages [p1; p2; p3] ++ more)
        with (pages [p1; p2] ++ Returns (Some p3) :: more).
      rewrite (Hb [p1; p2] _ Hf2 Hm2 Hle2 (Returns (Some p3)) more [p1; p2; p3]).
      * cbn. rewrite app_nil_r. reflexivity.
      * right. reflexivity.
      * unfold body. cbn [world first_record mock_query_wos fst snd].
        destruct p3 as [|r p3]; [discriminate|].
        assert (Hs : (Z.of_nat (List.length (r :: p3)) <? page_size) = true)
          by (apply Z.ltb_lt; unfold page_size; lia).
        rewrite Hs. reflexivity.
    + rewrite !length_app. lia.
Qed.

End Mocked.

Section Backoff.

Context {P : Platform} {record : Type}.
Variables (delay : float) (max_records retries : Z).

(** Every sleep the function can ask for returns. *)
Hypothesis accepted : sleeps_accepted delay retries = true.

Lemma delay_sleepable : sleepable delay = true.
Proof. exact (delay_accepted _ _ accepted). Qed.

Lemma backoffs_S a k t :
  sleep_time delay (a + 1) = Some t ->
  backoffs delay a (S k) = t :: backoffs delay (a + 1) k.
Proof.
  intros Ht. unfold backoffs. cbn [seq flat_map].
  replace (a + Z.of_nat 1) with (a + 1) by lia. rewrite Ht. cbn [app]. f_equal.
  rewrite <- seq_shift, flat_map_concat_map, map_map, <- flat_map_concat_map.
  apply flat_map_ext. intros j.
  replace (a + Z.of_nat (S j)) with (a + 1 + Z.of_nat j) by lia. reflexivity.
Qed.

(** [k] failures in a row, below the ceiling: the same page is asked for
    again each time, the counter goes up by one and the sleeps double. *)
Lemma raises_run (k : nat) :
  forall (dfs : list (DataFrame record)) fr a rest reqs log fuel,
    fr <= max_records -> 0 <= a ->
    k = 0%nat \/ a + Z.of_nat k < retries ->
    while_loop mock_query_wos delay max_records retries (k + fuel)
      (mkLocals dfs fr a (repeat Raises k ++ rest, reqs) log)
    = while_loop mock_query_wos delay max_records retries fuel
        (mkLocals dfs fr (a + Z.of_nat k) (rest, reqs ++ repeat fr k)
           (log ++ backoffs delay a k)).
Proof.
  induction k as [|k IH]; intros dfs fr a rest reqs log fuel Hfr Ha Hk.
  - cbn. rewrite !app_nil_r. do 3 f_equal. lia.
  - destruct Hk as [Hk|Hk]; [discriminate|].
    cbn [Nat.add while_loop first_record repeat app].
    pose proof Hfr as Hfr'. apply Z.leb_le in Hfr'. rewrite Hfr'.
    unfold body. cbn [world first_record mock_query_wos fst snd].
    unfold handler. cbn [attempts all_dfs first_record world slept].
    assert (Hge : (a + 1 >=? retries) = false) by lia.
    rewrite Hge.
    destruct (backoff_accepted delay retries (a + 1) accepted) as (t & Ht & Hst); [lia|].
    rewrite Ht, (time_sleep_accepted _ _ Hst).
    rewrite IH by first [assumption | lia | right; lia].
    rewrite (backoffs_S _ _ _ Ht), <- !app_assoc. cbn [app].
    f_equal. f_equal. lia.
Qed.

Lemma block_run (k : nat) (df : DataFrame record) :
  forall dfs fr rest reqs log fuel,
    fr <= max_records -> survivable retries k -> full df ->
    while_loop mock_query_wos delay max_records retries (S k + fuel)
      (mkLocals dfs fr 0 (block_script (k, df) ++ rest, reqs) log)
    = while_loop mock_query_wos delay max_records retries fuel
        (mkLocals (dfs ++ [df]) (fr + page_size) 0 (rest, reqs ++ repeat fr (S k))
           (log ++ backoffs delay 0 k ++ [delay])).
Proof.
  intros dfs fr rest reqs log fuel Hfr Hk Hdf.
  unfold block_script. cbn [fst snd]. rewrite <- app_assoc.
  replace (S k + fuel)%nat with (k + S fuel)%nat by lia.
  rewrite raises_run by first [assumption | lia | destruct Hk; [left|right]; lia].
  cbn [while_loop first_record app].
  pose proof Hfr as Hfr'. apply Z.leb_le in Hfr'. rewrite Hfr'.
  unfold body. cbn [world first_record mock_query_wos fst snd].
  unfold full in Hdf.
  destruct df as [|r df]; [cbn in Hdf; unfold page_size in Hdf; lia|].
  assert (Hlt : (Z.of_nat (List.length (r :: df)) <? page_size) = false)
    by (apply Z.ltb_ge; exact Hdf).
  rewrite Hlt. cbn [slept all_dfs attempts].
  rewrite (time_sleep_accepted _ _ delay_sleepable).
  replace (repeat fr (S k)) with (repeat fr k ++ [fr])
    by (rewrite <- repeat_cons; reflexivity).
  rewrite !app_assoc. reflexivity.
Qed.

Lemma blocks_run (bs : list (block record)) :
  forall dfs fr rest reqs log fuel,
    Forall (fun b => survivable retries (fst b) /\ full (snd b)) bs ->
    bs = [] \/ fr + page_size * (Z.of_nat (List.length bs) - 1) <= max_records ->
    exists n,
      while_loop mock_query_wos delay max_records retries (n + fuel)
        (mkLocals dfs fr 0 (blocks_script bs ++ rest, reqs) log)
      = while_loop mock_query_wos delay max_records retries fuel
          (mkLocals (dfs ++ map snd bs) (fr + page_size * Z.of_nat (List.length bs)) 0
             (rest, reqs ++ blocks_requests fr bs)
             (log ++ blocks_sleeps delay bs)).
Proof.
  induction bs as [|[k df] bs IH]; intros dfs fr rest reqs log fuel Hbs Hmax.
  - exists 0%nat. cbn. rewrite !app_nil_r. do 3 f_equal. lia.
  - inversion Hbs as [|? ? [Hk Hdf] Hbs']; subst. cbn [fst snd] in Hk, Hdf.
    destruct Hmax as [Hmax|Hmax]; [discriminate|].
    cbn [List.length] in Hmax.
    assert (Hfr : fr <= max_records) by (unfold page_size in *; lia).
    destruct (IH (dfs ++ [df]) (fr + page_size) rest (reqs ++ repeat fr (S k))
                (log ++ backoffs delay 0 k ++ [delay]) fuel Hbs') as [n Hn].
    { destruct bs; [left; reflexivity|right].
      cbn [List.length] in *. unfold page_size in *. lia. }
    exists (S k + n)%nat.
    cbn [blocks_script flat_map]. rewrite <- app_assoc.
    rewrite <- Nat.add_assoc.
    rewrite (block_run k df) by assumption.
    fold (blocks_script bs). rewrite Hn.
    cbn [map snd fst blocks_requests blocks_sleeps flat_map List.length].
    rewrite <- !app_assoc. cbn [app].
    do 2 f_equal. unfold page_size. lia.
Qed.

(** When every sleep returns nothing leaves the handler, as long as the
    failure counter is not negative. *)
Lemma handler_catches {World : Type} (s : locals record World) :
  0 <= attempts s -> forall s', handler delay retries s <> Propagate s'.
Proof.
  intros Ha s'. unfold handler.
  destruct (_ >=? _) eqn:E; [discriminate|].
  destruct (backoff_accepted delay retries (attempts s + 1) accepted) as (t & Ht & Hst);
    [lia|].
  rewrite Ht, (time_sleep_accepted _ _ Hst). discriminate.
Qed.

Lemma body_catches {World : Type} (query_wos : World -> Z -> Z -> fetched record * World)
      (s : locals record World) :
  0 <= attempts s -> forall s', body query_wos delay retries s <> Propagate s'.
Proof.
  intros Ha s'. unfold body.
  destruct (query_wos _ _ _) as [[|[[|r df]|]] w]; try discriminate.
  - apply handler_catches. exact Ha.
  - destruct (_ <? _); [discriminate|].
    rewrite (time_sleep_accepted _ _ delay_sleepable). discriminate.
Qed.

(** The failure counter is never negative. *)
Lemma body_counts {World : Type} (query_wos : World -> Z -> Z -> fetched record * World)
      (s s' : locals record World) :
  0 <= attempts s -> body query_wos delay retries s = Continue s' -> 0 <= attempts s'.
Proof.
  intros Ha. unfold body.
  destruct (query_wos _ _ _) as [[|[[|r df]|]] w]; try discriminate.
  - intros H. apply handler_continue in H. cbn [attempts] in H. lia.
  - destruct (_ <? _); [discriminate|].
    rewrite (time_sleep_accepted _ _ delay_sleepable).
    intros H. injection H as <-. cbn [attempts]. lia.
Qed.

Lemma while_loop_finishes {World : Type}
      (query_wos : World -> Z -> Z -> fetched record * World) (n : nat) :
  forall s r, 0 <= attempts s ->
              while_loop query_wos delay max_records retries n s = Some r ->
              exists s', r = Finished s'.
Proof.
  induction n as [|n IH]; intros s r Ha; [discriminate|]. cbn.
  destruct (_ <=? _).
  - destruct (body query_wos delay retries s) eqn:B.
    + apply IH. exact (body_counts _ _ _ Ha B).
    + intros H. injection H as <-. eauto.
    + exfalso. exact (body_catches _ _ Ha _ B).
  - intros H. injection H as <-. eauto.
Qed.

(** The failure that reaches the ceiling: [max 1 retries] raising fetches in
    a row, the counter starting at zero. *)
Lemma ceiling_run :
  forall (dfs : list (DataFrame record)) fr rest reqs log fuel,
    fr <= max_records ->
    let m := Z.to_nat (Z.max 1 retries) in
    while_loop mock_query_wos delay max_records retries (m + fuel)
      (mkLocals dfs fr 0 (repeat Raises m ++ rest, reqs) log)
    = Some (Finished (mkLocals dfs fr (Z.of_nat m) (rest, reqs ++ repeat fr m)
                        (log ++ backoffs delay 0 (m - 1)))).
Proof.
  intros dfs fr rest reqs log fuel Hfr m.
  assert (Hm : exists k, m = S k /\ (k = 0%nat \/ Z.of_nat k < retries)
                         /\ retries <= Z.of_nat (S k)).
  { exists (Nat.pred m). subst m. lia. }
  destruct Hm as (k & -> & Hk & Hge).
  replace (S k + fuel)%nat with (k + S fuel)%nat by lia.
  replace (repeat Raises (S k)) with (repeat (@Raises record) k ++ [Raises])
    by (rewrite <- repeat_cons; reflexivity).
  rewrite <- app_assoc.
  rewrite raises_run by first [assumption | lia | destruct Hk; [left|right]; lia].
  cbn [while_loop first_record app].
  pose proof Hfr as Hfr'. apply Z.leb_le in Hfr'. rewrite Hfr'.
  unfold body. cbn [world first_record mock_query_wos fst snd].
  unfold handler. cbn [attempts all_dfs first_record world slept].
  assert (Hc : (0 + Z.of_nat k + 1 >=? retries) = true) by lia.
  rewrite Hc.
  replace (repeat fr (S k)) with (repeat fr k ++ [fr])
    by (rewrite <- repeat_cons; reflexivity).
  rewrite !app_assoc.
  replace (S k - 1)%nat with k by lia.
  do 3 f_equal. lia.
Qed.

(** C10, when every sleep the function asks for returns. The failure
    counter goes back to zero after every page, so the
    ceiling bounds failures in a row, not failures in all. For a script
    of blocks, each a number of raising fetches ([0] or below [retries])
    and then a full page, every page is obtained, however many failures
    there are in total. A page is asked for again after each failure
    ([first_record] stays) and the sleeps double from [2 * delay] within
    each block. *)
Theorem C10_counter_resets_after_success :
  forall bs : list (block record),
    Forall (fun b => survivable retries (fst b) /\ full (snd b)) bs ->
    1 + page_size * Z.of_nat (List.length bs) <= max_records ->
    execute_query_paginated mock_query_wos delay max_records retries
      (blocks_script bs, [])
    = Some (Return (concat_or_none (map snd bs))
              ([], blocks_requests 1 bs ++ [1 + page_size * Z.of_nat (List.length bs)])
              (blocks_sleeps delay bs)).
Proof.
  intros bs Hbs Hmax.
  destruct (blocks_run bs [] 1 [] [] [] 1%nat Hbs) as [n Hn].
  { destruct bs; [left; reflexivity|right]. cbn [List.length] in *.
    unfold page_size in *. lia. }
  unfold execute_query_paginated.
  rewrite (enough_fuel_enough _ _ _ _ _ (n + 1)
             (Finished (mkLocals (map snd bs)
                (1 + page_size * Z.of_nat (List.length bs)) 0
                (@nil (fetched record),
                 blocks_requests 1 bs ++ [1 + page_size * Z.of_nat (List.length bs)])
                (blocks_sleeps delay bs)))).
  - unfold conclude, concat_or_none. cbn. destruct (map snd bs); reflexivity.
  - unfold initial. rewrite app_nil_r in Hn. refine (eq_trans Hn _).
    cbn [while_loop first_record app].
    apply Z.leb_le in Hmax. rewrite Hmax. reflexivity.
Qed.

(** C2, when every sleep the function can ask for returns (the delay and
    its doubles up to failure [retries - 1] in a row are durations
    [time.sleep] takes). No exception leaves the function, whatever
    [query_wos] does. When the fetches raise often
    enough in a row to reach the ceiling ([max 1 retries] times) after some
    blocks that got over their failures, the function returns the
    concatenation of the pages it has, having slept [delay * 2^1], ...,
    [delay * 2^(m-1)] between the failing tries; with no page it returns
    [None]. *)
Theorem C2_partial_results_no_exception :
  (forall (World : Type) (query_wos : World -> Z -> Z -> fetched record * World) w,
      exists r w' log,
        execute_query_paginated query_wos delay max_records retries w
        = Some (Return r w' log))
  /\ (forall (bs : list (block record)) rest,
        Forall (fun b => survivable retries (fst b) /\ full (snd b)) bs ->
        1 + page_size * Z.of_nat (List.length bs) <= max_records ->
        let m := Z.to_nat (Z.max 1 retries) in
        execute_query_paginated mock_query_wos delay max_records retries
          (blocks_script bs ++ repeat Raises m ++ rest, [])
        = Some (Return (concat_or_none (map snd bs))
                  (rest, blocks_requests 1 bs
                           ++ repeat (1 + page_size * Z.of_nat (List.length bs)) m)
                  (blocks_sleeps delay bs ++ backoffs delay 0 (m - 1))))
  /\ (forall rest,
        1 <= max_records ->
        exists w log,
          execute_query_paginated mock_query_wos delay max_records retries
            (repeat (@Raises record) (Z.to_nat (Z.max 1 retries)) ++ rest, [])
          = Some (Return None w log)).
Proof.
  assert (Hii : forall (bs : list (block record)) rest,
        Forall (fun b => survivable retries (fst b) /\ full (snd b)) bs ->
        1 + page_size * Z.of_nat (List.length bs) <= max_records ->
        let m := Z.to_nat (Z.max 1 retries) in
        execute_query_paginated mock_query_wos delay max_records retries
          (blocks_script bs ++ repeat Raises m ++ rest, [])
        = Some (Return (concat_or_none (map snd bs))
                  (rest, blocks_requests 1 bs
                           ++ repeat (1 + page_size * Z.of_nat (List.length bs)) m)
                  (blocks_sleeps delay bs ++ backoffs delay 0 (m - 1)))).
  { intros bs rest Hbs Hmax m.
    destruct (blocks_run bs [] 1 (repeat Raises m ++ rest) [] [] (m + 0)%nat Hbs)
      as [n Hn].
    { destruct bs; [left; reflexivity|right]. cbn [List.length] in *.
      unfold page_size in *. lia. }
    unfold execute_query_paginated.
    rewrite (enough_fuel_enough _ _ _ _ _ (n + (m + 0))
               (Finished (mkLocals (map snd bs)
                  (1 + page_size * Z.of_nat (List.length bs)) (Z.of_nat m)
                  (rest, blocks_requests 1 bs
                           ++ repeat (1 + page_size * Z.of_nat (List.length bs)) m)
                  (blocks_sleeps delay bs ++ backoffs delay 0 (m - 1))))).
    - unfold conclude, concat_or_none. cbn. destruct (map snd bs); reflexivity.
    - unfold initial. refine (eq_trans Hn _). cbn [app].
      subst m. apply ceiling_run. exact Hmax. }
  split; [|split].
  - intros World query_wos w.
    destruct (execute_query_paginated_total query_wos delay max_records retries w)
      as [o Ho].
    unfold execute_query_paginated in *.
    destruct (while_loop _ _ _ _ _ _) as [r|] eqn:E; [|discriminate].
    assert (H0 : 0 <= attempts (initial (record:=record) w)) by (cbn; lia).
    destruct (while_loop_finishes _ _ _ _ H0 E) as [s' ->].
    unfold conclude. destruct (all_dfs s'); eauto.
  - exact Hii.
  - intros rest Hmax. do 2 eexists.
    apply (Hii [] rest); [constructor|exact Hmax].
Qed.

End Backoff.

Lemma hundred_rows_full (x : nat) : full (repeat x 100).
Proof. unfold full, page_size. rewrite repeat_length. lia. Qed.

(** Two full pages and a short one, with the default [max_records]. *)
Lemma C1_witness :
  execute_query_paginated (P := linux) mock_query_wos 1 5000 5
    (pages [repeat 7%nat 100; repeat 8%nat 100] ++ [Returns (Some (repeat 9%nat 37))], [])
  = Some (Return (Some (List.concat [repeat 7%nat 100; repeat 8%nat 100] ++ repeat 9%nat 37))
            ([], page_starts 3) (repeat 1%float 2)).
Proof.
  refine (proj1 (proj2 (proj2
    (C1_pagination_order_and_stop (P := linux) 1 5000 5 eq_refl
       [repeat 7%nat 100; repeat 8%nat 100] [Returns (Some (repeat 9%nat 37))] _ _)))
    _ (repeat 9%nat 37) [] _ _ eq_refl).
  - repeat constructor; apply hundred_rows_full.
  - right. cbn. unfold page_size. lia.
  - cbn. unfold page_size. lia.
  - discriminate.
  - rewrite repeat_length. unfold page_size. lia.
Defined.

(** With a delay that [time.sleep] refuses on every platform, negative or
    of 1e10 seconds, the pages of 100, 100 and 37 rows are not returned: the
    sleep after the first page raises, the handler's own sleep raises too,
    and the exception leaves the function after one request. *)
Lemma C1_refused_delay_raises :
  (fun P : Platform =>
     execute_query_paginated (P := P) mock_query_wos (-1) 5000 5
       (pages [repeat 7%nat 100; repeat 8%nat 100; repeat 9%nat 37], []))
  = (fun _ => Some (Exception (pages [repeat 8%nat 100; repeat 9%nat 37], [1]) []))
  /\ (fun P : Platform =>
        execute_query_paginated (P := P) mock_query_wos 1e10 5000 5
          (pages [repeat 7%nat 100; repeat 8%nat 100; repeat 9%nat 37], []))
     = (fun _ => Some (Exception (pages [repeat 8%nat 100; repeat 9%nat 37], [1]) [])).
Proof. split; vm_compute; reflexivity. Qed.

(** Three failures in all with a ceiling of two: one before each page. *)
Lemma C10_witness :
  execute_query_paginated (P := linux) mock_query_wos 1 5000 2
    (blocks_script [(1%nat, repeat 7%nat 100); (1%nat, repeat 8%nat 100);
                    (1%nat, repeat 9%nat 100)], [])
  = Some (Return (Some (repeat 7%nat 100 ++ repeat 8%nat 100 ++ repeat 9%nat 100))
            ([], [1; 1; 101; 101; 201; 201; 301])
            [2; 1; 2; 1; 2; 1]%float).
Proof.
  refine (eq_trans
    (C10_counter_resets_after_success (P := linux) 1 5000 2 eq_refl
       [(1%nat, repeat 7%nat 100); (1%nat, repeat 8%nat 100); (1%nat, repeat 9%nat 100)]
       _ _) _).
  - repeat constructor; cbn; try apply hundred_rows_full; right; lia.
  - cbn. unfold page_size. lia.
  - vm_compute. reflexivity.
Defined.

(** An exception of the sleep between pages comes after [first_record] has
    moved on: with a delay of 1e10 seconds, refused on every platform, and a
    ceiling of 1 the loop ends with [first_record] at 101 and the counter at
    1, and with the default ceiling the run does not get over this one
    exception: it raises, the second page is never asked for. *)
Lemma C10_exception_after_advance :
  (fun P : Platform =>
     body (P := P) mock_query_wos 1e10 1
       (initial (pages [repeat 7%nat 100; repeat 8%nat 100], [])))
  = (fun _ => Break (mkLocals [repeat 7%nat 100] 101 1 (pages [repeat 8%nat 100], [1]) []))
  /\ (fun P : Platform =>
        execute_query_paginated (P := P) mock_query_wos 1e10 5000 5
          (pages [repeat 7%nat 100; repeat 8%nat 100], []))
     = (fun _ => Some (Exception (pages [repeat 8%nat 100], [1]) [])).
Proof. split; vm_compute; reflexivity. Qed.

Lemma C2_witness :
  exists w log,
    execute_query_paginated (P := linux) mock_query_wos 1 5000 5
      (repeat (@Raises nat) (Z.to_nat (Z.max 1 5)) ++ [], [])
    = Some (Return None w log).
Proof.
  apply (proj2 (proj2 (C2_partial_results_no_exception (P := linux) (record:=nat) 1 5000 5
                         eq_refl))).
  lia.
Defined.

(** A sleep the handler asks for and [time.sleep] refuses leaves the
    function. On every platform: with a negative delay ([ValueError]) and
    with a delay of 1e10 seconds ([OverflowError]). With any delay once
    [2 ** attempts] is too large for a float: delay 0.0 and 1100 retries,
    where the product raises at the 1024th failure in a row. *)
Lemma C2_refused_sleep_raises :
  (fun P : Platform =>
     execute_query_paginated (P := P) mock_query_wos (-1) 5000 5 ([@Raises nat], []))
  = (fun _ => Some (Exception ([], [1]) []))
  /\ (fun P : Platform =>
        execute_query_paginated (P := P) mock_query_wos 1e10 5000 5 ([@Raises nat], []))
     = (fun _ => Some (Exception ([], [1]) []))
  /\ execute_query_paginated (P := linux) mock_query_wos 0 5000 1100
       (repeat (@Raises nat) 1024, [])
     = Some (Exception ([], repeat 1 1024) (repeat 0%float 1023)).
Proof. repeat split; vm_compute; reflexivity. Qed.

End PaginatedFacts.

(** ** The attempt loop of [query_wos] *)

Module QueryWosFacts.
Import QueryWos.

Lemma without_records_none {record : Type} (extract_record : json -> option record) data :
  without_records data = true ->
  on_success extract_record data = Paginated.Returns None.
Proof.
  unfold without_records, on_success, get.
  destruct data as [| | | | |members]; try reflexivity.
  destruct (dict_get members "Data" (JDict [])) as [| | | | |d]; try discriminate.
  destruct (dict_get d "Records" (JDict [])) as [| | | | |r]; try discriminate.
  destruct (dict_get r "records" JNull) as [| | | | |container]; try reflexivity.
  destruct (dict_get container "REC" (JList [])); try reflexivity; discriminate.
Qed.

Lemma throttle_accepted {P : Platform} delay k j :
  throttles_accepted delay k = true -> 0 <= j < Z.of_nat k ->
  exists t, throttle_time delay j = Some t /\ sleepable t = true.
Proof.
  unfold throttles_accepted. intros H Hj. rewrite forallb_forall in H.
  assert (Hin : In j (map Z.of_nat (seq 0 k))).
  { apply in_map_iff. exists (Z.to_nat j). split; [lia|]. apply in_seq. lia. }
  specialize (H j Hin). unfold throttle_ok in H.
  destruct (throttle_time delay j) as [t|]; [eauto|discriminate].
Qed.

Lemma throttle_sleeps_S delay a k t :
  throttle_time delay a = Some t ->
  throttle_sleeps delay a (S k) = t :: throttle_sleeps delay (a + 1) k.
Proof.
  intros Ht. unfold throttle_sleeps. cbn [seq flat_map].
  replace (a + Z.of_nat 0) with a by lia. rewrite Ht. cbn [app]. f_equal.
  rewrite <- seq_shift, flat_map_concat_map, map_map, <- flat_map_concat_map.
  apply flat_map_ext. intros j.
  replace (a + Z.of_nat (S j)) with (a + 1 + Z.of_nat j) by lia. reflexivity.
Qed.

Section Scripted.

Context {P : Platform} {record : Type}.
Variable extract_record : json -> option record.
Variables (count first_record : Z).
Variable delay : float.

(** Throttled answers use up one attempt each and sleep
    [delay * (attempt + 1)], as long as [time.sleep] takes these
    durations. *)
Lemma throttled_run (bodies : list (option json)) :
  forall n a rest log,
    0 <= a ->
    throttles_accepted delay (Z.to_nat a + List.length bodies) = true ->
    attempt_loop extract_record scripted_get delay count first_record
      (List.length bodies + n) a (map (Response 429) bodies ++ rest) log
    = attempt_loop extract_record scripted_get delay count first_record n
        (a + Z.of_nat (List.length bodies)) rest
        (log ++ throttle_sleeps delay a (List.length bodies)).
Proof.
  induction bodies as [|b bodies IH]; intros n a rest log Ha Hacc.
  - cbn. rewrite app_nil_r, Z.add_0_r. reflexivity.
  - cbn [List.length Nat.add map app attempt_loop scripted_get].
    change (429 =? 200) with false. change (429 =? 429) with true. cbn iota.
    destruct (throttle_accepted delay _ a Hacc) as (t & Ht & Hst);
      [cbn [List.length]; lia|].
    rewrite Ht, (time_sleep_accepted _ _ Hst).
    rewrite IH; [|lia|].
    + rewrite (throttle_sleeps_S _ _ _ _ Ht), <- app_assoc. cbn [app].
      f_equal. lia.
    + replace (Z.to_nat (a + 1) + List.length bodies)%nat
        with (Z.to_nat a + List.length (b :: bodies))%nat
        by (cbn [List.length]; lia).
      exact Hacc.
Qed.

(** The retry structure: after [k] throttled answers, fewer than the
    attempts allowed, a checked failure ends the call with [None] at once;
    when every attempt is throttled the call ends with [None] after the
    last sleep. *)
Lemma query_wos_retries_only_429 :
  forall (retries : Z) (bodies : list (option json)),
    throttles_accepted delay (List.length bodies) = true ->
    (forall h rest,
        Z.of_nat (List.length bodies) < retries -> checked_failure h = true ->
        query_wos extract_record scripted_get count first_record retries delay
          (map (Response 429) bodies ++ h :: rest) []
        = (Paginated.Returns None, rest,
           throttle_sleeps delay 0 (List.length bodies)))
    /\ (forall rest,
          Z.of_nat (List.length bodies) = retries ->
          query_wos extract_record scripted_get count first_record retries delay
            (map (Response 429) bodies ++ rest) []
          = (Paginated.Returns None, rest,
             throttle_sleeps delay 0 (List.length bodies))).
Proof.
  intros retries bodies Hacc. split.
  - intros h rest Hlt Hh. unfold query_wos.
    replace (Z.to_nat retries)
      with (List.length bodies + S (Z.to_nat retries - List.length bodies - 1))%nat by lia.
    rewrite throttled_run by (exact Hacc || lia). cbn [app attempt_loop scripted_get].
    destruct h as [|status body]; [reflexivity|]. cbn [checked_failure] in Hh.
    destruct (status =? 200).
    + destruct body as [data|]; [rewrite (without_records_none _ _ Hh)|]; reflexivity.
    + apply negb_true_iff in Hh. rewrite Hh. reflexivity.
  - intros rest Heq. unfold query_wos.
    replace (Z.to_nat retries) with (List.length bodies + 0)%nat by lia.
    rewrite throttled_run by (exact Hacc || lia). reflexivity.
Qed.

(** C3, at a body the code does not check. A 200 answer whose [Data]
    member is [null] is an unexpected shape; the chained [.get] raises
    [AttributeError], which [except RequestException] does not catch, so
    the call raises where the specification has it return [None]. *)
Theorem C3_unchecked_shape_raises :
  forall retries rest,
    0 < retries ->
    query_wos extract_record scripted_get count first_record retries delay
      (Response 200 (Some (JDict [("Data"%string, JNull)])) :: rest) []
    = (Paginated.Raises, rest, []).
Proof.
  intros retries rest Hr. unfold query_wos.
  destruct (Z.to_nat retries) eqn:E; [lia|]. reflexivity.
Qed.

End Scripted.

Lemma C3_witness :
  query_wos (P := linux) (fun _ => Some tt) scripted_get 100 1 3 1
    [Response 200 (Some (JDict [("Data"%string, JNull)]))] []
  = (Paginated.Raises, [], []).
Proof.
  apply (C3_unchecked_shape_raises (P := linux) (fun _ => Some tt) 100 1 1 3 []).
  lia.
Defined.

End QueryWosFacts.

(** ** Strings *)

Module PyStrFacts.
Import PyStr.

Lemma lstrip_nonspace c s : is_space c = false -> lstrip (c :: s) = c :: s.
Proof. intros H. cbn. rewrite H. reflexivity. Qed.

Lemma rstrip_nonspace c s : is_space c = false -> rstrip (s ++ [c]) = s ++ [c].
Proof.
  intros H. unfold rstrip. rewrite rev_app_distr. cbn [rev app].
  rewrite lstrip_nonspace by assumption.
  cbn [rev]. rewrite rev_involutive. reflexivity.
Qed.

(** A string that begins and ends with characters that are not white space
    is left alone by [strip]. *)
Lemma strip_bounded a b s :
  is_space a = false -> is_space b = false ->
  strip (a :: s ++ [b]) = a :: s ++ [b].
Proof.
  intros Ha Hb. unfold strip. rewrite lstrip_nonspace by assumption.
  change (a :: s ++ [b]) with ((a :: s) ++ [b]).
  apply rstrip_nonspace. assumption.
Qed.

(** *** Occurrences of a word *)


Lemma starts_with_prefix w u s :
  starts_with (w ++ u) s = true -> starts_with w s = true.
Proof.
  revert s. induction w as [|c w IH]; intros s H; [reflexivity|].
  destruct s as [|x s]; [discriminate|]. cbn in H |- *.
  apply andb_prop in H. destruct H as [Hc Hw]. rewrite Hc. apply IH, Hw.
Qed.

Lemma alien_cons w d c : alien (d :: w) c = true -> Ascii.eqb d c = false /\ alien w c = true.
Proof.
  unfold alien. cbn. rewrite negb_orb. intros H. apply andb_prop in H.
  destruct H as [H1 H2]. split; [|exact H2].
  apply negb_true_iff in H1. rewrite Ascii.eqb_sym. exact H1.
Qed.

(** A character that is not in [w] stops every occurrence of [w] before
    it. *)
Lemma starts_with_alien (w : str) :
  forall a c y, alien w c = true -> starts_with w (a ++ c :: y) = starts_with w a.
Proof.
  induction w as [|d w IH]; intros a c y H; [destruct a; reflexivity|].
  apply alien_cons in H. destruct H as [Hd Hw].
  destruct a as [|x a]; cbn [app starts_with].
  - rewrite Hd. reflexivity.
  - f_equal. apply IH. exact Hw.
Qed.


Lemma contains_nil w : w <> [] -> contains w [] = false.
Proof. destruct w; [congruence|reflexivity]. Qed.

Lemma contains_alien w (x : str) :
  forall c y, w <> [] -> alien w c = true ->
              contains w (x ++ c :: y) = contains w x || contains w y.
Proof.
  induction x as [|d x IH]; intros c y Hw Hc.
  - pose proof (starts_with_alien w [] c y Hc) as E. cbn [app] in E |- *.
    rewrite (contains_nil w Hw).
    change (contains w (c :: y)) with (starts_with w (c :: y) || contains w y).
    rewrite E. destruct w; [congruence|reflexivity].
  - cbn [app contains]. change (d :: x ++ c :: y) with ((d :: x) ++ c :: y).
    rewrite starts_with_alien by exact Hc. rewrite IH by assumption.
    rewrite orb_assoc. reflexivity.
Qed.

Lemma contains_aliens w (sep : str) :
  forall y, w <> [] -> all_alien w sep = true -> contains w (sep ++ y) = contains w y.
Proof.
  induction sep as [|c sep IH]; intros y Hw H; [reflexivity|].
  cbn in H. apply andb_prop in H. destruct H as [Hc Hsep].
  change ((c :: sep) ++ y) with ([] ++ c :: (sep ++ y)).
  rewrite contains_alien by assumption.
  rewrite (contains_nil w Hw). cbn [orb]. apply IH; assumption.
Qed.

(** Two parts that do not hold [w], put together around characters that are
    not in [w], do not hold it. *)
Lemma contains_sep w x sep y :
  w <> [] -> sep <> [] -> all_alien w sep = true ->
  contains w x = false -> contains w y = false ->
  contains w (x ++ sep ++ y) = false.
Proof.
  intros Hw Hs Ha Hx Hy. destruct sep as [|c sep]; [congruence|].
  cbn in Ha. apply andb_prop in Ha. destruct Ha as [Hc Hsep].
  cbn [app]. rewrite contains_alien by assumption.
  rewrite Hx, contains_aliens by assumption. exact Hy.
Qed.

Lemma contains_snoc_aliens w x sep :
  w <> [] -> all_alien w sep = true -> contains w x = false ->
  contains w (x ++ sep) = false.
Proof.
  intros Hw Ha Hx. destruct sep as [|c sep]; [rewrite app_nil_r; exact Hx|].
  rewrite <- (app_nil_r ((c :: sep))).
  apply contains_sep; try assumption; [discriminate|apply contains_nil, Hw].
Qed.

Lemma contains_cons_aliens w sep y :
  w <> [] -> all_alien w sep = true -> contains w y = false ->
  contains w (sep ++ y) = false.
Proof. intros Hw Ha Hy. rewrite contains_aliens by assumption. exact Hy. Qed.


(** The same for a stretch that ends with a character that is not in [w],
    whatever follows. *)
Lemma no_start_closed w u c (x : str) :
  forall y, w <> [] -> contains w x = false -> alien w c = true ->
            no_start (w ++ u) (x ++ [c]) y = true.
Proof.
  induction x as [|d x IH]; intros y Hw Hx Hc.
  - cbn [app no_start]. rewrite andb_true_r. apply negb_true_iff.
    destruct (starts_with (w ++ u) (c :: y)) eqn:E; [|reflexivity].
    apply starts_with_prefix in E.
    pose proof (starts_with_alien w [] c y Hc) as E'. cbn [app] in E'.
    rewrite E' in E. destruct w; [congruence|discriminate].
  - cbn [contains] in Hx. apply orb_false_elim in Hx. destruct Hx as [Hd Hx].
    cbn [app no_start]. rewrite (IH y Hw Hx Hc), andb_true_r. apply negb_true_iff.
    destruct (starts_with (w ++ u) (d :: (x ++ [c]) ++ y)) eqn:E; [|reflexivity].
    apply starts_with_prefix in E. rewrite <- app_assoc in E.
    change (d :: x ++ [c] ++ y) with ((d :: x) ++ c :: y) in E.
    rewrite starts_with_alien in E by exact Hc. congruence.
Qed.

(** *** [replace] *)





(** *** [strip] at white space *)

Lemma rstrip_space c s : is_space c = true -> rstrip (s ++ [c]) = rstrip s.
Proof.
  intros H. unfold rstrip. rewrite rev_app_distr. cbn [rev app lstrip].
  rewrite H. reflexivity.
Qed.

Lemma rstrip_spaces (sp : str) :
  forall s, forallb is_space sp = true -> rstrip (s ++ sp) = rstrip s.
Proof.
  induction sp as [|c sp IH] using rev_ind; intros s H.
  - rewrite app_nil_r. reflexivity.
  - rewrite forallb_app in H. apply andb_prop in H. destruct H as [Hsp Hc].
    cbn in Hc. rewrite andb_true_r in Hc.
    rewrite app_assoc, rstrip_space by exact Hc. apply IH, Hsp.
Qed.

Lemma strip_bounded_spaces a b s sp :
  is_space a = false -> is_space b = false -> forallb is_space sp = true ->
  strip ((a :: s ++ [b]) ++ sp) = a :: s ++ [b].
Proof.
  intros Ha Hb Hsp. unfold strip. cbn [app].
  rewrite lstrip_nonspace by exact Ha.
  change (a :: (s ++ [b]) ++ sp) with ((a :: s ++ [b]) ++ sp).
  rewrite rstrip_spaces by exact Hsp.
  change (a :: s ++ [b]) with ((a :: s) ++ [b]).
  apply rstrip_nonspace, Hb.
Qed.

(** *** Decimal digits *)

Lemma is_digit_digit_char m : (m < 10)%N -> is_digit (digit_char m) = true.
Proof.
  intros H. unfold is_digit, in_range, digit_char, code.
  rewrite N_ascii_embedding by lia.
  apply andb_true_intro. split; apply N.leb_le; lia.
Qed.

Lemma decimal_from_digits fuel :
  forall n acc, exists pre,
    decimal_from fuel n acc = pre ++ acc /\ all_digits pre = true
    /\ (fuel <> 0%nat -> pre <> []).
Proof.
  induction fuel as [|fuel IH]; intros n acc.
  - exists []. repeat split. congruence.
  - cbn [decimal_from].
    assert (Hd : is_digit (digit_char (n mod 10)) = true).
    { apply is_digit_digit_char. apply N.mod_lt. discriminate. }
    destruct (n <? 10)%N.
    + exists [digit_char (n mod 10)]. repeat split.
      * cbn. rewrite Hd. reflexivity.
      * discriminate.
    + destruct (IH (n / 10)%N (digit_char (n mod 10) :: acc))
        as (pre & E & Hpre & _).
      exists (pre ++ [digit_char (n mod 10)]). repeat split.
      * rewrite E, <- app_assoc. reflexivity.
      * unfold all_digits in *. rewrite forallb_app, Hpre. cbn. rewrite Hd. reflexivity.
      * intros _. destruct pre; discriminate.
Qed.

Lemma decimal_digits n : decimal n <> [] /\ all_digits (decimal n) = true.
Proof.
  unfold decimal.
  destruct (decimal_from_digits (S (N.size_nat n)) n []) as (pre & E & Hd & Hne).
  rewrite E, app_nil_r. split; [apply Hne; discriminate|exact Hd].
Qed.

Lemma str_of_int_nonneg z : 0 <= z -> str_of_int z = decimal (Z.to_N z).
Proof.
  intros H. unfold str_of_int.
  destruct (z <? 0) eqn:E; [apply Z.ltb_lt in E; lia|reflexivity].
Qed.



Lemma last_of_digits (e : str) :
  forall p, e <> [] -> all_digits e = true ->
            exists d, last_of e p = Some d /\ is_digit d = true.
Proof.
  induction e as [|c e IH]; intros p Hne Hd; [congruence|].
  cbn in Hd. apply andb_prop in Hd. destruct Hd as [Hc He].
  destruct e as [|c' e'].
  - exists c. split; [reflexivity|exact Hc].
  - apply (IH (Some c)); [discriminate|exact He].
Qed.

Lemma last_of_app w1 w2 p : last_of (w1 ++ w2) p = last_of w2 (last_of w1 p).
Proof. unfold last_of. apply fold_left_app. Qed.

Lemma is_word_digit d : is_digit d = true -> is_word d = true.
Proof. intros H. unfold is_word. rewrite H. reflexivity. Qed.

Lemma starts_digit_nonword tl :
  match tl with c :: _ => is_word c | [] => false end = false ->
  starts_digit tl = false.
Proof.
  destruct tl as [|c tl]; [reflexivity|]. cbn. intros H.
  destruct (is_digit c) eqn:E; [|reflexivity].
  rewrite (is_word_digit c E) in H. discriminate.
Qed.

Lemma lstrip_head (s : str) :
  lstrip s = [] \/ exists c t, lstrip s = c :: t /\ is_space c = false.
Proof.
  induction s as [|c s IH]; [left; reflexivity|]. cbn.
  destruct (is_space c) eqn:E; [exact IH|right; eauto].
Qed.

(** What [strip] returns does not end with white space. *)
Lemma strip_last (s x : str) (c : ascii) :
  strip s = x ++ [c] -> is_space c = false.
Proof.
  unfold strip, rstrip. intros H.
  destruct (lstrip_head (rev (lstrip s))) as [E | (d & t & E & Hd)]; rewrite E in H.
  - destruct x; discriminate.
  - cbn [rev] in H. apply app_inj_tail in H. destruct H as [_ <-]. exact Hd.
Qed.

Lemma is_space_digit c : is_digit c = true -> is_space c = false.
Proof.
  unfold is_digit, is_space, in_range. intros H.
  apply andb_prop in H. destruct H as [H1 H2].
  apply N.leb_le in H1. apply N.leb_le in H2.
  repeat (apply orb_false_intro);
    first [apply andb_false_iff; first [left; apply N.leb_gt; lia | right; apply N.leb_gt; lia]
          | apply N.eqb_neq; lia].
Qed.

Lemma digits_last (e : str) :
  e <> [] -> all_digits e = true -> exists x c, e = x ++ [c] /\ is_digit c = true.
Proof.
  intros Hne Hd. destruct (exists_last Hne) as (x & c & ->).
  exists x, c. split; [reflexivity|].
  unfold all_digits in Hd. rewrite forallb_app in Hd.
  apply andb_prop in Hd. destruct Hd as [_ Hc]. cbn in Hc.
  rewrite andb_true_r in Hc. exact Hc.
Qed.

Lemma eqb_eq s t : eqb s t = true <-> s = t.
Proof. unfold eqb. destruct (list_eq_dec ascii_dec s t); split; congruence. Qed.

Lemma eqb_neq s t : eqb s t = false <-> s <> t.
Proof. unfold eqb. destruct (list_eq_dec ascii_dec s t); split; congruence. Qed.

End PyStrFacts.

(** ** The matcher *)

Module ReFacts.
Import PyStr PyStrFacts Re.

Lemma starts_with_split w s :
  starts_with w s = true -> exists tl, s = w ++ tl.
Proof.
  revert s. induction w as [|c w IH]; intros s H.
  - exists s. reflexivity.
  - destruct s as [|x s]; [discriminate|]. cbn in H.
    apply andb_prop in H. destruct H as [Hc Hw].
    apply Ascii.eqb_eq in Hc. subst x.
    destruct (IH _ Hw) as [tl ->]. exists tl. reflexivity.
Qed.

(** A literal is read in one piece, or not at all. *)
Lemma matches_chars w k p tl g :
  matches (chars w) k (mkCursor p (w ++ tl) g) = k (mkCursor (last_of w p) tl g).
Proof.
  revert p. induction w as [|c w IH]; intros p; [reflexivity|].
  cbn [chars matches rest app]. rewrite Ascii.eqb_refl.
  unfold advance. cbn [groups]. apply IH.
Qed.

Lemma matches_chars_fail w k st :
  starts_with w (rest st) = false -> matches (chars w) k st = None.
Proof.
  revert st. induction w as [|c w IH]; intros st H; [discriminate|].
  cbn [chars matches]. destruct (rest st) as [|x s] eqn:E; [reflexivity|].
  cbn in H. destruct (Ascii.eqb c x) eqn:Ec.
  - apply Ascii.eqb_eq in Ec. subst x. rewrite Ascii.eqb_refl.
    apply IH. exact H.
  - rewrite Ascii.eqb_sym, Ec. reflexivity.
Qed.

Lemma moved_cons c s p p' g g' :
  moved (mkCursor p (c :: s) g) (mkCursor p' s g') = true.
Proof. unfold moved. cbn [rest List.length]. apply Nat.ltb_lt. lia. Qed.

(** [\d+] takes all the digits there are when the continuation accepts
    the position after them. *)
Lemma repeated_S m k fuel st :
  repeated m k (S fuel) st
  = m (fun st' => or_else (if moved st st' then repeated m k fuel st' else None) (k st')) st.
Proof. reflexivity. Qed.

Lemma matches_digit_cons k p x s g :
  matches Digit k (mkCursor p (x :: s) g)
  = if is_digit x then k (mkCursor (Some x) s g) else None.
Proof. reflexivity. Qed.

Lemma repeated_digits_stop k fuel p tl g :
  starts_digit tl = false ->
  repeated (matches Digit) k fuel (mkCursor p tl g) = None.
Proof.
  intros Htl. destruct fuel; [reflexivity|]. rewrite repeated_S.
  destruct tl as [|x tl]; [reflexivity|].
  rewrite matches_digit_cons. cbn in Htl. rewrite Htl. reflexivity.
Qed.

Lemma repeated_digits_greedy (ds : str) :
  forall k fuel p tl g r,
    ds <> [] -> all_digits ds = true ->
    (List.length ds <= fuel)%nat ->
    k (mkCursor (last_of ds p) tl g) = Some r ->
    starts_digit tl = false ->
    repeated (matches Digit) k fuel (mkCursor p (ds ++ tl) g) = Some r.
Proof.
  induction ds as [|d ds IH]; intros k fuel p tl g r Hne Hd Hfuel Hk Htl;
    [congruence|].
  destruct fuel as [|fuel]; [cbn in Hfuel; lia|].
  cbn in Hd. apply andb_prop in Hd. destruct Hd as [Hd Hds].
  rewrite repeated_S. cbn [app]. rewrite matches_digit_cons, Hd, moved_cons.
  destruct ds as [|d' ds'].
  - cbn [app]. cbn in Hk.
    rewrite repeated_digits_stop by assumption. cbn. exact Hk.
  - rewrite (IH k fuel (Some d) tl g r); try assumption.
    + reflexivity.
    + discriminate.
    + cbn in Hfuel |- *. lia.
Qed.

Lemma consumed_app w tl p p' g g' :
  consumed (mkCursor p (w ++ tl) g) (mkCursor p' tl g') = w.
Proof.
  unfold consumed. cbn [rest]. rewrite length_app.
  replace (List.length w + List.length tl - List.length tl)%nat
    with (List.length w + 0)%nat by lia.
  rewrite firstn_app_2. cbn. apply app_nil_r.
Qed.

(** [(\d+)] as group [i], under the same condition. *)
Lemma group_digits_greedy i ds k p tl g r :
  ds <> [] -> all_digits ds = true -> starts_digit tl = false ->
  k (mkCursor (last_of ds p) tl ((i, ds) :: g)) = Some r ->
  matches (Group i (Plus Digit)) k (mkCursor p (ds ++ tl) g) = Some r.
Proof.
  intros Hne Hd Htl Hk. cbn [matches rest].
  apply repeated_digits_greedy; try assumption.
  - rewrite length_app. lia.
  - cbn [prev rest groups]. rewrite consumed_app. exact Hk.
Qed.

Lemma matches_seq r1 r2 k st :
  matches (Seq r1 r2) k st = matches r1 (matches r2 k) st.
Proof. reflexivity. Qed.

Lemma matches_group i r k st :
  matches (Group i r) k st
  = matches r (fun st' => k (mkCursor (prev st') (rest st')
                               ((i, consumed st st') :: groups st'))) st.
Proof. reflexivity. Qed.

Lemma matches_alt r1 r2 k st :
  matches (Alt r1 r2) k st = or_else (matches r1 k st) (matches r2 k st).
Proof. reflexivity. Qed.

Lemma matches_opt r k st :
  matches (Opt r) k st = or_else (matches r k st) (k st).
Proof. reflexivity. Qed.

Lemma matches_boundary k st :
  matches WordBoundary k st
  = if xorb (word_before st) (word_after st) then k st else None.
Proof. reflexivity. Qed.

Lemma matches_plus r k st :
  matches (Plus r) k st = repeated (matches r) k (S (List.length (rest st))) st.
Proof. reflexivity. Qed.

(** What a successful match of a literal or of [(\d+)] has read. *)
Lemma matches_chars_inv w k p s g r :
  matches (chars w) k (mkCursor p s g) = Some r ->
  exists tl, s = w ++ tl /\ k (mkCursor (last_of w p) tl g) = Some r.
Proof.
  intros H. destruct (starts_with w s) eqn:E.
  - destruct (starts_with_split _ _ E) as [tl ->]. exists tl. split; [reflexivity|].
    rewrite matches_chars in H. exact H.
  - rewrite matches_chars_fail in H by exact E. discriminate.
Qed.

Lemma repeated_digits_inv k fuel :
  forall p s g r,
    repeated (matches Digit) k fuel (mkCursor p s g) = Some r ->
    exists ds tl, ds <> [] /\ all_digits ds = true /\ s = ds ++ tl
                  /\ k (mkCursor (last_of ds p) tl g) = Some r.
Proof.
  induction fuel as [|fuel IH]; intros p s g r H; [discriminate|].
  rewrite repeated_S in H. destruct s as [|x s]; [discriminate|].
  rewrite matches_digit_cons in H. destruct (is_digit x) eqn:Hx; [|discriminate].
  rewrite moved_cons in H.
  destruct (repeated (matches Digit) k fuel (mkCursor (Some x) s g)) as [r'|] eqn:E.
  - cbn in H. injection H as ->.
    destruct (IH _ _ _ _ E) as (ds & tl & Hne & Hd & -> & Hk).
    exists (x :: ds), tl. repeat split; try assumption.
    + discriminate.
    + cbn. rewrite Hx. exact Hd.
  - cbn in H. exists [x], s. repeat split; try assumption.
    + discriminate.
    + cbn. rewrite Hx. reflexivity.
Qed.

Lemma group_digits_inv i k p s g r :
  matches (Group i (Plus Digit)) k (mkCursor p s g) = Some r ->
  exists ds tl, ds <> [] /\ all_digits ds = true /\ s = ds ++ tl
                /\ k (mkCursor (last_of ds p) tl ((i, ds) :: g)) = Some r.
Proof.
  intros H. rewrite matches_group, matches_plus in H.
  apply repeated_digits_inv in H.
  destruct H as (ds & tl & Hne & Hd & -> & Hk).
  exists ds, tl. repeat split; try assumption.
  cbn [prev rest groups] in Hk. rewrite consumed_app in Hk. exact Hk.
Qed.

(** Scanning over a stretch in which the pattern cannot begin. *)
Section Headed.

Variables (r : regex) (h : str).
Hypothesis headed :
  forall p s g, starts_with h s = false -> match_at r (mkCursor p s g) = None.

Lemma search_skip (x : str) :
  forall p y, no_start h x y = true ->
              search_from r p (x ++ y) = search_from r (last_of x p) y.
Proof.
  induction x as [|c x IH]; intros p y H; [reflexivity|].
  cbn [no_start] in H. apply andb_prop in H. destruct H as [H1 H2].
  apply negb_true_iff in H1.
  cbn [app search_from]. change (c :: x ++ y) with ((c :: x) ++ y).
  rewrite (headed _ _ _ H1). apply IH. exact H2.
Qed.

Lemma sub_skip repl (x : str) :
  forall p y, no_start h x y = true ->
              sub_from r repl 0 p (x ++ y) = x ++ sub_from r repl 0 (last_of x p) y.
Proof.
  induction x as [|c x IH]; intros p y H; [reflexivity|].
  cbn [no_start] in H. apply andb_prop in H. destruct H as [H1 H2].
  apply negb_true_iff in H1.
  cbn [app sub_from]. change (c :: x ++ y) with ((c :: x) ++ y).
  rewrite (headed _ _ _ H1). cbn [app]. f_equal. apply IH. exact H2.
Qed.

End Headed.

(** Passing over the rest of a match. *)
Lemma sub_pass r repl (w : str) :
  forall p s, sub_from r repl (List.length w) p (w ++ s)
              = sub_from r repl 0 (last_of w p) s.
Proof.
  induction w as [|c w IH]; intros p s.
  - destruct s; reflexivity.
  - cbn [List.length app sub_from]. apply IH.
Qed.

(** Replacing a match that is not empty. *)
Lemma sub_hit r repl p c w tl m :
  match_at r (mkCursor p (c :: w ++ tl) []) = Some m -> rest m = tl ->
  sub_from r repl 0 p (c :: w ++ tl)
  = repl ++ sub_from r repl 0 (last_of (c :: w) p) tl.
Proof.
  intros Hm Hrest. cbn [sub_from]. rewrite Hm, Hrest.
  replace (List.length (c :: w ++ tl) - List.length tl)%nat with (S (List.length w))
    by (cbn [List.length]; rewrite length_app; lia).
  rewrite sub_pass. reflexivity.
Qed.

Lemma sub_hit_app r repl p x tl m :
  x <> [] ->
  match_at r (mkCursor p (x ++ tl) []) = Some m -> rest m = tl ->
  sub_from r repl 0 p (x ++ tl) = repl ++ sub_from r repl 0 (last_of x p) tl.
Proof.
  destruct x as [|c w]; [congruence|]. intros _. apply sub_hit.
Qed.

Lemma search_hit r p s m :
  match_at r (mkCursor p s []) = Some m -> search_from r p s = Some m.
Proof. intros H. destruct s; cbn [search_from]; rewrite H; reflexivity. Qed.

Lemma search_from_inv r (s : str) :
  forall p m, search_from r p s = Some m ->
              exists a b p', s = a ++ b /\ match_at r (mkCursor p' b []) = Some m.
Proof.
  induction s as [|c s IH]; intros p m H; cbn [search_from] in H.
  - destruct (match_at r (mkCursor p [] [])) eqn:E; [|discriminate].
    injection H as ->. exists [], [], p. split; [reflexivity|exact E].
  - destruct (match_at r (mkCursor p (c :: s) [])) eqn:E.
    + injection H as ->. exists [], (c :: s), p. split; [reflexivity|exact E].
    + destruct (IH _ _ H) as (a & b & p' & -> & Hm).
      exists (c :: a), b, p'. split; [reflexivity|exact Hm].
Qed.

(** Only the first [length h] characters decide whether [h] begins a
    string. *)
Lemma starts_with_firstn (h : str) :
  forall a n y, (List.length h <= List.length a + n)%nat ->
                starts_with h (a ++ firstn n y) = starts_with h (a ++ y).
Proof.
  induction h as [|c h IH]; intros a n y Hlen; [reflexivity|].
  destruct a as [|x a].
  - cbn [app]. destruct n as [|n]; [cbn in Hlen; lia|].
    destruct y as [|d y]; [reflexivity|]. cbn [firstn starts_with]. f_equal.
    apply (IH [] n y). cbn in Hlen |- *. lia.
  - cbn [app starts_with]. f_equal. apply IH. cbn in Hlen. lia.
Qed.

Lemma no_start_of_contains h (x : str) :
  forall y, contains h (x ++ firstn (List.length h - 1) y) = false ->
            no_start h x y = true.
Proof.
  induction x as [|c x IH]; intros y H; [reflexivity|].
  cbn [app contains] in H. apply orb_false_elim in H. destruct H as [H1 H2].
  cbn [no_start]. rewrite (IH _ H2), andb_true_r. apply negb_true_iff.
  change (c :: x ++ firstn (List.length h - 1) y)
    with ((c :: x) ++ firstn (List.length h - 1) y) in H1.
  rewrite starts_with_firstn in H1 by (cbn; lia). exact H1.
Qed.

Lemma contains_app_r h (a : str) :
  forall b, contains h (a ++ b) = false -> contains h b = false.
Proof.
  induction a as [|c a IH]; intros b H; [exact H|].
  cbn [app contains] in H. apply orb_false_elim in H. apply IH, H.
Qed.

Lemma no_start_all h x : contains h x = false -> no_start h x [] = true.
Proof.
  intros H. apply no_start_of_contains.
  destruct (List.length h - 1)%nat; cbn; rewrite app_nil_r; exact H.
Qed.

(** The longest run of digits at the start of a string. *)
Lemma leading_digits (s : str) :
  exists ds tl, s = ds ++ tl /\ all_digits ds = true /\ starts_digit tl = false.
Proof.
  induction s as [|c s (ds & tl & -> & Hd & Htl)].
  - exists [], []. repeat split.
  - destruct (is_digit c) eqn:Hc.
    + exists (c :: ds), tl. repeat split; [|exact Htl]. cbn. rewrite Hc. exact Hd.
    + exists [], (c :: ds ++ tl). repeat split. exact Hc.
Qed.

Lemma matches_end_inv k p s g r :
  matches EndOfString k (mkCursor p s g) = Some r ->
  s = [] \/ s = ["010"%char].
Proof.
  cbn [matches rest]. destruct s as [|x [|y s]]; auto.
  - destruct (Ascii.eqb x "010") eqn:E; [|discriminate].
    apply Ascii.eqb_eq in E. subst x. auto.
  - discriminate.
Qed.

(** A pattern that matches nowhere leaves the subject as it is. *)
Lemma sub_no_match r repl (s : str) :
  forall p,
    (forall a b p', s = a ++ b -> match_at r (mkCursor p' b []) = None) ->
    sub_from r repl 0 p s = s.
Proof.
  induction s as [|c s IH]; intros p H.
  - cbn [sub_from]. rewrite (H [] [] p eq_refl). reflexivity.
  - cbn [sub_from]. rewrite (H [] (c :: s) p eq_refl). f_equal.
    apply IH. intros a b p' E. apply (H (c :: a) b p'). rewrite E. reflexivity.
Qed.

End ReFacts.

(** ** Building and translating queries *)

Module BuildQueryFacts.
Import PyStr PyStrFacts Re ReFacts BuildQuery.

Lemma or_clause_shape terms :
  present terms = true ->
  exists body, or_clause terms = "("%char :: body ++ [")"%char].
Proof.
  intros H. unfold or_clause. rewrite H.
  exists (join (lit " OR ") (format_terms (elements terms))). reflexivity.
Qed.

Lemma or_clause_absent terms : present terms = false -> or_clause terms = [].
Proof. intros H. unfold or_clause. rewrite H. reflexivity. Qed.

Lemma strip_parenthesised body :
  strip ("("%char :: body ++ [")"%char]) = "("%char :: body ++ [")"%char].
Proof. apply strip_bounded; reflexivity. Qed.

Lemma truthy_or_clause terms : truthy (or_clause terms) = present terms.
Proof. unfold or_clause. destruct (present terms); reflexivity. Qed.

(** The joined clauses begin and end with a parenthesis, or are empty. *)
Lemma combined_shape sep (c1 c2 : str) :
  (c1 = [] \/ exists b, c1 = "("%char :: b ++ [")"%char]) ->
  (c2 = [] \/ exists b, c2 = "("%char :: b ++ [")"%char]) ->
  join sep (filter truthy [c1; c2]) = []
  \/ exists b, join sep (filter truthy [c1; c2]) = "("%char :: b ++ [")"%char].
Proof.
  intros [-> | [b1 ->]] [-> | [b2 ->]]; cbn [filter truthy join].
  - left. reflexivity.
  - right. eauto.
  - right. eauto.
  - right. exists (b1 ++ [")"%char] ++ sep ++ "("%char :: b2).
    cbn. rewrite <- !app_assoc. cbn. rewrite <- !app_assoc. reflexivity.
Qed.

Lemma or_clause_cases terms :
  or_clause terms = [] \/ exists b, or_clause terms = "("%char :: b ++ [")"%char].
Proof.
  destruct (present terms) eqn:E.
  - right. apply or_clause_shape, E.
  - left. apply or_clause_absent, E.
Qed.

Lemma strip_shape (c : str) :
  (c = [] \/ exists b, c = "("%char :: b ++ [")"%char]) ->
  strip c = c /\ strip (c ++ lit " ") = c /\ strip ((c ++ lit " ") ++ lit " ") = c.
Proof.
  intros [-> | [b ->]]; [repeat split|].
  repeat split.
  - apply strip_parenthesised.
  - apply strip_bounded_spaces; reflexivity.
  - rewrite <- app_assoc. apply strip_bounded_spaces; reflexivity.
Qed.

(** The function, with the [strip] that changes nothing left out. *)
Lemma build_search_query_eq where_ what when :
  build_search_query where_ what when
  = join (lit " AND ") (filter truthy [or_clause where_; or_clause what])
      ++ lit " "
      ++ match when with
         | Some (start_year, end_year) =>
             lit "PUBYEAR AFT " ++ str_of_int start_year
               ++ lit " AND PUBYEAR BEF " ++ str_of_int end_year
         | None => []
         end.
Proof.
  unfold build_search_query. f_equal.
  apply strip_shape, combined_shape; apply or_clause_cases.
Qed.

(** C9. The location clause and the topic clause are joined with [" AND "]
    when both term lists are given and non-empty, one clause stands alone
    when only one is, and the combined clause is empty when neither is;
    each clause is the parenthesised [" OR "]-join of the quoted terms. The
    function has no error result, and with every argument absent it
    returns the two empty clauses around the separating space. *)
Theorem C9_build_search_query_clauses :
  forall (where_ what : option (list str)) (when : option (Z * Z)),
    let combined :=
      if present where_ && present what
      then or_clause where_ ++ lit " AND " ++ or_clause what
      else if present where_ then or_clause where_
      else if present what then or_clause what
      else [] in
    let when_clause :=
      match when with
      | Some (start_year, end_year) =>
          lit "PUBYEAR AFT " ++ str_of_int start_year
            ++ lit " AND PUBYEAR BEF " ++ str_of_int end_year
      | None => []
      end in
    build_search_query where_ what when = combined ++ lit " " ++ when_clause
    /\ (forall term terms,
          or_clause (Some (term :: terms))
          = lit "(" ++ join (lit " OR ") (map add_quotes (term :: terms)) ++ lit ")")
    /\ build_search_query None None None = lit " "
    /\ build_search_query (Some []) (Some []) None = lit " ".
Proof.
  intros where_ what when combined when_clause.
  split; [|split; [|split]]; try reflexivity.
  rewrite build_search_query_eq. fold when_clause. f_equal. subst combined.
  cbn [filter]. rewrite !truthy_or_clause.
  destruct (present where_) eqn:Hw, (present what) eqn:Ht; cbn [andb join];
    reflexivity.
Qed.

(** C8. The translation raises exactly when the lower-cased identifier is
    none of [google_scholar], [wos] and [scopus]; the error the code raises
    is a [ValueError] that names the identifier. *)
Theorem C8_unsupported_database :
  forall combined_query database : str,
    let recognised :=
      eqb (lower database) (lit "google_scholar")
      || eqb (lower database) (lit "wos")
      || eqb (lower database) (lit "scopus") in
    (recognised = false ->
       convert_query_for_database combined_query database
       = ValueError (unsupported database))
    /\ (recognised = true ->
        exists translated,
          convert_query_for_database combined_query database = Ok translated)
    /\ convert_query_for_database combined_query (lit "unknown")
       = ValueError (unsupported (lit "unknown"))
    /\ (exists t1 t2 t3,
          convert_query_for_database combined_query (lit "Google_Scholar") = Ok t1
          /\ convert_query_for_database combined_query (lit "WOS") = Ok t2
          /\ convert_query_for_database combined_query (lit "Scopus") = Ok t3).
Proof.
  intros combined_query database recognised. subst recognised.
  unfold convert_query_for_database.
  split; [|split; [|split]].
  - intros H. apply orb_false_elim in H. destruct H as [H H3].
    apply orb_false_elim in H. destruct H as [H1 H2].
    rewrite H1, H2, H3. reflexivity.
  - intros H.
    destruct (eqb (lower database) (lit "google_scholar")); [eauto|].
    destruct (eqb (lower database) (lit "wos")); [eauto|].
    destruct (eqb (lower database) (lit "scopus")); [eauto|discriminate].
  - reflexivity.
  - do 3 eexists. repeat split; reflexivity.
Qed.

Lemma is_year_digits s : is_year s = true -> s <> [] /\ all_digits s = true.
Proof. destruct s; [discriminate|]. intros H. split; [discriminate|exact H]. Qed.

Lemma year_range_headless p s g :
  starts_with (lit "PUBYEAR AFT ") s = false ->
  match_at year_range_pattern (mkCursor p s g) = None.
Proof.
  intros H. unfold match_at, year_range_pattern. rewrite matches_seq.
  apply matches_chars_fail. exact H.
Qed.

(** The pattern matches a year clause, up to the end of its digits. *)
Lemma year_range_match p s e tl g :
  is_year s = true -> is_year e = true -> starts_digit tl = false ->
  exists p',
    match_at year_range_pattern (mkCursor p (year_clause s e ++ tl) g)
    = Some (mkCursor p' tl ((2%nat, e) :: (1%nat, s) :: g)).
Proof.
  intros Hs He Htl.
  apply is_year_digits in Hs. destruct Hs as [Hs1 Hs2].
  apply is_year_digits in He. destruct He as [He1 He2].
  eexists. unfold match_at, year_range_pattern, year_clause.
  rewrite <- !app_assoc.
  rewrite matches_seq, matches_chars, matches_seq.
  apply group_digits_greedy; [assumption|assumption|reflexivity|].
  rewrite matches_seq, matches_chars.
  apply group_digits_greedy; [assumption|assumption|assumption|].
  reflexivity.
Qed.

(** What the pattern matches is a year clause, and the groups are its years. *)
Lemma year_range_match_inv p q g m :
  match_at year_range_pattern (mkCursor p q g) = Some m ->
  exists s e tl, is_year s = true /\ is_year e = true /\ q = year_clause s e ++ tl
                 /\ groups m = (2%nat, e) :: (1%nat, s) :: g.
Proof.
  unfold match_at, year_range_pattern. rewrite matches_seq. intros H.
  apply matches_chars_inv in H. destruct H as (t1 & -> & H).
  rewrite matches_seq in H. apply group_digits_inv in H.
  destruct H as (s & t2 & Hs1 & Hs2 & -> & H).
  rewrite matches_seq in H. apply matches_chars_inv in H.
  destruct H as (t3 & -> & H).
  apply group_digits_inv in H. destruct H as (e & tl & He1 & He2 & -> & Hm).
  injection Hm as <-.
  exists s, e, tl. unfold year_clause. rewrite <- !app_assoc.
  repeat split; unfold is_year.
  - destruct s; [congruence|assumption].
  - destruct e; [congruence|assumption].
Qed.

Lemma convert_scopus q :
  convert_query_for_database q (lit "scopus")
  = Ok (replace_years_with_scopus_format q).
Proof. reflexivity. Qed.

Lemma is_year_app e ds : is_year e = true -> all_digits ds = true -> is_year (e ++ ds) = true.
Proof.
  destruct e as [|c e]; [discriminate|]. cbn [is_year app]. intros He Hd.
  unfold all_digits in *. change (c :: e ++ ds) with ((c :: e) ++ ds).
  rewrite forallb_app, He, Hd. reflexivity.
Qed.

Lemma year_clause_nonempty s e : year_clause s e <> [].
Proof. unfold year_clause. cbn. discriminate. Qed.

(** The Scopus rewriting of a query whose only [PUBYEAR AFT ] begins its
    year clause, the clause ending where its digits end. *)
Lemma scopus_rewrites_clause pre s e tl :
  is_year s = true -> is_year e = true -> starts_digit tl = false ->
  contains (lit "PUBYEAR AFT ") (pre ++ lit "PUBYEAR AFT") = false ->
  contains (lit "PUBYEAR AFT ") tl = false ->
  replace_years_with_scopus_format (pre ++ year_clause s e ++ tl)
  = pre ++ scopus_clause s e ++ tl.
Proof.
  intros Hs He Htl Hpre Hpost.
  assert (Hskip : no_start (lit "PUBYEAR AFT ") pre (year_clause s e ++ tl) = true).
  { apply no_start_of_contains. exact Hpre. }
  destruct (year_range_match (last_of pre None) s e tl [] Hs He Htl) as [p' Hm].
  unfold replace_years_with_scopus_format, search.
  rewrite (search_skip _ _ year_range_headless _ _ _ Hskip).
  rewrite (search_hit _ _ _ _ Hm).
  unfold groups2. cbn [groups group Nat.eqb].
  unfold sub. rewrite (sub_skip _ _ year_range_headless _ _ _ _ Hskip).
  rewrite (sub_hit_app _ _ _ _ _ _ (year_clause_nonempty s e) Hm eq_refl).
  rewrite <- (app_nil_r tl) at 1.
  rewrite (sub_skip _ _ year_range_headless _ _ _ _ (no_start_all _ _ Hpost)).
  cbn [sub_from]. rewrite year_range_headless by reflexivity.
  rewrite app_nil_r. reflexivity.
Qed.

(** X21. The replacement the code makes for Scopus. A year clause that is
    the only place where [PUBYEAR AFT ] occurs is replaced, where it stands,
    by [AND PUBYEAR > s AND PUBYEAR < e], and the text before and after it
    is kept as it is; a query that holds no year clause is returned as it
    is. *)
Theorem X21_scopus_year_clause_in_place :
  (forall pre s e post,
      is_year s = true -> is_year e = true ->
      contains (lit "PUBYEAR AFT ") (pre ++ lit "PUBYEAR AFT") = false ->
      contains (lit "PUBYEAR AFT ") post = false ->
      convert_query_for_database (pre ++ year_clause s e ++ post) (lit "scopus")
      = Ok (pre ++ scopus_clause s e ++ post))
  /\ (forall q,
        (forall pre s e post,
            is_year s = true -> is_year e = true -> q <> pre ++ year_clause s e ++ post) ->
        convert_query_for_database q (lit "scopus") = Ok q).
Proof.
  split.
  - intros pre s e post Hs He Hpre Hpost. rewrite convert_scopus. f_equal.
    destruct (leading_digits post) as (ds & tl & -> & Hds & Htl).
    replace (pre ++ year_clause s e ++ ds ++ tl)
      with (pre ++ year_clause s (e ++ ds) ++ tl)
      by (unfold year_clause; rewrite <- !app_assoc; reflexivity).
    rewrite scopus_rewrites_clause; try assumption.
    + unfold scopus_clause. rewrite <- !app_assoc. reflexivity.
    + apply is_year_app; assumption.
    + apply (contains_app_r _ ds). exact Hpost.
  - intros q Hq. rewrite convert_scopus. f_equal.
    unfold replace_years_with_scopus_format, search.
    destruct (search_from year_range_pattern None q) as [m|] eqn:E; [|reflexivity].
    exfalso. apply search_from_inv in E. destruct E as (a & b & p' & -> & Hm).
    apply year_range_match_inv in Hm. destruct Hm as (s & e & tl & Hs & He & -> & _).
    exact (Hq a s e tl Hs He eq_refl).
Qed.

(** *** The Scholar translation *)

Lemma year_clause_headless p s g :
  starts_with (lit "PUBYEAR ") s = false ->
  match_at year_clause_pattern (mkCursor p s g) = None.
Proof.
  intros H. unfold match_at, year_clause_pattern.
  rewrite matches_seq, matches_boundary.
  destruct (xorb _ _); [|reflexivity].
  rewrite matches_seq. apply matches_chars_fail. exact H.
Qed.

(** [(AFT \d+|BEF \d+|=\d+)] on [AFT ] or [BEF ] and all the digits that
    follow. *)
Lemma year_bound_match i kw ds tl k p g r :
  kw = lit "AFT " \/ kw = lit "BEF " ->
  ds <> [] -> all_digits ds = true -> starts_digit tl = false ->
  k (mkCursor (last_of ds (Some " "%char)) tl ((i, kw ++ ds) :: g)) = Some r ->
  matches (year_bound i) k (mkCursor p (kw ++ ds ++ tl) g) = Some r.
Proof.
  intros Hkw Hne Hd Htl Hk. unfold year_bound.
  rewrite matches_group, matches_alt.
  assert (Hc : consumed (mkCursor p (kw ++ ds ++ tl) g)
                 (mkCursor (last_of ds (Some " "%char)) tl g) = kw ++ ds).
  { rewrite app_assoc. apply consumed_app. }
  destruct Hkw as [-> | ->].
  - rewrite matches_seq, matches_chars, matches_plus.
    rewrite (repeated_digits_greedy ds _ _ _ tl g r); try assumption.
    + reflexivity.
    + cbn [rest]. rewrite length_app. lia.
    + cbn [prev rest groups last_of fold_left lit list_ascii_of_string].
      cbn [prev rest groups last_of fold_left lit list_ascii_of_string] in Hc.
      rewrite Hc. exact Hk.
  - rewrite matches_seq, matches_chars_fail by reflexivity. cbn [or_else].
    rewrite matches_alt, matches_seq, matches_chars, matches_plus.
    rewrite (repeated_digits_greedy ds _ _ _ tl g r); try assumption.
    + reflexivity.
    + cbn [rest]. rewrite length_app. lia.
    + cbn [prev rest groups last_of fold_left lit list_ascii_of_string].
      cbn [prev rest groups last_of fold_left lit list_ascii_of_string] in Hc.
      rewrite Hc. exact Hk.
Qed.





Lemma add_quotes_free w t :
  w <> [] -> alien w quote = true -> contains w t = false ->
  contains w (add_quotes t) = false.
Proof.
  intros Hw Hq Ht. unfold add_quotes.
  destruct (contains (lit "*") t); [exact Ht|].
  change (quote :: t ++ [quote]) with ([quote] ++ t ++ [quote]).
  apply contains_cons_aliens; [exact Hw|cbn; rewrite Hq; reflexivity|].
  apply contains_snoc_aliens; [exact Hw|cbn; rewrite Hq; reflexivity|exact Ht].
Qed.

Lemma format_terms_free w terms :
  w <> [] -> alien w quote = true ->
  Forall (fun t => contains w t = false) terms ->
  Forall (fun f => contains w f = false) (format_terms terms).
Proof.
  intros Hw Hq H. unfold format_terms. apply Forall_map.
  apply (Forall_impl _ (fun t => add_quotes_free w t Hw Hq) H).
Qed.

Lemma parenthesised_free w body :
  w <> [] -> alien w "("%char = true -> alien w ")"%char = true ->
  contains w body = false -> contains w (lit "(" ++ body ++ lit ")") = false.
Proof.
  intros Hw Ho Hc Hb.
  apply contains_cons_aliens; [exact Hw|cbn; rewrite Ho; reflexivity|].
  apply contains_snoc_aliens; [exact Hw|cbn; rewrite Hc; reflexivity|exact Hb].
Qed.

(** *** Words between spaces *)











(** *** Clauses of terms in which no operator stands alone *)


















Lemma is_year_decimal n : is_year (decimal n) = true.
Proof.
  destruct (decimal_digits n) as [Hne Hd]. unfold is_year.
  destruct (decimal n); [congruence|exact Hd].
Qed.

(** Removing the year clause after clauses that do not hold [PUBYEAR]. *)
Lemma sub_after_clauses (c : str) tail :
  contains (lit "PUBYEAR") c = false ->
  sub year_clause_pattern [] ((c ++ lit " ") ++ tail)
  = (c ++ lit " ") ++ sub_from year_clause_pattern [] 0 (Some " "%char) tail.
Proof.
  intros Hc. unfold sub.
  rewrite (sub_skip _ _ year_clause_headless [] (c ++ lit " ") None tail).
  - rewrite last_of_app. reflexivity.
  - apply (no_start_closed (lit "PUBYEAR") (lit " ") " "%char c tail);
      [discriminate|exact Hc|reflexivity].
Qed.




Lemma X21_witness :
  convert_query_for_database
    (lit "(x) " ++ year_clause (lit "2018") (lit "2022") ++ lit " AND (y)") (lit "scopus")
  = Ok (lit "(x) " ++ scopus_clause (lit "2018") (lit "2022") ++ lit " AND (y)").
Proof.
  apply (proj1 X21_scopus_year_clause_in_place); reflexivity.
Defined.

Lemma C8_witness :
  convert_query_for_database (lit "(x)") (lit "unknown")
  = ValueError (unsupported (lit "unknown")).
Proof.
  exact (proj1 (C8_unsupported_database (lit "(x)") (lit "unknown")) eq_refl).
Defined.

(** *** The trailing operators *)

(** A match of [( AND | OR )+$] begins where the rest of the subject ends
    with a space, or with a space and a final newline. *)
Lemma trailing_operators_rounds k0 fuel :
  forall p s g r,
    repeated (matches (Group 1 (Alt (chars (lit " AND ")) (chars (lit " OR ")))))
      (matches EndOfString k0) fuel (mkCursor p s g) = Some r ->
    exists w, s = w ++ [" "%char] \/ s = w ++ [" "%char; "010"%char].
Proof.
  induction fuel as [|fuel IH]; intros p s g r H; [discriminate|].
  rewrite repeated_S, matches_group, matches_alt in H.
  assert (Hround : forall op,
    (exists o, op = o ++ [" "%char]) ->
    matches (chars op)
      (fun st' =>
         or_else
           (if moved (mkCursor p s g)
                 (mkCursor (prev st') (rest st')
                    ((1%nat, consumed (mkCursor p s g) st') :: groups st'))
            then repeated
                   (matches (Group 1 (Alt (chars (lit " AND ")) (chars (lit " OR ")))))
                   (matches EndOfString k0) fuel
                   (mkCursor (prev st') (rest st')
                      ((1%nat, consumed (mkCursor p s g) st') :: groups st'))
            else None)
           (matches EndOfString k0
              (mkCursor (prev st') (rest st')
                 ((1%nat, consumed (mkCursor p s g) st') :: groups st'))))
      (mkCursor p s g) = Some r ->
    exists w, s = w ++ [" "%char] \/ s = w ++ [" "%char; "010"%char]).
  { intros op [o ->] Hm. apply matches_chars_inv in Hm.
    destruct Hm as (tl & -> & Hk). cbn [prev rest groups] in Hk.
    destruct (if moved _ _ then _ else None) as [r'|] eqn:E.
    - destruct (moved _ _); [|discriminate].
      destruct (IH _ _ _ _ E) as [w [-> | ->]].
      + exists ((o ++ [" "%char]) ++ w). left. rewrite <- !app_assoc. reflexivity.
      + exists ((o ++ [" "%char]) ++ w). right. rewrite <- !app_assoc. reflexivity.
    - cbn [or_else] in Hk. apply matches_end_inv in Hk. destruct Hk as [-> | ->].
      + exists o. left. rewrite app_nil_r. reflexivity.
      + exists o. right. rewrite <- app_assoc. reflexivity. }
  destruct (matches (chars (lit " AND ")) _ _) as [r1|] eqn:E1.
  - cbn [or_else] in H. injection H as ->.
    apply (Hround (lit " AND ")); [exists (lit " AND"); reflexivity|exact E1].
  - cbn [or_else] in H.
    apply (Hround (lit " OR ")); [exists (lit " OR"); reflexivity|exact H].
Qed.

Lemma trailing_operators_match_inv p s g m :
  match_at trailing_operators (mkCursor p s g) = Some m ->
  exists x c, s = x ++ [c] /\ is_space c = true.
Proof.
  unfold match_at, trailing_operators. rewrite matches_seq, matches_plus. intros H.
  apply trailing_operators_rounds in H. destruct H as [w [-> | ->]].
  - exists w, " "%char. split; reflexivity.
  - exists (w ++ [" "%char]), "010"%char. split; [|reflexivity].
    rewrite <- app_assoc. reflexivity.
Qed.

(** After [strip] the pattern of [clean_boolean_query] matches nowhere: the
    function is [strip]. *)
Lemma clean_boolean_query_is_strip query :
  clean_boolean_query query = strip query.
Proof.
  unfold clean_boolean_query, sub. apply sub_no_match. intros a b p' E.
  destruct (match_at trailing_operators (mkCursor p' b [])) as [m|] eqn:Hm;
    [|reflexivity].
  exfalso. apply trailing_operators_match_inv in Hm.
  destruct Hm as (x & c & -> & Hc).
  rewrite app_assoc in E. apply strip_last in E. congruence.
Qed.

(** *** The Web of Science translation *)

Lemma strip_py s e :
  is_year e = true ->
  strip (lit "PY=" ++ s ++ lit "-" ++ e) = lit "PY=" ++ s ++ lit "-" ++ e.
Proof.
  intros He. apply is_year_digits in He. destruct He as [He1 He2].
  destruct (digits_last e He1 He2) as (x & c & -> & Hc).
  replace (lit "PY=" ++ s ++ lit "-" ++ x ++ [c])
    with ("P"%char :: (lit "Y=" ++ s ++ lit "-" ++ x) ++ [c])
    by (cbn; rewrite <- !app_assoc; reflexivity).
  apply strip_bounded; [reflexivity|apply is_space_digit, Hc].
Qed.

Lemma strip_ts_py body s e :
  is_year e = true ->
  strip ((lit "TS=(" ++ body ++ lit ")") ++ lit " AND " ++ lit "PY=" ++ s ++ lit "-" ++ e)
  = (lit "TS=(" ++ body ++ lit ")") ++ lit " AND " ++ lit "PY=" ++ s ++ lit "-" ++ e.
Proof.
  intros He. apply is_year_digits in He. destruct He as [He1 He2].
  destruct (digits_last e He1 He2) as (x & c & -> & Hc).
  replace ((lit "TS=(" ++ body ++ lit ")") ++ lit " AND " ++ lit "PY=" ++ s ++ lit "-" ++ x ++ [c])
    with ("T"%char :: (lit "S=(" ++ body ++ lit ")" ++ lit " AND " ++ lit "PY=" ++ s
                          ++ lit "-" ++ x) ++ [c])
    by (cbn; rewrite <- !app_assoc; cbn; rewrite <- !app_assoc; reflexivity).
  apply strip_bounded; [reflexivity|apply is_space_digit, Hc].
Qed.

Lemma extract_year_query_wos_cases q :
  extract_year_query_wos q = None
  \/ exists s e, is_year s = true /\ is_year e = true
                  /\ extract_year_query_wos q = Some (lit "PY=" ++ s ++ lit "-" ++ e).
Proof.
  unfold extract_year_query_wos, search.
  destruct (search_from year_range_pattern None q) as [m|] eqn:E; [right|left; reflexivity].
  apply search_from_inv in E. destruct E as (a & b & p' & -> & Hm).
  apply year_range_match_inv in Hm. destruct Hm as (s & e & tl & Hs & He & _ & Hg).
  exists s, e. repeat split; try assumption.
  unfold groups2. rewrite Hg. reflexivity.
Qed.

Lemma convert_wos q :
  convert_query_for_database q (lit "wos")
  = let term_query := extract_term_query q in
    let year_query := extract_year_query_wos q in
    let term_query := if truthy term_query then clean_boolean_query term_query else [] in
    let year_query :=
      match year_query with
      | Some y => if truthy y then clean_boolean_query y else []
      | None => []
      end in
    let wos_query :=
      if truthy term_query && truthy year_query
      then term_query ++ lit " AND " ++ year_query
      else if truthy term_query then term_query
      else if truthy year_query then year_query
      else [] in
    Ok (clean_boolean_query wos_query).
Proof. reflexivity. Qed.

(** X16. The Web of Science translation of any query: the term half is
    always there, wrapped, and the year half follows it when the query holds a
    year clause. It is never the year half alone and never empty. *)
Lemma wos_translation_shape q :
  exists year_part,
    convert_query_for_database q (lit "wos")
    = Ok ((lit "TS=(" ++ remove_year_clause q ++ lit ")") ++ year_part)
    /\ (year_part = []
        \/ exists s e, is_year s = true /\ is_year e = true
                        /\ year_part = lit " AND " ++ lit "PY=" ++ s ++ lit "-" ++ e).
Proof.
  set (T := lit "TS=(" ++ remove_year_clause q ++ lit ")").
  assert (HsT : strip T = T).
  { subst T.
    change (lit "TS=(" ++ remove_year_clause q ++ lit ")")
      with ("T"%char :: (lit "S=(" ++ remove_year_clause q) ++ [")"%char]).
    apply strip_bounded; reflexivity. }
  assert (HT : truthy T = true) by reflexivity.
  rewrite convert_wos. cbv zeta. unfold extract_term_query. fold T.
  rewrite (clean_boolean_query_is_strip T), HsT, HT.
  rewrite (clean_boolean_query_is_strip T), HsT, HT.
  destruct (extract_year_query_wos_cases q) as [E | (s & e & Hs & He & E)]; rewrite E.
  - exists []. split; [|left; reflexivity].
    cbn [truthy andb]. rewrite clean_boolean_query_is_strip, HsT, app_nil_r.
    reflexivity.
  - exists (lit " AND " ++ lit "PY=" ++ s ++ lit "-" ++ e). split; [|right; eauto].
    assert (HY : truthy (lit "PY=" ++ s ++ lit "-" ++ e) = true) by reflexivity.
    rewrite HY, (clean_boolean_query_is_strip (lit "PY=" ++ s ++ lit "-" ++ e)).
    rewrite strip_py by exact He. rewrite HY. cbn [andb].
    rewrite clean_boolean_query_is_strip. f_equal.
    apply (strip_ts_py (remove_year_clause q) s e He).
Qed.

(** C4, at a query that ends in an operator. [strip] takes the final
    space away before the pattern [( AND | OR )+$], which needs that space,
    is tried: the operator stays, where the specification has it removed. *)
Theorem C4_trailing_operator_kept :
  clean_boolean_query (lit "cats AND ") = lit "cats AND"
  /\ clean_boolean_query (lit "cats AND  OR ") = lit "cats AND  OR"
  /\ sub trailing_operators [] (lit "cats AND  OR ") = lit "cats"
  /\ convert_query_for_database (lit "cats AND ") (lit "wos") = Ok (lit "TS=(cats AND)")
  /\ convert_query_for_database (lit "cats AND ") (lit "scopus") = Ok (lit "cats AND ").
Proof. repeat split; vm_compute; reflexivity. Qed.

(** C5, at queries without terms. The term half is [TS=()] even when
    there are no terms, so it is never empty: a query with only a year
    range gives [TS=() AND PY=2018-2022] where the specification has the year half
    alone, and the empty query gives [TS=()] where the specification has the empty
    string. *)
Theorem C5_empty_term_half_is_wrapped :
  build_search_query None None (Some (2018, 2022))
    = lit " PUBYEAR AFT 2018 AND PUBYEAR BEF 2022"
  /\ convert_query_for_database (build_search_query None None (Some (2018, 2022))) (lit "wos")
     = Ok (lit "TS=() AND PY=2018-2022")
  /\ convert_query_for_database [] (lit "wos") = Ok (lit "TS=()")
  /\ convert_query_for_database (build_search_query None None None) (lit "wos")
     = Ok (lit "TS=()").
Proof. repeat split; vm_compute; reflexivity. Qed.

(** C6, at the claim's own example. The docstring of
    [replace_years_with_scopus_format] has the clause converted to
    [PUBYEAR > x AND PUBYEAR < y]; the code puts [AND] before it, whatever
    stands before the clause. The year clause alone becomes
    [AND PUBYEAR > 2018 AND PUBYEAR < 2022], a query built from years only
    begins with [ AND], and after a term clause the [AND] is there as
    well. *)
Theorem C6_scopus_clause_gets_leading_AND :
  convert_query_for_database (lit "PUBYEAR AFT 2018 AND PUBYEAR BEF 2022") (lit "scopus")
  = Ok (lit "AND PUBYEAR > 2018 AND PUBYEAR < 2022")
  /\ convert_query_for_database (lit "PUBYEAR AFT 2018 AND PUBYEAR BEF 2022") (lit "scopus")
     <> Ok (lit "PUBYEAR > 2018 AND PUBYEAR < 2022")
  /\ convert_query_for_database (build_search_query None None (Some (2018, 2022)))
       (lit "scopus")
     = Ok (lit " AND PUBYEAR > 2018 AND PUBYEAR < 2022")
  /\ convert_query_for_database
       (build_search_query (Some [lit "Dublin"]) None (Some (2018, 2022))) (lit "scopus")
     = Ok (lit "(" ++ [quote] ++ lit "Dublin" ++ [quote] ++ lit ") "
             ++ lit "AND PUBYEAR > 2018 AND PUBYEAR < 2022").
Proof. repeat split; vm_compute; try reflexivity. discriminate. Qed.


End BuildQueryFacts.

(** ** Balanced parentheses *)

Module BalanceFacts.
Import PyStr PyStrFacts Balance.

Lemma opens_cons c q :
  opens (c :: q) = ((if Ascii.eqb c "(" then 1 else 0) + opens q)%nat.
Proof.
  unfold opens. cbn [count_occ].
  destruct (ascii_dec c "(") as [->|Hne]; [reflexivity|].
  apply Ascii.eqb_neq in Hne. rewrite Hne. reflexivity.
Qed.

Lemma closes_cons c q :
  closes (c :: q) = ((if Ascii.eqb c ")" then 1 else 0) + closes q)%nat.
Proof.
  unfold closes. cbn [count_occ].
  destruct (ascii_dec c ")") as [->|Hne]; [reflexivity|].
  apply Ascii.eqb_neq in Hne. rewrite Hne. reflexivity.
Qed.

(** The scan with a stack of any height, in terms of the two counts. *)
Lemma scan_counts (q : str) :
  forall stack,
    scan stack q = true <->
    (forall n, (closes (firstn n q) <= List.length stack + opens (firstn n q))%nat)
    /\ (List.length stack + opens q = closes q)%nat.
Proof.
  induction q as [|c q IH]; intros stack.
  - cbn [scan]. split.
    + destruct stack; [|discriminate]. intros _. split; [|reflexivity].
      intros n. rewrite firstn_nil. cbn. lia.
    + intros [_ H]. destruct stack; [reflexivity|cbn in H; lia].
  - cbn [scan]. rewrite opens_cons, closes_cons.
    destruct (Ascii.eqb c "(") eqn:Eo.
    + apply Ascii.eqb_eq in Eo. subst c. change (Ascii.eqb "(" ")") with false.
      rewrite IH. cbn [List.length]. split; intros [H1 H2]; split; try lia.
      * intros [|n]; [cbn; lia|]. cbn [firstn]. rewrite opens_cons, closes_cons.
        cbn. specialize (H1 n). lia.
      * intros n. specialize (H1 (S n)). cbn [firstn] in H1.
        rewrite opens_cons, closes_cons in H1. cbn in H1. lia.
    + destruct (Ascii.eqb c ")") eqn:Ec.
      * destruct stack as [|x stack].
        -- split; [discriminate|]. intros [H1 _]. specialize (H1 1%nat).
           cbn [firstn] in H1. rewrite opens_cons, closes_cons, Eo, Ec in H1.
           cbn in H1. lia.
        -- rewrite IH. cbn [List.length]. split; intros [H1 H2]; split; try lia.
           ++ intros [|n]; [cbn; lia|]. cbn [firstn].
              rewrite opens_cons, closes_cons, Eo, Ec. specialize (H1 n). lia.
           ++ intros n. specialize (H1 (S n)). cbn [firstn] in H1.
              rewrite opens_cons, closes_cons, Eo, Ec in H1. lia.
      * rewrite IH. split; intros [H1 H2]; split; try lia.
        -- intros [|n]; [cbn; lia|]. cbn [firstn].
           rewrite opens_cons, closes_cons, Eo, Ec. specialize (H1 n). lia.
        -- intros n. specialize (H1 (S n)). cbn [firstn] in H1.
           rewrite opens_cons, closes_cons, Eo, Ec in H1. lia.
Qed.

(** X1. [check_parentheses_balance] holds exactly when no prefix of the
    query closes more parentheses than it opens and the whole query opens as
    many as it closes. *)
Theorem X1_balance_by_counts :
  forall query : str,
    check_parentheses_balance query = true <->
    (forall n, (closes (firstn n query) <= opens (firstn n query))%nat)
    /\ opens query = closes query.
Proof.
  intros query. unfold check_parentheses_balance.
  rewrite scan_counts. cbn [List.length]. reflexivity.
Qed.

(** A balanced stretch takes the stack back to where it was. *)
Lemma scan_balanced_prefix (a : str) :
  forall s1 stack b,
    scan s1 a = true -> scan (s1 ++ stack) (a ++ b) = scan stack b.
Proof.
  induction a as [|c a IH]; intros s1 stack b H.
  - destruct s1; [reflexivity|discriminate].
  - cbn [scan app] in H |- *.
    destruct (Ascii.eqb c "(").
    + apply (IH (c :: s1)). exact H.
    + destruct (Ascii.eqb c ")").
      * destruct s1 as [|x s1]; [discriminate|]. cbn [app]. apply IH. exact H.
      * apply IH. exact H.
Qed.

Lemma scan_no_parentheses (x : str) :
  forall stack y, no_parentheses x = true -> scan stack (x ++ y) = scan stack y.
Proof.
  induction x as [|c x IH]; intros stack y H; [reflexivity|].
  cbn in H. apply andb_prop in H. destruct H as [Hc Hx].
  apply andb_prop in Hc. destruct Hc as [Ho Hc].
  apply negb_true_iff in Ho. apply negb_true_iff in Hc.
  cbn [app scan]. rewrite Ho, Hc. apply IH, Hx.
Qed.

(** X2. Balanced pieces compose: after a balanced piece the check goes on as
    if the piece were not there, so the concatenation of two balanced queries
    is balanced, and a balanced query stays balanced inside a pair of
    parentheses. *)
Theorem X2_balance_composes :
  forall a b : str,
    check_parentheses_balance a = true ->
    check_parentheses_balance (a ++ b) = check_parentheses_balance b
    /\ check_parentheses_balance (lit "(" ++ a ++ lit ")" ++ b)
       = check_parentheses_balance b.
Proof.
  intros a b Ha. unfold check_parentheses_balance in *. split.
  - apply (scan_balanced_prefix a [] [] b Ha).
  - change (scan [] (lit "(" ++ a ++ lit ")" ++ b))
      with (scan ([] ++ ["("%char]) (a ++ ")"%char :: b)).
    rewrite (scan_balanced_prefix a [] ["("%char] (")"%char :: b) Ha).
    reflexivity.
Qed.

Lemma X2_witness :
  check_parentheses_balance (lit "(a OR b)" ++ lit " AND (c")
  = check_parentheses_balance (lit " AND (c")
  /\ check_parentheses_balance (lit "(" ++ lit "(a OR b)" ++ lit ")" ++ lit " AND (c")
     = check_parentheses_balance (lit " AND (c").
Proof. apply (X2_balance_composes (lit "(a OR b)") (lit " AND (c")). reflexivity. Defined.

Lemma scan_filter (q : str) :
  forall stack,
    scan stack (filter (fun c => Ascii.eqb c "(" || Ascii.eqb c ")") q) = scan stack q.
Proof.
  induction q as [|c q IH]; intros stack; [reflexivity|].
  cbn [filter scan].
  destruct (Ascii.eqb c "(") eqn:Eo; cbn [orb].
  - cbn [scan]. rewrite Eo. apply IH.
  - destruct (Ascii.eqb c ")") eqn:Ec.
    + cbn [scan]. rewrite Eo, Ec. destruct stack; [reflexivity|apply IH].
    + apply IH.
Qed.

(** X3. Only the parentheses count: the check gives the same answer on the
    query and on the query with every other character taken out, and an early
    closing parenthesis makes it fail whatever follows. *)
Theorem X3_balance_ignores_other_characters :
  forall query : str,
    check_parentheses_balance
      (filter (fun c => Ascii.eqb c "(" || Ascii.eqb c ")") query)
    = check_parentheses_balance query
    /\ (forall plain_text rest,
          no_parentheses plain_text = true ->
          check_parentheses_balance (plain_text ++ lit ")" ++ rest) = false).
Proof.
  intros query. split.
  - apply scan_filter.
  - intros plain_text rest H. unfold check_parentheses_balance.
    rewrite scan_no_parentheses by exact H. reflexivity.
Qed.

End BalanceFacts.

(** ** Translations of built queries *)

Module TranslationFacts.
Import PyStr PyStrFacts Re ReFacts BuildQuery BuildQueryFacts BuiltQuery.

(** Parts that do not hold [w], joined by an operator between spaces, do not
    hold [w] when the operator does not. *)
Lemma join_free_spaced w op (parts : list str) :
  w <> [] -> alien w " "%char = true -> contains w op = false ->
  Forall (fun f => contains w f = false) parts ->
  contains w (join (" "%char :: op ++ lit " ") parts) = false.
Proof.
  intros Hw Hsp Hop. induction parts as [|f parts IH]; intros H.
  - apply contains_nil, Hw.
  - apply Forall_cons_iff in H. destruct H as [Hf Hps].
    destruct parts as [|f2 parts]; [exact Hf|].
    change (join (" "%char :: op ++ lit " ") (f :: f2 :: parts))
      with (f ++ (" "%char :: op ++ lit " ")
              ++ join (" "%char :: op ++ lit " ") (f2 :: parts)).
    replace ((" "%char :: op ++ lit " ") ++ join (" "%char :: op ++ lit " ") (f2 :: parts))
      with (lit " " ++ op ++ lit " " ++ join (" "%char :: op ++ lit " ") (f2 :: parts))
      by (cbn [lit list_ascii_of_string app]; rewrite <- app_assoc; reflexivity).
    apply contains_sep; try assumption; try discriminate.
    + cbn. rewrite Hsp. reflexivity.
    + apply contains_sep; try assumption; try discriminate.
      * cbn. rewrite Hsp. reflexivity.
      * apply IH, Hps.
Qed.

Lemma free_of_terms w terms :
  free_of w terms = true ->
  Forall (fun t => contains w t = false) (elements terms).
Proof.
  unfold free_of. intros H. rewrite forallb_forall in H.
  apply Forall_forall. intros t Ht. apply negb_true_iff, H, Ht.
Qed.

Lemma or_clause_free_pubyear terms :
  free_of (lit "PUBYEAR") terms = true ->
  contains (lit "PUBYEAR") (or_clause terms) = false.
Proof.
  intros H. apply free_of_terms in H.
  unfold or_clause. destruct (present terms); [|reflexivity].
  apply parenthesised_free; try reflexivity; [discriminate|].
  apply (join_free_spaced (lit "PUBYEAR") (lit "OR")); try reflexivity; [discriminate|].
  apply format_terms_free; [discriminate|reflexivity|exact H].
Qed.

Lemma combined_free_pubyear where_ what :
  free_of (lit "PUBYEAR") where_ = true -> free_of (lit "PUBYEAR") what = true ->
  contains (lit "PUBYEAR") (combined_clause where_ what) = false.
Proof.
  intros Hw Ht. unfold combined_clause.
  apply (join_free_spaced (lit "PUBYEAR") (lit "AND")); try reflexivity; [discriminate|].
  pose proof (or_clause_free_pubyear _ Hw). pose proof (or_clause_free_pubyear _ Ht).
  cbn [filter].
  destruct (truthy (or_clause where_)), (truthy (or_clause what));
    repeat constructor; assumption.
Qed.

Lemma combined_strip where_ what :
  strip (combined_clause where_ what) = combined_clause where_ what
  /\ strip (combined_clause where_ what ++ lit " ") = combined_clause where_ what.
Proof.
  destruct (strip_shape (combined_clause where_ what)) as (S0 & S1 & _).
  { apply combined_shape; apply or_clause_cases. }
  split; assumption.
Qed.

(** The year pattern takes a whole clause [PUBYEAR AFT s AND PUBYEAR BEF e]
    in one match. *)
Lemma year_clause_match_whole s e tl :
  is_year s = true -> is_year e = true ->
  match tl with c :: _ => is_word c | [] => false end = false ->
  exists m,
    match_at year_clause_pattern (mkCursor (Some " "%char) (year_clause s e ++ tl) [])
    = Some m /\ rest m = tl.
Proof.
  intros Hs He Hw.
  apply is_year_digits in Hs. destruct Hs as [Hs1 Hs2].
  apply is_year_digits in He. destruct He as [He1 He2].
  destruct (last_of_digits e (Some " "%char) He1 He2) as (d & Hlast & Hdig).
  exists (mkCursor (Some d) tl
            [(2%nat, lit " AND PUBYEAR " ++ lit "BEF " ++ e);
             (3%nat, lit "BEF " ++ e); (1%nat, lit "AFT " ++ s)]).
  split; [|reflexivity].
  unfold match_at, year_clause_pattern.
  rewrite matches_seq, matches_boundary.
  replace (xorb _ _) with true by reflexivity.
  unfold year_clause. rewrite <- !app_assoc.
  change (lit "PUBYEAR AFT " ++ s ++ lit " AND PUBYEAR BEF " ++ e ++ tl)
    with (lit "PUBYEAR " ++ lit "AFT " ++ s ++ lit " AND PUBYEAR " ++ lit "BEF " ++ e ++ tl).
  rewrite matches_seq, matches_chars, matches_seq.
  apply year_bound_match; try assumption; try reflexivity; [left; reflexivity|].
  rewrite matches_seq, matches_opt, matches_group, matches_seq, matches_chars.
  rewrite (year_bound_match 3 (lit "BEF ") e tl _ _ _
             (mkCursor (Some d) tl
                [(2%nat, lit " AND PUBYEAR " ++ lit "BEF " ++ e);
                 (3%nat, lit "BEF " ++ e); (1%nat, lit "AFT " ++ s)]));
    try assumption; try reflexivity.
  - right. reflexivity.
  - apply starts_digit_nonword, Hw.
  - rewrite Hlast. cbn [prev rest groups].
    rewrite matches_boundary. unfold word_before, word_after. cbn [prev rest].
    rewrite (is_word_digit d Hdig), Hw. cbn [xorb]. f_equal. f_equal.
    f_equal. f_equal.
    set (st0 := mkCursor _ (lit " AND PUBYEAR " ++ lit "BEF " ++ e ++ tl) _).
    change (consumed st0 (mkCursor (Some d) tl [(3%nat, lit "BEF " ++ e); (1%nat, lit "AFT " ++ s)]))
      with (firstn (List.length (lit " AND PUBYEAR " ++ lit "BEF " ++ e ++ tl) - List.length tl)
              (lit " AND PUBYEAR " ++ lit "BEF " ++ e ++ tl)).
    rewrite !app_assoc. rewrite length_app.
    replace (List.length (((lit " AND PUBYEAR " ++ lit "BEF ") ++ e)) + List.length tl
             - List.length tl)%nat
      with (List.length ((lit " AND PUBYEAR " ++ lit "BEF ") ++ e) + 0)%nat by lia.
    rewrite firstn_app_2. cbn [firstn]. rewrite app_nil_r. reflexivity.
Qed.

(** Removing the year clause of a built query leaves its clauses. *)
Lemma remove_year_clause_built c s e :
  contains (lit "PUBYEAR") c = false ->
  strip (c ++ lit " ") = c ->
  is_year s = true -> is_year e = true ->
  remove_year_clause ((c ++ lit " ") ++ year_clause s e) = c.
Proof.
  intros Hc Hstrip Hs He. unfold remove_year_clause.
  rewrite sub_after_clauses by exact Hc.
  destruct (year_clause_match_whole s e [] Hs He eq_refl) as (m & Hm & Hr).
  rewrite <- (app_nil_r (year_clause s e)) at 1.
  rewrite (sub_hit_app _ _ _ _ _ _ (year_clause_nonempty s e) Hm Hr).
  cbn [sub_from app]. rewrite year_clause_headless by reflexivity.
  rewrite app_nil_r. exact Hstrip.
Qed.

Lemma remove_year_clause_no_year c :
  contains (lit "PUBYEAR") c = false ->
  strip (c ++ lit " ") = c ->
  remove_year_clause (c ++ lit " ") = c.
Proof.
  intros Hc Hstrip. unfold remove_year_clause.
  rewrite <- (app_nil_r (c ++ lit " ")) at 1.
  rewrite sub_after_clauses by exact Hc.
  cbn [sub_from]. rewrite year_clause_headless by reflexivity.
  rewrite app_nil_r. exact Hstrip.
Qed.

Lemma year_range_skips_clauses c tail :
  contains (lit "PUBYEAR") c = false ->
  no_start (lit "PUBYEAR AFT ") (c ++ lit " ") tail = true.
Proof.
  intros Hc.
  apply (no_start_closed (lit "PUBYEAR") (lit " AFT ") " "%char c tail);
    [discriminate|exact Hc|reflexivity].
Qed.

(** The year range found in a built query. *)
Lemma search_year_built c s e :
  contains (lit "PUBYEAR") c = false ->
  is_year s = true -> is_year e = true ->
  exists m,
    search year_range_pattern ((c ++ lit " ") ++ year_clause s e) = Some m
    /\ groups2 m = (s, e)
    /\ match_at year_range_pattern
         (mkCursor (last_of (c ++ lit " ") None) (year_clause s e ++ []) []) = Some m
    /\ rest m = [].
Proof.
  intros Hc Hs He.
  destruct (year_range_match (last_of (c ++ lit " ") None) s e [] [] Hs He eq_refl)
    as [p' Hm].
  eexists. split; [|split; [|split; [exact Hm|reflexivity]]].
  - unfold search.
    rewrite (search_skip _ _ year_range_headless _ _ _ (year_range_skips_clauses c _ Hc)).
    apply search_hit. rewrite app_nil_r in Hm. exact Hm.
  - reflexivity.
Qed.

Lemma search_year_none c :
  contains (lit "PUBYEAR") c = false ->
  search year_range_pattern (c ++ lit " ") = None.
Proof.
  intros Hc. unfold search. rewrite <- (app_nil_r (c ++ lit " ")).
  rewrite (search_skip _ _ year_range_headless _ _ _ (year_range_skips_clauses c _ Hc)).
  cbn [search_from]. rewrite year_range_headless by reflexivity. reflexivity.
Qed.

(** The Web of Science translation in one equation. *)
Lemma convert_wos_eq q :
  convert_query_for_database q (lit "wos")
  = Ok ((lit "TS=(" ++ remove_year_clause q ++ lit ")")
          ++ match extract_year_query_wos q with
             | Some y => lit " AND " ++ y
             | None => []
             end).
Proof.
  set (T := lit "TS=(" ++ remove_year_clause q ++ lit ")").
  assert (HsT : strip T = T).
  { subst T.
    change (lit "TS=(" ++ remove_year_clause q ++ lit ")")
      with ("T"%char :: (lit "S=(" ++ remove_year_clause q) ++ [")"%char]).
    apply strip_bounded; reflexivity. }
  assert (HT : truthy T = true) by reflexivity.
  rewrite convert_wos. cbv zeta. unfold extract_term_query. fold T.
  rewrite (clean_boolean_query_is_strip T), HsT, HT.
  rewrite (clean_boolean_query_is_strip T), HsT, HT.
  destruct (extract_year_query_wos_cases q) as [E | (s & e & Hs & He & E)]; rewrite E.
  - cbn [truthy andb]. rewrite clean_boolean_query_is_strip, HsT, app_nil_r.
    reflexivity.
  - assert (HY : truthy (lit "PY=" ++ s ++ lit "-" ++ e) = true) by reflexivity.
    rewrite HY, (clean_boolean_query_is_strip (lit "PY=" ++ s ++ lit "-" ++ e)).
    rewrite strip_py by exact He. rewrite HY. cbn [andb].
    rewrite clean_boolean_query_is_strip. f_equal.
    apply (strip_ts_py (remove_year_clause q) s e He).
Qed.

(** *** Parentheses of built queries *)

Lemma no_parentheses_app x y :
  Balance.no_parentheses (x ++ y)
  = Balance.no_parentheses x && Balance.no_parentheses y.
Proof. unfold Balance.no_parentheses. apply forallb_app. Qed.

Lemma no_parentheses_join sep (parts : list str) :
  Balance.no_parentheses sep = true ->
  Forall (fun f => Balance.no_parentheses f = true) parts ->
  Balance.no_parentheses (join sep parts) = true.
Proof.
  intros Hsep. induction parts as [|f parts IH]; intros H; [reflexivity|].
  apply Forall_cons_iff in H. destruct H as [Hf Hps].
  destruct parts as [|f2 parts]; [exact Hf|].
  change (join sep (f :: f2 :: parts)) with (f ++ sep ++ join sep (f2 :: parts)).
  rewrite !no_parentheses_app, Hf, Hsep, (IH Hps). reflexivity.
Qed.

Lemma no_parentheses_add_quotes t :
  Balance.no_parentheses t = true -> Balance.no_parentheses (add_quotes t) = true.
Proof.
  intros H. unfold add_quotes. destruct (contains (lit "*") t); [exact H|].
  change (quote :: t ++ [quote]) with ([quote] ++ t ++ [quote]).
  rewrite !no_parentheses_app, H. reflexivity.
Qed.

Lemma no_parentheses_digits s :
  all_digits s = true -> Balance.no_parentheses s = true.
Proof.
  unfold all_digits, Balance.no_parentheses. intros H.
  rewrite forallb_forall in H. apply forallb_forall. intros c Hc.
  specialize (H c Hc).
  destruct (Ascii.eqb c "(") eqn:Eo.
  - apply Ascii.eqb_eq in Eo. subst c. discriminate.
  - destruct (Ascii.eqb c ")") eqn:Ec; [|reflexivity].
    apply Ascii.eqb_eq in Ec. subst c. discriminate.
Qed.

Lemma no_parentheses_str_of_int z : Balance.no_parentheses (str_of_int z) = true.
Proof.
  unfold str_of_int. destruct (z <? 0).
  - change ("-"%char :: decimal (Z.to_N (- z))) with (lit "-" ++ decimal (Z.to_N (- z))).
    rewrite no_parentheses_app. cbn [andb]. change (Balance.no_parentheses (lit "-")) with true.
    apply no_parentheses_digits, decimal_digits.
  - apply no_parentheses_digits, decimal_digits.
Qed.

(** A clause of terms without parentheses is passed over by the scan. *)
Lemma scan_or_clause terms stack rest :
  no_parentheses_in terms = true ->
  Balance.scan stack (or_clause terms ++ rest) = Balance.scan stack rest.
Proof.
  intros H. unfold or_clause. destruct (present terms); [|reflexivity].
  assert (HJ : Balance.no_parentheses
                 (join (lit " OR ") (format_terms (elements terms))) = true).
  { apply no_parentheses_join; [reflexivity|].
    unfold format_terms. apply Forall_map.
    unfold no_parentheses_in in H. rewrite forallb_forall in H.
    apply Forall_forall. intros t Ht. apply no_parentheses_add_quotes, H, Ht. }
  rewrite <- !app_assoc.
  change (Balance.scan stack (lit "(" ++ join (lit " OR ") (format_terms (elements terms))
                                ++ lit ")" ++ rest))
    with (Balance.scan ("("%char :: stack)
            (join (lit " OR ") (format_terms (elements terms)) ++ lit ")" ++ rest)).
  rewrite BalanceFacts.scan_no_parentheses by exact HJ. reflexivity.
Qed.

Lemma scan_combined where_ what stack rest :
  no_parentheses_in where_ = true -> no_parentheses_in what = true ->
  Balance.scan stack (combined_clause where_ what ++ rest) = Balance.scan stack rest.
Proof.
  intros Hw Ht. unfold combined_clause. cbn [filter].
  destruct (truthy (or_clause where_)), (truthy (or_clause what)); cbn [join].
  - rewrite <- !app_assoc. rewrite scan_or_clause by exact Hw.
    rewrite BalanceFacts.scan_no_parentheses by reflexivity.
    apply scan_or_clause, Ht.
  - apply scan_or_clause, Hw.
  - apply scan_or_clause, Ht.
  - reflexivity.
Qed.

Lemma scan_plain_text x :
  Balance.no_parentheses x = true -> Balance.scan [] x = true.
Proof.
  intros H. rewrite <- (app_nil_r x).
  rewrite BalanceFacts.scan_no_parentheses by exact H. reflexivity.
Qed.

(** X4. A query built from terms without parentheses has balanced
    parentheses, whatever the years. *)
Theorem X4_built_query_is_balanced :
  forall (where_ what : option (list str)) (when : option (Z * Z)),
    no_parentheses_in where_ = true -> no_parentheses_in what = true ->
    Balance.check_parentheses_balance (build_search_query where_ what when) = true.
Proof.
  intros where_ what when Hw Ht. rewrite build_search_query_eq.
  fold (combined_clause where_ what). unfold Balance.check_parentheses_balance.
  rewrite scan_combined by assumption.
  apply scan_plain_text. rewrite no_parentheses_app. cbn [andb].
  change (Balance.no_parentheses (lit " ")) with true. cbn [andb].
  destruct when as [[s e]|]; [|reflexivity].
  rewrite !no_parentheses_app, !no_parentheses_str_of_int. reflexivity.
Qed.

Lemma X4_witness :
  Balance.check_parentheses_balance
    (build_search_query (Some [lit "Dublin"; lit "Cork"]) (Some [lit "hous*"])
       (Some (2010, 2020)))
  = true.
Proof.
  apply (X4_built_query_is_balanced (Some [lit "Dublin"; lit "Cork"])
           (Some [lit "hous*"]) (Some (2010, 2020))); reflexivity.
Defined.

(** X5. Web of Science gets a built query whole: when no term holds the
    word PUBYEAR and the years are not negative, the clauses of the terms
    are wrapped in [TS=(...)] as they were built, and the years, when
    given, follow as [ AND PY=start-end]. *)
Theorem X5_wos_translation_of_built_query :
  forall (where_ what : option (list str)) (when : option (Z * Z)),
    free_of (lit "PUBYEAR") where_ = true ->
    free_of (lit "PUBYEAR") what = true ->
    match when with Some (s, e) => 0 <= s /\ 0 <= e | None => True end ->
    convert_query_for_database (build_search_query where_ what when) (lit "wos")
    = Ok ((lit "TS=(" ++ combined_clause where_ what ++ lit ")")
            ++ match when with
               | Some (s, e) => lit " AND PY=" ++ str_of_int s ++ lit "-" ++ str_of_int e
               | None => []
               end).
Proof.
  intros where_ what when Hw Ht Hy.
  pose proof (combined_free_pubyear where_ what Hw Ht) as Hc.
  destruct (combined_strip where_ what) as [_ Hstrip].
  rewrite build_search_query_eq. fold (combined_clause where_ what).
  rewrite convert_wos_eq.
  destruct when as [[s e]|].
  - destruct Hy as [Hs He].
    rewrite !(str_of_int_nonneg _ Hs), !(str_of_int_nonneg _ He).
    set (ds := decimal (Z.to_N s)). set (de := decimal (Z.to_N e)).
    change (lit "PUBYEAR AFT " ++ ds ++ lit " AND PUBYEAR BEF " ++ de)
      with (year_clause ds de).
    rewrite (app_assoc (combined_clause where_ what) (lit " ")).
    rewrite (remove_year_clause_built _ ds de Hc Hstrip
               (is_year_decimal _) (is_year_decimal _)).
    destruct (search_year_built _ ds de Hc (is_year_decimal _) (is_year_decimal _))
      as (m & Hm & Hg & _).
    unfold extract_year_query_wos. rewrite Hm, Hg. reflexivity.
  - rewrite !app_nil_r. rewrite (remove_year_clause_no_year _ Hc Hstrip).
    unfold extract_year_query_wos. rewrite (search_year_none _ Hc).
    rewrite ?app_nil_r. reflexivity.
Qed.

Lemma X5_witness :
  convert_query_for_database
    (build_search_query (Some [lit "Dublin*"; lit "Cork*"]) (Some [lit "hous*"])
       (Some (2010, 2020)))
    (lit "wos")
  = Ok (lit "TS=((Dublin* OR Cork*) AND (hous*)) AND PY=2010-2020").
Proof.
  refine (eq_trans
            (X5_wos_translation_of_built_query
               (Some [lit "Dublin*"; lit "Cork*"]) (Some [lit "hous*"])
               (Some (2010, 2020)) eq_refl eq_refl _) _).
  - split; lia.
  - reflexivity.
Defined.

(** X6. Scopus gets the clauses of a built query as they were built, and
    in place of the years [AND PUBYEAR > start AND PUBYEAR < end]: the two
    clauses and the years are then joined by [AND ... AND]. Without years
    the query is passed unchanged. *)
Theorem X6_scopus_translation_of_built_query :
  forall (where_ what : option (list str)) (when : option (Z * Z)),
    free_of (lit "PUBYEAR") where_ = true ->
    free_of (lit "PUBYEAR") what = true ->
    match when with Some (s, e) => 0 <= s /\ 0 <= e | None => True end ->
    convert_query_for_database (build_search_query where_ what when) (lit "scopus")
    = Ok (combined_clause where_ what ++ lit " "
            ++ match when with
               | Some (s, e) => scopus_clause (str_of_int s) (str_of_int e)
               | None => []
               end).
Proof.
  intros where_ what when Hw Ht Hy.
  pose proof (combined_free_pubyear where_ what Hw Ht) as Hc.
  rewrite build_search_query_eq. fold (combined_clause where_ what).
  rewrite convert_scopus. f_equal. unfold replace_years_with_scopus_format.
  destruct when as [[s e]|].
  - destruct Hy as [Hs He].
    rewrite !(str_of_int_nonneg _ Hs), !(str_of_int_nonneg _ He).
    set (ds := decimal (Z.to_N s)). set (de := decimal (Z.to_N e)).
    change (lit "PUBYEAR AFT " ++ ds ++ lit " AND PUBYEAR BEF " ++ de)
      with (year_clause ds de).
    rewrite (app_assoc (combined_clause where_ what) (lit " ")).
    destruct (search_year_built _ ds de Hc (is_year_decimal _) (is_year_decimal _))
      as (m & Hm & Hg & Hat & Hrest).
    rewrite Hm, Hg. unfold sub.
    rewrite (sub_skip _ _ year_range_headless _ _ _ _ (year_range_skips_clauses _ _ Hc)).
    rewrite <- (app_nil_r (year_clause ds de)).
    rewrite (sub_hit_app _ _ _ _ _ _ (year_clause_nonempty ds de) Hat Hrest).
    cbn [sub_from]. rewrite year_range_headless by reflexivity.
    rewrite !app_nil_r, <- app_assoc. reflexivity.
  - rewrite !app_nil_r. rewrite (search_year_none _ Hc). reflexivity.
Qed.

Lemma X6_witness :
  convert_query_for_database
    (build_search_query (Some [lit "Dublin*"; lit "Cork*"]) (Some [lit "hous*"])
       (Some (2010, 2020)))
    (lit "scopus")
  = Ok (lit "(Dublin* OR Cork*) AND (hous*) AND PUBYEAR > 2010 AND PUBYEAR < 2020").
Proof.
  refine (eq_trans
            (X6_scopus_translation_of_built_query
               (Some [lit "Dublin*"; lit "Cork*"]) (Some [lit "hous*"])
               (Some (2010, 2020)) eq_refl eq_refl _) _).
  - split; lia.
  - reflexivity.
Defined.

End TranslationFacts.

(** ** [execute_query] *)

Module ExecuteQueryFacts.
Import Paginated ExecuteQuery.

Section Scripted.

Context {P : Platform}.
Variable record : Type.
Variable retries : Z.
Variable delay : float.

(** [time.sleep(delay)] returns. *)
Hypothesis delay_sleepable : sleepable delay = true.

(** [k] failed attempts, each followed by a sleep. *)
Lemma failed_attempts (k : nat) :
  forall remaining attempt script reqs log,
    attempt + Z.of_nat k <= retries - 1 ->
    attempt_loop (@mock_query_wos record) retries delay (k + remaining)%nat attempt (repeat (@Raises record) k ++ script, reqs) log
    = attempt_loop (@mock_query_wos record) retries delay remaining (attempt + Z.of_nat k) (script, reqs ++ repeat 1 k)
        (log ++ repeat delay k).
Proof.
  induction k as [|k IH]; intros remaining attempt script reqs log H.
  - cbn [repeat app Nat.add]. rewrite !app_nil_r, Z.add_0_r. reflexivity.
  - cbn [repeat app Nat.add attempt_loop mock_query_wos fst snd].
    replace (attempt <? retries - 1) with true by (symmetry; apply Z.ltb_lt; lia).
    rewrite (time_sleep_accepted _ _ delay_sleepable).
    refine (eq_trans (IH remaining (attempt + 1) script _ _ _) _); [lia|].
    rewrite <- !app_assoc. cbn [app].
    replace (attempt + 1 + Z.of_nat k) with (attempt + Z.of_nat (S k)) by lia.
    reflexivity.
Qed.

(** X7. The first answer of [query_wos] ends [execute_query]: after [k]
    failed attempts, [k] below [retries], the answer of attempt [k+1] is
    returned as it is, an empty answer ([None]) included, which is not
    tried again. Every attempt asks for the records from 1, and the function
    has slept [delay] once after each failed attempt; [delay] is a duration
    [time.sleep] takes. *)
Theorem X7_first_answer_is_returned :
  forall (k : nat) (answer : option (DataFrame record)) script,
    Z.of_nat k < retries ->
    execute_query (@mock_query_wos record) retries delay
      (repeat (@Raises record) k ++ Returns answer :: script, [])
    = Return answer (script, repeat 1 (S k)) (repeat delay k).
Proof.
  intros k answer script Hk. unfold execute_query.
  replace (Z.to_nat retries) with (k + S (Z.to_nat retries - S k))%nat by lia.
  rewrite failed_attempts by lia.
  cbn [attempt_loop mock_query_wos fst snd app].
  rewrite <- repeat_cons. reflexivity.
Qed.

(** X8. When every attempt fails, [execute_query] gives up after [retries]
    attempts and returns [None]: it has slept after each attempt but the
    last, and the rest of the world is not touched. With [retries] at or
    below zero it returns [None] without a request. [delay] is a duration
    [time.sleep] takes. *)
Theorem X8_gives_up_after_retries :
  forall script,
    execute_query (@mock_query_wos record) retries delay
      (repeat (@Raises record) (Z.to_nat retries) ++ script, [])
    = Return None (script, repeat 1 (Z.to_nat retries))
        (repeat delay (Z.to_nat retries - 1)).
Proof.
  intros script. unfold execute_query.
  destruct (Z.to_nat retries) as [|n] eqn:En; [reflexivity|].
  replace (S n) with (n + 1)%nat at 1 2 by lia.
  rewrite repeat_app, <- app_assoc.
  rewrite failed_attempts by lia.
  cbn [attempt_loop mock_query_wos fst snd app repeat Z.add].
  replace (Z.of_nat n <? retries - 1) with false by (symmetry; apply Z.ltb_ge; lia).
  cbn [app]. rewrite <- repeat_cons.
  replace (S n - 1)%nat with n by lia. reflexivity.
Qed.

End Scripted.

Lemma X7_witness :
  execute_query (P := linux) (@mock_query_wos nat) 3 2
    (repeat (@Raises nat) 2 ++ Returns None :: [Returns (Some [7%nat])], [])
  = Return None ([Returns (Some [7%nat])], repeat 1 3) (repeat 2%float 2).
Proof.
  apply (X7_first_answer_is_returned (P := linux) nat 3 2); reflexivity.
Defined.

Lemma X8_witness :
  execute_query (P := linux) (@mock_query_wos nat) 3 2
    (repeat (@Raises nat) (Z.to_nat 3) ++ [Returns (Some [7%nat])], [])
  = Return None ([Returns (Some [7%nat])], repeat 1 (Z.to_nat 3))
      (repeat 2%float (Z.to_nat 3 - 1)).
Proof.
  apply (X8_gives_up_after_retries (P := linux) nat 3 2). reflexivity.
Defined.

End ExecuteQueryFacts.

(** ** The trace of [execute_query_paginated] on any script *)

Module PaginatedTraceFacts.
Import Paginated PaginatedTrace.

Section AnyScript.

Context {P : Platform}.
Variable record : Type.
Variable delay : float.
Variable max_records : Z.
Variable retries : Z.

(** One iteration makes one request, for [first_record]; it appends the
    frame it got, if any, and leaves [first_record] or moves it one page
    on. *)
Lemma body_trace (s : locals record (Mock record)) :
  let s' := flow_state (body (@mock_query_wos record) delay retries s) in
  world s' = (skipn 1 (fst (world s)), snd (world s) ++ [first_record s])
  /\ all_dfs s' = all_dfs s ++ frames (firstn 1 (fst (world s)))
  /\ (first_record s' = first_record s
      \/ first_record s' = first_record s + page_size).
Proof.
  destruct s as [dfs fr a [script reqs] log].
  unfold body, handler, mock_query_wos.
  cbn [world all_dfs first_record attempts slept fst snd].
  destruct script as [|[|[[|r df]|]] script];
    cbn [skipn firstn frames flat_map app flow_state world all_dfs first_record
         attempts slept];
    rewrite ?app_nil_r;
    repeat match goal with
           | |- context [if ?b then _ else _] => destruct b
           | |- context [match sleep_time ?d ?a with _ => _ end] =>
               destruct (sleep_time d a)
           | |- context [match time_sleep ?d ?l with _ => _ end] =>
               destruct (time_sleep d l)
           end;
    cbn [flow_state world all_dfs first_record]; auto.
Qed.

Lemma firstn_S_skipn (A : Type) (k : nat) (l : list A) :
  firstn (S k) l = firstn 1 l ++ firstn k (skipn 1 l).
Proof. destruct l; [cbn [skipn firstn app]; rewrite firstn_nil; reflexivity|reflexivity]. Qed.

Lemma skipn_S_skipn (A : Type) (k : nat) (l : list A) :
  skipn (S k) l = skipn k (skipn 1 l).
Proof. destruct l; [cbn [skipn]; rewrite skipn_nil; reflexivity|reflexivity]. Qed.

Lemma frames_app (x y : list (fetched record)) :
  frames (x ++ y) = frames x ++ frames y.
Proof. apply flat_map_app. Qed.

(** The requests of a run of the loop, the script it leaves and the frames
    it has appended. *)
Lemma while_loop_trace (fuel : nat) :
  forall (s : locals record (Mock record)) e,
    while_loop (@mock_query_wos record) delay max_records retries fuel s = Some e ->
    exists news,
      (List.length news <= fuel)%nat
      /\ world (exit_state e)
         = (skipn (List.length news) (fst (world s)), snd (world s) ++ news)
      /\ all_dfs (exit_state e)
         = all_dfs s ++ frames (firstn (List.length news) (fst (world s)))
      /\ Forall (fun r => r <= max_records) news
      /\ paced (first_record s) news = true.
Proof.
  induction fuel as [|fuel IH]; intros s e H; [discriminate|].
  cbn [while_loop] in H.
  destruct (first_record s <=? max_records) eqn:E.
  - apply Z.leb_le in E.
    destruct (body_trace s) as (Hw & Hd & Hf).
    assert (Hone : forall s1, s1 = flow_state (body (@mock_query_wos record) delay retries s) ->
                   e = Finished s1 \/ e = Raised s1 ->
                   exists news,
                     (List.length news <= S fuel)%nat
                     /\ world (exit_state e)
                        = (skipn (List.length news) (fst (world s)), snd (world s) ++ news)
                     /\ all_dfs (exit_state e)
                        = all_dfs s ++ frames (firstn (List.length news) (fst (world s)))
                     /\ Forall (fun r => r <= max_records) news
                     /\ paced (first_record s) news = true).
    { intros s1 -> He. exists [first_record s]. cbn [List.length paced].
      rewrite Z.eqb_refl.
      destruct He as [-> | ->]; cbn [exit_state];
        (split; [lia|split; [exact Hw|split; [exact Hd|split; [|reflexivity]]]]);
        constructor; auto. }
    destruct (body (@mock_query_wos record) delay retries s) as [s1|s1|s1] eqn:Eb;
      cbn [flow_state] in Hw, Hd, Hf.
    + destruct (IH s1 e H) as (news & Hl & Hw' & Hd' & Hb & Hp).
      exists (first_record s :: news). cbn [List.length].
      split; [lia|]. split; [|split; [|split]].
      * rewrite Hw', Hw. cbn [fst snd]. rewrite (skipn_S_skipn _ (List.length news)), <- app_assoc. reflexivity.
      * rewrite Hd', Hd, Hw. cbn [fst]. rewrite (firstn_S_skipn _ (List.length news)), frames_app, app_assoc.
        reflexivity.
      * constructor; assumption.
      * cbn [paced]. rewrite Z.eqb_refl. cbn [andb].
        destruct Hf as [Hf|Hf]; rewrite Hf in Hp; rewrite Hp; auto using orb_true_r.
    + injection H as <-. apply (Hone s1 eq_refl). left. reflexivity.
    + injection H as <-. apply (Hone s1 eq_refl). right. reflexivity.
  - injection H as <-. exists []. cbn [List.length exit_state skipn firstn frames flat_map paced].
    rewrite !app_nil_r. repeat split; [lia|destruct (world s); reflexivity|constructor].
Qed.

Lemma paced_pages (news : list Z) :
  forall fr, paced fr news = true ->
             Forall (fun r => exists j, 0 <= j /\ r = fr + page_size * j) news.
Proof.
  induction news as [|r news IH]; intros fr H; [constructor|].
  cbn [paced] in H. apply andb_prop in H. destruct H as [Hr Hn].
  apply Z.eqb_eq in Hr. subst r. constructor.
  - exists 0. split; lia.
  - apply orb_prop in Hn. destruct Hn as [Hn|Hn]; apply IH in Hn.
    + exact Hn.
    + revert Hn. apply Forall_impl. intros x (j & Hj & ->).
      exists (j + 1). split; lia.
Qed.

Lemma loop_from_start (w : Mock record) :
  exists e,
    while_loop (@mock_query_wos record) delay max_records retries
      (enough_fuel max_records retries) (initial w) = Some e.
Proof.
  destruct (while_loop (@mock_query_wos record) delay max_records retries
              (enough_fuel max_records retries) (initial w)) as [e|] eqn:E; [eauto|].
  exfalso. revert E. apply PaginatedFacts.while_loop_terminates.
  unfold enough_fuel, measure. cbn [first_record attempts initial].
  assert (0 <= iterations_left max_records retries 1 0)
    by (unfold iterations_left; nia).
  lia.
Qed.

(** X9. Whatever [query_wos] answers and whatever the delay, the function
    comes to an end, and every page request it has made asks for a record
    between 1 and [max_records] that is 1 more than a multiple of the page
    size; the requests start at record 1 and each one repeats the page of
    the one before or asks for the next page, none is skipped; and there are
    at most [enough_fuel] of them. *)
Theorem X9_requests_of_any_run :
  forall script : list (fetched record),
  exists out,
    execute_query_paginated (@mock_query_wos record) delay max_records retries
      (script, []) = Some out
    /\ Forall (fun r => 1 <= r <= max_records /\ r mod page_size = 1)
         (snd (world_of out))
    /\ paced 1 (snd (world_of out)) = true
    /\ (List.length (snd (world_of out)) <= enough_fuel max_records retries)%nat
    /\ fst (world_of out) = skipn (List.length (snd (world_of out))) script.
Proof.
  intros script. unfold execute_query_paginated.
  destruct (loop_from_start (script, [])) as [e He]. rewrite He.
  destruct (while_loop_trace _ _ _ He) as (news & Hl & Hw & _ & Hb & Hp).
  cbn [initial world first_record fst snd app] in Hw, Hp.
  assert (Hall : Forall (fun r => 1 <= r <= max_records /\ r mod page_size = 1) news).
  { pose proof (paced_pages _ _ Hp) as Hj.
    rewrite Forall_forall in Hb, Hj. apply Forall_forall. intros r Hr.
    destruct (Hj r Hr) as (j & Hj0 & ->). specialize (Hb _ Hr).
    unfold page_size in *. split; [lia|].
    rewrite Z.mul_comm, Z.mod_add by lia. reflexivity. }
  destruct e as [s|s]; cbn [exit_state] in Hw; eexists; (split; [reflexivity|]).
  - unfold conclude. destruct (all_dfs s); cbn [world_of]; rewrite Hw; cbn [fst snd]; auto.
  - cbn [world_of]. rewrite Hw. cbn [fst snd]. auto.
Qed.

(** X10. When every sleep the function can ask for is one [time.sleep]
    takes (the delay and its doubles up to failure [retries - 1] in a row)
    the function never raises, whatever [query_wos] does, and what it
    returns is made of the frames it
    received, all of them and in the order of their arrival: the
    concatenation of the non-empty frames among the answers to its requests,
    or [None] when there was none. Attempts that raised leave no trace in
    the result. *)
Theorem X10_result_is_the_frames_received :
  forall script : list (fetched record),
    sleeps_accepted delay retries = true ->
    exists requests log,
      execute_query_paginated (@mock_query_wos record) delay max_records retries
        (script, [])
      = Some (Return (concat_or_none (frames (firstn (List.length requests) script)))
                (skipn (List.length requests) script, requests) log).
Proof.
  intros script Hd. unfold execute_query_paginated.
  destruct (loop_from_start (script, [])) as [e He]. rewrite He.
  assert (H0 : 0 <= attempts (initial (record:=record) (World:=Mock record) (script, [])))
    by (cbn; lia).
  destruct (PaginatedFacts.while_loop_finishes delay max_records retries Hd _ _ _ _ H0 He)
    as [s ->].
  clear H0.
  destruct (while_loop_trace _ _ _ He) as (news & _ & Hw & Hf & _).
  cbn [initial world all_dfs exit_state fst snd app] in Hw, Hf.
  exists news, (slept s). unfold conclude, concat_or_none.
  rewrite <- Hf, Hw. destruct (all_dfs s); reflexivity.
Qed.

End AnyScript.

Lemma X10_witness :
  exists requests log,
    execute_query_paginated (P := linux) (@mock_query_wos nat) 1 5000 5
      ([Raises; Returns (Some [1%nat; 2%nat]); Raises], [])
    = Some (Return
              (concat_or_none
                 (frames (firstn (List.length requests)
                            [Raises; Returns (Some [1%nat; 2%nat]); Raises])))
              (skipn (List.length requests)
                 [Raises; Returns (Some [1%nat; 2%nat]); Raises], requests) log).
Proof.
  apply (X10_result_is_the_frames_received (P := linux) nat 1 5000 5). reflexivity.
Defined.

End PaginatedTraceFacts.

(** ** [query_wos]: throttling and the rows of a page *)

Module QueryWosPageFacts.
Import QueryWos WosRecord.

Section Scripted.

Context {P : Platform}.
Variable record : Type.
Variable extract_record : json -> option record.
Variables (count first_record : Z).
Variable delay : float.

Lemma extract_all_rows (recs : list json) (rows : list record) :
  Forall2 (fun r row => extract_record r = Some row) recs rows ->
  extract_all extract_record recs = Some rows.
Proof.
  induction 1 as [|r row recs rows Hr _ IH]; [reflexivity|].
  cbn [extract_all]. rewrite Hr, IH. reflexivity.
Qed.

Lemma extract_all_raises (recs : list json) :
  Exists (fun r => extract_record r = None) recs ->
  extract_all extract_record recs = None.
Proof.
  induction 1 as [r recs Hr|r recs _ IH]; cbn [extract_all].
  - rewrite Hr. reflexivity.
  - destruct (extract_record r); [rewrite IH|]; reflexivity.
Qed.

(** X11. Only throttling is tried again. After [k] answers with status 429,
    [k] below [retries], a page is returned as if it had come at once and a
    failure the code checks for ends the call with [None]; when all
    [retries] answers are throttled the call ends with [None]. The call has
    slept the float products [delay * 1], [delay * 2], ... once per throttled
    answer, the last one included; these are durations [time.sleep]
    takes. *)
Theorem X11_only_throttling_is_retried :
  forall (retries : Z) (bodies : list (option json)),
    throttles_accepted delay (List.length bodies) = true ->
    let sleeps := throttle_sleeps delay 0 (List.length bodies) in
    (forall data rest,
        Z.of_nat (List.length bodies) < retries ->
        query_wos extract_record scripted_get count first_record retries delay
          (map (Response 429) bodies ++ Response 200 (Some data) :: rest) []
        = (on_success extract_record data, rest, sleeps))
    /\ (forall h rest,
          Z.of_nat (List.length bodies) < retries -> checked_failure h = true ->
          query_wos extract_record scripted_get count first_record retries delay
            (map (Response 429) bodies ++ h :: rest) []
          = (Paginated.Returns None, rest, sleeps))
    /\ (forall rest,
          Z.of_nat (List.length bodies) = retries ->
          query_wos extract_record scripted_get count first_record retries delay
            (map (Response 429) bodies ++ rest) []
          = (Paginated.Returns None, rest, sleeps)).
Proof.
  intros retries bodies Hd sleeps. subst sleeps.
  assert (Hrun : forall n rest,
             attempt_loop extract_record scripted_get delay count first_record
               (List.length bodies + n) 0 (map (Response 429) bodies ++ rest) []
             = attempt_loop extract_record scripted_get delay count first_record n
                 (Z.of_nat (List.length bodies)) rest
                 (throttle_sleeps delay 0 (List.length bodies))).
  { intros n rest.
    apply (QueryWosFacts.throttled_run extract_record count first_record delay
             bodies n 0 rest []); [lia|exact Hd]. }
  split; [|split].
  - intros data rest Hlt. unfold query_wos.
    replace (Z.to_nat retries)
      with (List.length bodies + S (Z.to_nat retries - List.length bodies - 1))%nat by lia.
    rewrite Hrun. reflexivity.
  - intros h rest Hlt Hh. unfold query_wos.
    replace (Z.to_nat retries)
      with (List.length bodies + S (Z.to_nat retries - List.length bodies - 1))%nat by lia.
    rewrite Hrun. cbn [app attempt_loop scripted_get].
    destruct h as [|status body]; [reflexivity|]. cbn [checked_failure] in Hh.
    destruct (status =? 200).
    + destruct body as [data|];
        [rewrite (QueryWosFacts.without_records_none _ _ Hh)|]; reflexivity.
    + apply negb_true_iff in Hh. rewrite Hh. reflexivity.
  - intros rest Heq. unfold query_wos.
    replace (Z.to_nat retries) with (List.length bodies + 0)%nat by lia.
    rewrite Hrun. reflexivity.
Qed.

(** X12. A page of records gives one row per [REC] entry, in the order of
    the entries; when the loop raises on one entry the whole call raises and
    no row is returned; and a single [REC] object is read as a list of that
    one entry. *)
Theorem X12_one_row_per_record :
  forall (retries : Z) (rest : list http),
    0 < retries ->
    (forall recs rows,
        Forall2 (fun r row => extract_record r = Some row) recs rows ->
        query_wos extract_record scripted_get count first_record retries delay
          (Response 200 (Some (body_with (JList recs))) :: rest) []
        = (Paginated.Returns (Some rows), rest, []))
    /\ (forall recs,
          Exists (fun r => extract_record r = None) recs ->
          query_wos extract_record scripted_get count first_record retries delay
            (Response 200 (Some (body_with (JList recs))) :: rest) []
          = (Paginated.Raises, rest, []))
    /\ (forall rec,
          query_wos extract_record scripted_get count first_record retries delay
            (Response 200 (Some (body_with (JDict rec))) :: rest) []
          = query_wos extract_record scripted_get count first_record retries delay
              (Response 200 (Some (body_with (JList [JDict rec]))) :: rest) []).
Proof.
  intros retries rest Hr. unfold query_wos.
  destruct (Z.to_nat retries) as [|n] eqn:En; [lia|].
  split; [|split].
  - intros recs rows H. cbn [attempt_loop scripted_get]. change (200 =? 200) with true.
    cbn iota. unfold on_success, body_with. cbn [get dict_get String.eqb Ascii.eqb Bool.eqb].
    rewrite (extract_all_rows _ _ H). reflexivity.
  - intros recs H. cbn [attempt_loop scripted_get]. change (200 =? 200) with true.
    cbn iota. unfold on_success, body_with. cbn [get dict_get String.eqb Ascii.eqb Bool.eqb].
    rewrite (extract_all_raises _ H). reflexivity.
  - intros rec. reflexivity.
Qed.

End Scripted.

(** Two throttled answers with [delay = 0.1]: the sleeps are the doubles
    [0.1 * 1] and [0.1 * 2]. *)
Lemma X11_witness :
  let sleeps := throttle_sleeps 0x1.999999999999ap-4 0 (List.length [@None json; None]) in
  (forall data rest,
      Z.of_nat (List.length [@None json; None]) < 3 ->
      query_wos (P := linux) extract_record scripted_get 100 1 3 0x1.999999999999ap-4
        (map (Response 429) [None; None] ++ Response 200 (Some data) :: rest) []
      = (on_success extract_record data, rest, sleeps))
  /\ (forall h rest,
        Z.of_nat (List.length [@None json; None]) < 3 ->
        checked_failure h = true ->
        query_wos (P := linux) extract_record scripted_get 100 1 3 0x1.999999999999ap-4
          (map (Response 429) [None; None] ++ h :: rest) []
        = (Paginated.Returns None, rest, sleeps))
  /\ (forall rest,
        Z.of_nat (List.length [@None json; None]) = 3 ->
        query_wos (P := linux) extract_record scripted_get 100 1 3 0x1.999999999999ap-4
          (map (Response 429) [None; None] ++ rest) []
        = (Paginated.Returns None, rest, sleeps)).
Proof.
  apply (X11_only_throttling_is_retried (P := linux) row extract_record 100 1 0x1.999999999999ap-4
           3 [None; None]).
  reflexivity.
Defined.

Lemma X12_witness :
  (forall recs rows,
      Forall2 (fun r row => extract_record r = Some row) recs rows ->
      query_wos (P := linux) extract_record scripted_get 100 1 3 1
        (Response 200 (Some (body_with (JList recs))) :: []) []
      = (Paginated.Returns (Some rows), [], []))
  /\ (forall recs,
        Exists (fun r => extract_record r = None) recs ->
        query_wos (P := linux) extract_record scripted_get 100 1 3 1
          (Response 200 (Some (body_with (JList recs))) :: []) []
        = (Paginated.Raises, [], []))
  /\ (forall rec,
        query_wos (P := linux) extract_record scripted_get 100 1 3 1
          (Response 200 (Some (body_with (JDict rec))) :: []) []
        = query_wos (P := linux) extract_record scripted_get 100 1 3 1
            (Response 200 (Some (body_with (JList [JDict rec]))) :: []) []).
Proof.
  apply (X12_one_row_per_record (P := linux) row extract_record 100 1 1 3 []). reflexivity.
Defined.

End QueryWosPageFacts.

(** ** The rows [query_wos] builds *)

Module WosRecordFacts.
Import QueryWos WosRecord.

Local Open Scope string_scope.

(** X13. An entry without [static_data] gives a row of defaults: ['N/A'] for
    the title, the year, the source and the DOI, and the empty text, not
    ['N/A'], for the authors and the abstract. An entry that is not an
    object makes the loop raise. *)
Theorem X13_defaults_of_a_bare_entry :
  (forall members,
      dict_get members "static_data" (JDict []) = JDict [] ->
      extract_record (JDict members) = Some (mkRow NA "" NA NA NA ""))
  /\ (forall entry,
        (forall members, entry <> JDict members) -> extract_record entry = None).
Proof.
  split.
  - intros members H. unfold extract_record. cbn [get bind]. rewrite H. reflexivity.
  - intros entry H. destruct entry; try reflexivity. exfalso. exact (H _ eq_refl).
Qed.

(** X14. [next] takes the first entry that passes the test and looks no
    further: the entries after it are not examined, so what they are does
    not matter, and when the entry lacks the key the value is [None], not the
    default. The default is returned only when every entry fails the test,
    and an entry that is reached and is not an object makes the expression
    raise. *)
Theorem X14_first_match_wins :
  forall cond key (before : list json) default,
    Forall (fun i => exists d, i = JDict d /\ cond d = Some false) before ->
    (forall item after,
        cond item = Some true ->
        next_match cond key (before ++ JDict item :: after) default
        = Some (dict_get item key JNull))
    /\ next_match cond key before default = Some default
    /\ (forall other after,
          (forall d, other <> JDict d) ->
          next_match cond key (before ++ other :: after) default = None).
Proof.
  intros cond key before default H.
  induction H as [|i before (d & -> & Hd) _ (IH1 & IH2 & IH3)].
  - split; [|split].
    + intros item after Hc. cbn [app next_match]. rewrite Hc. reflexivity.
    + reflexivity.
    + intros other after Ho. cbn [app next_match].
      destruct other; try reflexivity. exfalso. exact (Ho _ eq_refl).
  - cbn [app next_match]. rewrite Hd. split; [|split]; assumption.
Qed.

Lemma X14_witness :
  (forall item after,
      type_is "item" item = Some true ->
      next_match (type_is "item") "content"
        ([JDict [("type", JStr "source"); ("content", JStr "Urban Studies")]]
           ++ JDict item :: after) NA
      = Some (dict_get item "content" JNull))
  /\ next_match (type_is "item") "content"
       [JDict [("type", JStr "source"); ("content", JStr "Urban Studies")]] NA
     = Some NA
  /\ (forall other after,
        (forall d, other <> JDict d) ->
        next_match (type_is "item") "content"
          ([JDict [("type", JStr "source"); ("content", JStr "Urban Studies")]]
             ++ other :: after) NA
        = None).
Proof.
  apply (X14_first_match_wins (type_is "item") "content"
           [JDict [("type", JStr "source"); ("content", JStr "Urban Studies")]] NA).
  constructor; [|constructor]. eexists. split; reflexivity.
Defined.

(** X15. The authors are read from a list only. A list of author objects
    gives their names joined by ["; "], the ones without [full_name] as
    ['N/A']; a single author object in the place of the list, which [REC]
    is allowed to be, gives no author at all. *)
Theorem X15_single_author_object_is_lost :
  forall (authors : list (list (string * json))) (names : list string),
    Forall2 (fun a n => dict_get a "full_name" (JStr "N/A") = JStr n) authors names ->
    extract_record
      (JDict [("static_data",
               JDict [("summary",
                       JDict [("names", JDict [("name", JList (map JDict authors))])])])])
    = Some (mkRow NA (String.concat "; " names) NA NA NA "")
    /\ (forall author,
          extract_record
            (JDict [("static_data",
                     JDict [("summary",
                             JDict [("names", JDict [("name", JDict author)])])])])
          = Some (mkRow NA "" NA NA NA "")).
Proof.
  intros authors names H. split.
  - assert (Hc : collect "full_name" "N/A" (map JDict authors) = Some names).
    { induction H as [|a n authors names Ha _ IH]; [reflexivity|].
      cbn [map collect]. rewrite Ha, IH. reflexivity. }
    unfold extract_record.
    cbn [get bind dict_get String.eqb Ascii.eqb Bool.eqb iterate next_match].
    rewrite Hc. reflexivity.
  - intros author. unfold extract_record.
    cbn [get bind dict_get String.eqb Ascii.eqb Bool.eqb iterate next_match].
    assert (Hc : forall keys : list (string * json),
               collect "full_name" "N/A" (map (fun m => JStr (fst m)) keys) = Some []).
    { induction keys as [|k keys IH]; [reflexivity|exact IH]. }
    rewrite Hc. reflexivity.
Qed.

Lemma X15_witness :
  extract_record
    (JDict [("static_data",
             JDict [("summary",
                     JDict [("names",
                             JDict [("name",
                                     JList (map JDict
                                              [[("full_name", JStr "Doe, J")];
                                               [("seq_no", JNum 2)]]))])])])])
  = Some (mkRow NA (String.concat "; " ["Doe, J"; "N/A"]) NA NA NA "")
  /\ (forall author,
        extract_record
          (JDict [("static_data",
                   JDict [("summary",
                           JDict [("names", JDict [("name", JDict author)])])])])
        = Some (mkRow NA "" NA NA NA "")).
Proof.
  apply (X15_single_author_object_is_lost
           [[("full_name", JStr "Doe, J")]; [("seq_no", JNum 2)]] ["Doe, J"; "N/A"]).
  constructor; [reflexivity|constructor; [reflexivity|constructor]].
Defined.

End WosRecordFacts.

(** ** Year clauses in any query *)

Module YearFacts.
Import PyStr PyStrFacts Re ReFacts BuildQuery BuildQueryFacts.

Lemma lstrip_suffix (s : str) : exists v, s = v ++ lstrip s.
Proof.
  induction s as [|c s [v IH]]; [exists []; reflexivity|]. cbn [lstrip].
  destruct (is_space c).
  - exists (c :: v). cbn [app]. f_equal. exact IH.
  - exists []. reflexivity.
Qed.

Lemma rstrip_prefix (s : str) : exists v, s = rstrip s ++ v.
Proof.
  unfold rstrip. destruct (lstrip_suffix (rev s)) as [v Hv].
  exists (rev v). rewrite <- rev_app_distr, <- Hv, rev_involutive. reflexivity.
Qed.

Lemma strip_head (s : str) c t : strip s = c :: t -> is_space c = false.
Proof.
  unfold strip. intros H.
  destruct (lstrip_head s) as [E | (c0 & t0 & E & Hc)].
  - rewrite E in H. discriminate.
  - destruct (rstrip_prefix (lstrip s)) as [v Hv].
    rewrite H, E in Hv. injection Hv as -> _. exact Hc.
Qed.

(** X17. [clean_boolean_query] removes no operator: on every query it does
    what [strip] does and nothing more, because the pattern needs a space
    at the end that [strip] has taken away. A second pass changes
    nothing, and a query that ends in [ AND] or [ OR] and spaces keeps the
    operator. *)
Theorem X17_clean_boolean_query_only_strips :
  forall query : str,
    clean_boolean_query query = strip query
    /\ clean_boolean_query (clean_boolean_query query) = clean_boolean_query query
    /\ (forall a body spaces,
          is_space a = false -> forallb is_space spaces = true ->
          clean_boolean_query ((a :: body) ++ lit " AND" ++ spaces)
          = (a :: body) ++ lit " AND"
          /\ clean_boolean_query ((a :: body) ++ lit " OR" ++ spaces)
             = (a :: body) ++ lit " OR").
Proof.
  intros query. split; [apply clean_boolean_query_is_strip|split].
  - rewrite !clean_boolean_query_is_strip.
    destruct (strip query) as [|c s] eqn:E; [reflexivity|].
    destruct (@exists_last _ (c :: s)) as (x & d & Hx); [discriminate|].
    pose proof E as E1. rewrite Hx in E1.
    pose proof (strip_last _ _ _ E1) as Hd.
    pose proof (strip_head _ _ _ E) as Hc.
    destruct x as [|c' x].
    + cbn [app] in Hx. injection Hx as -> ->.
      unfold strip, rstrip. cbn [lstrip rev app]. rewrite Hc.
      cbn [lstrip rev app]. rewrite Hc. reflexivity.
    + cbn [app] in Hx. injection Hx as <- Hs. rewrite Hs.
      apply (strip_bounded c d x Hc Hd).
  - intros a body spaces Ha Hsp. rewrite !clean_boolean_query_is_strip. split.
    + replace ((a :: body) ++ lit " AND" ++ spaces)
        with ((a :: (body ++ lit " AN") ++ ["D"%char]) ++ spaces)
        by (cbn [app]; rewrite <- !app_assoc; reflexivity).
      rewrite strip_bounded_spaces by (assumption || reflexivity).
      cbn [app]. rewrite <- !app_assoc. reflexivity.
    + replace ((a :: body) ++ lit " OR" ++ spaces)
        with ((a :: (body ++ lit " O") ++ ["R"%char]) ++ spaces)
        by (cbn [app]; rewrite <- !app_assoc; reflexivity).
      rewrite strip_bounded_spaces by (assumption || reflexivity).
      cbn [app]. rewrite <- !app_assoc. reflexivity.
Qed.

(** X18. The year half for Web of Science. A query in which
    [PUBYEAR AFT ] does not occur has none. When the first place where
    [PUBYEAR AFT ] occurs begins a complete clause
    [PUBYEAR AFT s AND PUBYEAR BEF e], with [s] and [e] runs of digits and no
    digit after [e], the year half is [PY=s-e], whatever follows the
    clause. *)
Theorem X18_wos_years_of_first_clause :
  (forall q,
      contains (lit "PUBYEAR AFT ") q = false -> extract_year_query_wos q = None)
  /\ (forall pre s e post,
        is_year s = true -> is_year e = true ->
        contains (lit "PUBYEAR AFT ") (pre ++ lit "PUBYEAR AFT") = false ->
        starts_digit post = false ->
        extract_year_query_wos (pre ++ year_clause s e ++ post)
        = Some (lit "PY=" ++ s ++ lit "-" ++ e)).
Proof.
  split.
  - intros q Hq. unfold extract_year_query_wos, search.
    rewrite <- (app_nil_r q).
    rewrite (search_skip _ _ year_range_headless _ _ _ (no_start_all _ _ Hq)).
    cbn [search_from]. rewrite year_range_headless by reflexivity. reflexivity.
  - intros pre s e post Hs He Hpre Hpost.
    assert (Hskip : no_start (lit "PUBYEAR AFT ") pre (year_clause s e ++ post) = true).
    { apply no_start_of_contains. exact Hpre. }
    destruct (year_range_match (last_of pre None) s e post [] Hs He Hpost) as [p' Hm].
    unfold extract_year_query_wos, search.
    rewrite (search_skip _ _ year_range_headless _ _ _ Hskip).
    rewrite (search_hit _ _ _ _ Hm). reflexivity.
Qed.

Lemma starts_digit_before_clause mid s e post :
  starts_digit mid = false -> starts_digit (mid ++ year_clause s e ++ post) = false.
Proof. destruct mid; [reflexivity|intros H; exact H]. Qed.

(** X19. For Scopus every year clause of the query is replaced by the
    bounds of the first one: in a query with two year clauses the second
    clause gets the years of the first. *)
Theorem X19_scopus_second_clause_gets_first_years :
  forall pre s1 e1 mid s2 e2 post,
    is_year s1 = true -> is_year e1 = true ->
    is_year s2 = true -> is_year e2 = true ->
    contains (lit "PUBYEAR AFT ") (pre ++ lit "PUBYEAR AFT") = false ->
    starts_digit mid = false ->
    contains (lit "PUBYEAR AFT ") (mid ++ lit "PUBYEAR AFT") = false ->
    starts_digit post = false ->
    contains (lit "PUBYEAR AFT ") post = false ->
    convert_query_for_database
      (pre ++ year_clause s1 e1 ++ mid ++ year_clause s2 e2 ++ post) (lit "scopus")
    = Ok (pre ++ scopus_clause s1 e1 ++ mid ++ scopus_clause s1 e1 ++ post).
Proof.
  intros pre s1 e1 mid s2 e2 post Hs1 He1 Hs2 He2 Hpre Hmid0 Hmid Hpost0 Hpost.
  rewrite convert_scopus. f_equal.
  set (tl1 := mid ++ year_clause s2 e2 ++ post).
  assert (Hskip : no_start (lit "PUBYEAR AFT ") pre (year_clause s1 e1 ++ tl1) = true).
  { apply no_start_of_contains. exact Hpre. }
  assert (Hskip2 : no_start (lit "PUBYEAR AFT ") mid (year_clause s2 e2 ++ post) = true).
  { apply no_start_of_contains. exact Hmid. }
  destruct (year_range_match (last_of pre None) s1 e1 tl1 [] Hs1 He1
              (starts_digit_before_clause _ _ _ _ Hmid0)) as [p1 Hm1].
  unfold replace_years_with_scopus_format, search.
  rewrite (search_skip _ _ year_range_headless _ _ _ Hskip).
  rewrite (search_hit _ _ _ _ Hm1).
  unfold groups2. cbn [groups group Nat.eqb].
  fold (scopus_clause s1 e1).
  unfold sub. rewrite (sub_skip _ _ year_range_headless _ _ _ _ Hskip).
  rewrite (sub_hit_app _ _ _ _ _ _ (year_clause_nonempty s1 e1) Hm1 eq_refl).
  subst tl1.
  rewrite (sub_skip _ _ year_range_headless _ _ _ _ Hskip2).
  destruct (year_range_match
              (last_of mid (last_of (year_clause s1 e1) (last_of pre None)))
              s2 e2 post [] Hs2 He2 Hpost0) as [p2 Hm2].
  rewrite (sub_hit_app _ _ _ _ _ _ (year_clause_nonempty s2 e2) Hm2 eq_refl).
  rewrite <- (app_nil_r post) at 1.
  rewrite (sub_skip _ _ year_range_headless _ _ _ _ (no_start_all _ _ Hpost)).
  cbn [sub_from]. rewrite year_range_headless by reflexivity.
  rewrite app_nil_r. reflexivity.
Qed.

Lemma X19_witness :
  convert_query_for_database
    (lit "(a) " ++ year_clause (lit "2001") (lit "2005") ++ lit " OR (b) "
       ++ year_clause (lit "2010") (lit "2020") ++ [])
    (lit "scopus")
  = Ok (lit "(a) " ++ scopus_clause (lit "2001") (lit "2005") ++ lit " OR (b) "
          ++ scopus_clause (lit "2001") (lit "2005") ++ []).
Proof.
  apply (X19_scopus_second_clause_gets_first_years
           (lit "(a) ") (lit "2001") (lit "2005") (lit " OR (b) ")
           (lit "2010") (lit "2020") []); reflexivity.
Defined.

End YearFacts.

(** ** [execute_query_paginated] over [query_wos] *)

Module PipelineFacts.
Import Paginated QueryWos Pipeline.

Section Pipeline.

Context {P : Platform}.
Variable record : Type.
Variable extract_record : json -> option record.
Variables (delay : float) (max_records retries : Z).

(** [time.sleep(delay)] returns. *)
Hypothesis delay_sleepable : sleepable delay = true.

(** Full pages, then a call of [query_wos] that returns [None]. *)
Lemma pages_then_none (failing rest : list http) (qlog : list float) :
  (forall fr, query_wos extract_record scripted_get page_size fr 3 1 failing []
              = (Returns None, rest, qlog)) ->
  forall datas rowss,
    Forall2 (fun d rows => on_success extract_record d = Returns (Some rows)
                           /\ full rows) datas rowss ->
    forall dfs fr a log,
      fr + page_size * Z.of_nat (List.length datas) <= max_records ->
      exists s',
        while_loop (fetch_page extract_record scripted_get) delay max_records retries
          (S (List.length datas))
          (mkLocals dfs fr a (page_answers datas ++ failing, []) log)
        = Some (Finished s')
        /\ all_dfs s' = dfs ++ rowss
        /\ world s' = (rest, qlog)
        /\ slept s' = log ++ repeat delay (List.length datas).
Proof.
  intros Hfail datas rowss H.
  induction H as [|d rows datas rowss [Hd Hfull] _ IH]; intros dfs fr a log Hmax.
  - cbn [List.length page_answers map app while_loop first_record].
    replace (fr <=? max_records) with true
      by (symmetry; apply Z.leb_le; cbn [List.length] in Hmax; lia).
    unfold body, fetch_page. cbn [world first_record fst snd].
    rewrite Hfail. eexists. split; [reflexivity|].
    cbn [all_dfs world slept repeat]. rewrite !app_nil_r. auto.
  - cbn [List.length] in Hmax.
    assert (Hfr : fr <= max_records) by (unfold page_size in *; lia).
    remember (S (List.length datas)) as n eqn:En.
    cbn [List.length page_answers map app while_loop first_record].
    replace (fr <=? max_records) with true by (symmetry; apply Z.leb_le; exact Hfr).
    unfold body at 1. unfold fetch_page at 1. cbn [world first_record fst snd].
    unfold query_wos at 1. change (Z.to_nat 3) with 3%nat.
    cbn [attempt_loop scripted_get]. change (200 =? 200) with true. cbn iota.
    rewrite Hd.
    destruct rows as [|r rows]; [unfold full, page_size in Hfull; cbn in Hfull; lia|].
    replace (Z.of_nat (List.length (r :: rows)) <? page_size) with false
      by (symmetry; apply Z.ltb_ge; exact Hfull).
    cbn [all_dfs attempts slept first_record].
    rewrite (time_sleep_accepted _ _ delay_sleepable).
    subst n.
    destruct (IH (dfs ++ [r :: rows]) (fr + page_size) 0 (log ++ [delay]))
      as (s' & Hs' & Hdfs & Hw & Hlog); [unfold page_size in *; lia|].
    exists s'. split; [exact Hs'|]. split; [|split; [exact Hw|]].
    + rewrite Hdfs, <- app_assoc. reflexivity.
    + rewrite Hlog, <- app_assoc. reflexivity.
Qed.

Lemma paginated_pages_then_none (failing rest : list http) (qlog : list float) datas rowss :
  (forall fr, query_wos extract_record scripted_get page_size fr 3 1 failing []
              = (Returns None, rest, qlog)) ->
  Forall2 (fun d rows => on_success extract_record d = Returns (Some rows)
                         /\ full rows) datas rowss ->
  page_size * Z.of_nat (List.length datas) < max_records ->
  execute_query_paginated (fetch_page extract_record scripted_get) delay max_records
    retries (page_answers datas ++ failing, [])
  = Some (Return (concat_or_none rowss) (rest, qlog)
            (repeat delay (List.length datas))).
Proof.
  intros Hfail H Hmax.
  destruct (pages_then_none failing rest qlog Hfail datas rowss H [] 1 0 [])
    as (s' & Hs' & Hdfs & Hw & Hlog); [lia|].
  unfold execute_query_paginated.
  rewrite (PaginatedFacts.enough_fuel_enough _ _ _ _ _ _ _ Hs').
  unfold conclude, concat_or_none. rewrite Hdfs, Hw, Hlog. cbn [app].
  destruct rowss; reflexivity.
Qed.

(** X20. A failure on a later page cuts the result short without a sign:
    after full pages, a page for which [query_wos] gets an answer it checks
    for (a failed connection, an HTTP error, a body without records), or is
    throttled three times, ends the pagination, and the rows of the pages
    before are returned as if they were all. The loop's own retries and its
    doubling delay are not used: the only sleeps are the ones between pages
    and, when throttled, the 1, 2 and 3 seconds inside [query_wos]. The
    delay between pages is a duration [time.sleep] takes, and so are the 1,
    2 and 3 seconds. *)
Theorem X20_failure_on_a_later_page_truncates :
  forall (datas : list json) (rowss : list (list record)) (rest : list http),
    Forall2 (fun d rows => on_success extract_record d = Returns (Some rows)
                           /\ full rows) datas rowss ->
    page_size * Z.of_nat (List.length datas) < max_records ->
    (forall h,
        checked_failure h = true ->
        execute_query_paginated (fetch_page extract_record scripted_get) delay
          max_records retries (page_answers datas ++ h :: rest, [])
        = Some (Return (concat_or_none rowss) (rest, [])
                  (repeat delay (List.length datas))))
    /\ (throttles_accepted 1 3 = true ->
        forall b1 b2 b3,
          execute_query_paginated (fetch_page extract_record scripted_get) delay
            max_records retries
            (page_answers datas
               ++ Response 429 b1 :: Response 429 b2 :: Response 429 b3 :: rest, [])
          = Some (Return (concat_or_none rowss) (rest, [1; 2; 3]%float)
                    (repeat delay (List.length datas)))).
Proof.
  intros datas rowss rest H Hmax. split.
  - intros h Hh. apply paginated_pages_then_none; [|exact H|exact Hmax].
    intros fr.
    apply (proj1 (QueryWosFacts.query_wos_retries_only_429 extract_record page_size fr 1
                    3 [] eq_refl) h rest); [reflexivity|exact Hh].
  - intros Hthrottle b1 b2 b3.
    apply (paginated_pages_then_none
             (Response 429 b1 :: Response 429 b2 :: Response 429 b3 :: rest));
      [|exact H|exact Hmax].
    intros fr.
    apply (proj2 (QueryWosFacts.query_wos_retries_only_429 extract_record page_size fr 1
                    3 [b1; b2; b3] Hthrottle) rest). reflexivity.
Qed.

End Pipeline.

Lemma X20_witness :
  let extract := fun _ : json => Some tt in
  let datas := [WosRecord.body_with (JList (repeat JNull 100))] in
  let rowss := [repeat tt 100] in
  (forall h,
      checked_failure h = true ->
      execute_query_paginated (P := linux) (fetch_page (P := linux) extract scripted_get) 1 5000 5
        (page_answers datas ++ h :: [], [])
      = Some (Return (concat_or_none rowss) ([], []) (repeat 1%float (List.length datas))))
  /\ (throttles_accepted (P := linux) 1 3 = true ->
      forall b1 b2 b3,
        execute_query_paginated (P := linux) (fetch_page (P := linux) extract scripted_get) 1 5000 5
          (page_answers datas
             ++ Response 429 b1 :: Response 429 b2 :: Response 429 b3 :: [], [])
        = Some (Return (concat_or_none rowss) ([], [1; 2; 3]%float)
                  (repeat 1%float (List.length datas)))).
Proof.
  apply (X20_failure_on_a_later_page_truncates (P := linux) unit (fun _ => Some tt) 1 5000 5).
  - reflexivity.
  - constructor; [|constructor]. split; [reflexivity|].
    unfold full, page_size. rewrite repeat_length. lia.
  - reflexivity.
Defined.

End PipelineFacts.
